(** * India-Pakistan news analytics: the text pipeline of [backend/app.py]

    A shallow embedding of the four analytical functions of the backend
    ([generate_summary], [extract_conflict_statistics],
    [extract_trending_keywords], [extract_geographic_hotspots]) together
    with the helpers they call, followed by the properties proved about
    them.

    Modelling conventions.
    - A Python [str] is a list of code points ([str := list N]).  Case
      mapping and the digit class are the ASCII ones; the white-space class
      is the full list used by [str.isspace], [str.strip] and the regex
      class [\s].  Other code points are uncased symbols.
    - A Python [int] is a [Z].  [int(s)] refuses a string of more than
      4300 digits, as CPython does from version 3.11 on.
    - A Python [float] is modelled by its exact value, a rational [Q].  In
      the sentence scores and in the average of the statistics every
      operation is the exact operation followed by the rounding of IEEE 754
      binary64 ([Float.round]), so that sums that tie exactly but not in
      floating point are told apart as in the code.  Of these operations
      only the division of two ints can leave the range of the floats on an
      input of the model, and it raises [OverflowError].  The weights of
      the keywords and the economic figures are kept as the exact numbers
      they are computed or read from; what is proved about them (order,
      bounds, sign) does not depend on their rounding.
    - A list has fewer than [2^63] elements.  The calls of [logger] are not
      modelled: they format strings and integers that stay within the
      limits of the conversions whenever the step before them has
      succeeded.
    - Exceptions are values of [exn]; a computation that may raise returns
      a [result].
    - An article record is a dict that may lack keys: every field is an
      [option].
    - The collaborators that are not part of the repository (the TF-IDF
      vectorizer of scikit-learn, the chat client) are Section variables. *)

From Stdlib Require Import List ZArith NArith QArith Bool Lia String Ascii.
From Stdlib Require Import Sorted Permutation DecimalString.
From Stdlib Require Import Floats.SpecFloat.
Import ListNotations.

Set Implicit Arguments.
Local Close Scope Q_scope.
Local Open Scope list_scope.

(** ** Exceptions *)

Module Py.

Inductive exn : Type :=
| KeyError (key : string)
| ValueError
| OverflowError
| ZeroDivisionError
| ExternalError.

Inductive result (A : Type) : Type :=
| Ok (a : A)
| Raise (e : exn).

Arguments Ok {A} a.
Arguments Raise {A} e.

Definition bind {A B} (m : result A) (f : A -> result B) : result B :=
  match m with
  | Ok a => f a
  | Raise e => Raise e
  end.

(** [try: m  except Exception: h] *)
Definition try_except {A} (m : result A) (h : exn -> result A) : result A :=
  match m with
  | Ok a => Ok a
  | Raise e => h e
  end.

(** A [for] loop whose body may raise: the state is threaded left to right
    and the first exception aborts the loop. *)
Fixpoint for_each {A S} (body : S -> A -> result S) (xs : list A) (s : S)
  : result S :=
  match xs with
  | [] => Ok s
  | x :: xs' => bind (body s x) (for_each body xs')
  end.

End Py.
Import Py.

Notation "x <- m ;; k" := (bind m (fun x => k))
  (at level 61, m at next level, right associativity).

(** ** Strings *)

Definition char := N.
Definition str := list char.

(** A literal of the source, given in ASCII. *)
Definition py (s : string) : str :=
  List.map N_of_ascii (list_ascii_of_string s).

Definition char_eqb (a b : char) : bool := N.eqb a b.

Fixpoint str_eqb (a b : str) : bool :=
  match a, b with
  | [], [] => true
  | x :: a', y :: b' => char_eqb x y && str_eqb a' b'
  | _, _ => false
  end.

(** Comparison of two [str]: lexicographic on code points, a proper prefix
    being smaller. *)
Fixpoint str_compare (a b : str) : comparison :=
  match a, b with
  | [], [] => Eq
  | [], _ :: _ => Lt
  | _ :: _, [] => Gt
  | x :: a', y :: b' =>
      match N.compare x y with
      | Eq => str_compare a' b'
      | c => c
      end
  end.

Definition in_range (lo hi c : N) : bool := (N.leb lo c && N.leb c hi)%bool.

(** [\d] and the digits [int] reads. *)
Definition is_digit (c : char) : bool := in_range 48 57 c.

(** White space of [str.isspace], [str.strip], [str.split] and [\s]. *)
Definition is_space (c : char) : bool :=
  (in_range 9 13 c || in_range 28 32 c || N.eqb c 133 || N.eqb c 160
   || N.eqb c 5760 || in_range 8192 8202 c || N.eqb c 8232 || N.eqb c 8233
   || N.eqb c 8239 || N.eqb c 8287 || N.eqb c 12288)%bool.

Definition is_upper (c : char) : bool := in_range 65 90 c.
Definition is_lower (c : char) : bool := in_range 97 122 c.
Definition is_cased (c : char) : bool := (is_upper c || is_lower c)%bool.

Definition lower_char (c : char) : char := if is_upper c then (c + 32)%N else c.
Definition upper_char (c : char) : char := if is_lower c then (c - 32)%N else c.

(** The methods of [str]. *)
Module Str.

(** [s.lower()] *)
Definition lower (s : str) : str := List.map lower_char s.

(** [s.lstrip()], [s.rstrip()], [s.strip()] *)
Fixpoint lstrip (s : str) : str :=
  match s with
  | c :: s' => if is_space c then lstrip s' else s
  | [] => []
  end.

Definition rstrip (s : str) : str := rev (lstrip (rev s)).

Definition strip (s : str) : str := rstrip (lstrip s).

(** [s.startswith(p)], [s.endswith(p)] *)
Fixpoint startswith (s p : str) : bool :=
  match p, s with
  | [], _ => true
  | x :: p', y :: s' => char_eqb x y && startswith s' p'
  | _ :: _, [] => false
  end.

Definition endswith (s p : str) : bool := startswith (rev s) (rev p).

(** [sub in s] *)
Fixpoint contains (sub s : str) : bool :=
  (startswith s sub ||
   match s with
   | [] => false
   | _ :: s' => contains sub s'
   end)%bool.

(** Scan of [s] for non-overlapping occurrences of a non-empty [sub], left
    to right; [skip] is the number of characters still covered by the
    occurrence found last. *)
Fixpoint count_from (sub s : str) (skip : nat) : Z :=
  match s with
  | [] => 0
  | _ :: s' =>
      match skip with
      | S n => count_from sub s' n
      | O => if startswith s sub
             then (1 + count_from sub s' (List.length sub - 1))%Z
             else count_from sub s' 0
      end
  end.

(** [s.count(sub)] *)
Definition count (s sub : str) : Z :=
  match sub with
  | [] => Z.of_nat (List.length s) + 1
  | _ :: _ => count_from sub s 0
  end.

Fixpoint replace_from (old new s : str) (skip : nat) : str :=
  match s with
  | [] => []
  | c :: s' =>
      match skip with
      | S n => replace_from old new s' n
      | O => if startswith s old
             then new ++ replace_from old new s' (List.length old - 1)
             else c :: replace_from old new s' 0
      end
  end.

(** [s.replace(old, new)] *)
Definition replace (s old new : str) : str :=
  match old with
  | [] => new ++ flat_map (fun c => c :: new) s
  | _ :: _ => replace_from old new s 0
  end.

(** [sep.join(parts)] *)
Fixpoint join (sep : str) (parts : list str) : str :=
  match parts with
  | [] => []
  | [p] => p
  | p :: rest => p ++ sep ++ join sep rest
  end.

(** [s.split()]: the maximal runs of characters that are not white space.
    [cur] is the run being read, in reverse. *)
Fixpoint split_ws_from (s : str) (cur : str) : list str :=
  match s with
  | [] => match cur with [] => [] | _ => [rev cur] end
  | c :: s' =>
      if is_space c
      then match cur with
           | [] => split_ws_from s' []
           | _ => rev cur :: split_ws_from s' []
           end
      else split_ws_from s' (c :: cur)
  end.

Definition split_ws (s : str) : list str := split_ws_from s [].

(** [s.title()]: a cased character is upper-cased when it follows an uncased
    one (or starts the string) and lower-cased otherwise. *)
Fixpoint title_from (s : str) (previous_is_cased : bool) : str :=
  match s with
  | [] => []
  | c :: s' =>
      (if previous_is_cased then lower_char c else upper_char c)
        :: title_from s' (is_cased c)
  end.

Definition title (s : str) : str := title_from s false.

(** [s.isdigit()] *)
Definition isdigit (s : str) : bool :=
  match s with
  | [] => false
  | _ => forallb is_digit s
  end.

(** [s[:n]] and [l[:n]] for an int [n]: a negative [n] counts from the
    end. *)
Definition slice_to {A} (l : list A) (n : Z) : list A :=
  if (n <? 0)%Z
  then firstn (List.length l - Z.to_nat (- n)) l
  else firstn (Z.to_nat n) l.

End Str.

(** ** [int] and [float] of a string *)

Definition digit_value (c : char) : Z := Z.of_N (c - 48).

(** Digits with single underscores between them. *)
Fixpoint int_body (s : str) (acc : Z) (previous_is_digit : bool) : option Z :=
  match s with
  | [] => if previous_is_digit then Some acc else None
  | c :: s' =>
      if is_digit c then int_body s' (10 * acc + digit_value c)%Z true
      else if (N.eqb c 95 && previous_is_digit)%bool then int_body s' acc false
      else None
  end.

(** The sign in front of a number: [+] or [-], if any. *)
Definition split_sign (s : str) : bool * str :=
  match s with
  | c :: r =>
      if N.eqb c 43 then (false, r)
      else if N.eqb c 45 then (true, r)
      else (false, s)
  | [] => (false, s)
  end.

(** [sys.int_info.default_max_str_digits] *)
Definition max_str_digits : Z := 4300.

(** [int(s)]: [ValueError] on a string that is not a number, and on a
    number written with more than [max_str_digits] digits. *)
Definition int (s : str) : result Z :=
  let '(negative, body) := split_sign (Str.strip s) in
  match int_body body 0%Z false with
  | Some v =>
      if (max_str_digits <? Z.of_nat (List.length (List.filter is_digit body)))%Z
      then Raise ValueError
      else Ok (if negative then (- v)%Z else v)
  | None => Raise ValueError
  end.

Fixpoint span {A} (p : A -> bool) (l : list A) : list A * list A :=
  match l with
  | x :: l' => if p x then let '(a, b) := span p l' in (x :: a, b) else ([], l)
  | [] => ([], [])
  end.

Definition digits_nat (s : str) : Z :=
  fold_left (fun acc c => (10 * acc + digit_value c)%Z) s 0%Z.

(** [float(s)] on the decimal notation [digits] or [digits.digits], with
    an optional sign and surrounding white space.  The other notations of
    [float] (exponent, [inf], [nan], a leading dot, underscores) are outside
    the model: the one caller passes a match of [\d+(?:\.\d+)?]. *)
Definition float (s : str) : result Q :=
  let '(negative, body) := split_sign (Str.strip s) in
  let '(ip, rest) := span is_digit body in
  let signed (q : Q) := if negative then Qopp q else q in
  match ip, rest with
  | _ :: _, [] => Ok (signed (inject_Z (digits_nat ip)))
  | _ :: _, 46%N :: fp =>
      if forallb is_digit fp
      then Ok (signed (Qmake (digits_nat (ip ++ fp))
                             (Z.to_pos (10 ^ Z.of_nat (List.length fp)))))
      else Raise ValueError
  | _, _ => Raise ValueError
  end.

(** ** Floating-point arithmetic

    [Float.round x] is the binary64 number nearest to [x]: the significand
    has 53 bits, a tie goes to the even significand, and below [2^-1022]
    the exponent stays at [-1074] (subnormal numbers).  The exponent is not
    bounded above: the caller that can reach [2^1024] tests for it. *)

Module Float.

(** The integer nearest to [n / d], a tie going to the even one; [0 < d]. *)
Definition nearest_even (n d : Z) : Z :=
  let q := (n / d)%Z in
  match (2 * (n mod d) ?= d)%Z with
  | Lt => q
  | Gt => (q + 1)%Z
  | Eq => if Z.even q then q else (q + 1)%Z
  end.

(** [floor (log2 (a / d))], for [0 < a] and [0 < d]. *)
Definition log2_floor (a d : Z) : Z :=
  let l := (Z.log2 a - Z.log2 d)%Z in
  let below :=
    if (0 <=? l)%Z then (a <? d * 2 ^ l)%Z else (a * 2 ^ (- l) <? d)%Z in
  if below then (l - 1)%Z else l.

Definition round (x : Q) : Q :=
  match Qnum x with
  | 0%Z => 0%Q
  | n =>
      let a := Z.abs n in
      let d := Zpos (Qden x) in
      let e := Z.max (log2_floor a d - 52) (-1074) in
      let m :=
        if (0 <=? e)%Z then nearest_even a (d * 2 ^ e)
        else nearest_even (a * 2 ^ (- e)) d in
      let v :=
        if (0 <=? e)%Z then inject_Z (m * 2 ^ e)
        else Qmake m (Z.to_pos (2 ^ (- e))) in
      Qred (if (n <? 0)%Z then Qopp v else v)
  end.

(** [x * y] and [x + y] on floats *)
Definition mul (x y : Q) : Q := round (Qmult x y).
Definition add (x y : Q) : Q := round (Qplus x y).

(** [float(z)], the conversion an [int] undergoes next to a float *)
Definition of_int (z : Z) : Q := round (inject_Z z).

(** The value of [a / b] on two ints, when it has one. *)
Definition div_int (a b : Z) : Q := round (Qdiv (inject_Z a) (inject_Z b)).

(** The least magnitude that rounds to [2^1024], out of the range. *)
Definition max_bound : Z := (2 ^ 1024 - 2 ^ 970)%Z.

(** [round(x, 1)]: the float nearest to the decimal with one digit after
    the point that is nearest to [x], a tie going to the even digit. *)
Definition round1 (x : Q) : Q :=
  round (Qmake (nearest_even (10 * Qnum x) (Zpos (Qden x))) 10).

End Float.

(** [a / b] on two ints: the quotient rounded to a float;
    [ZeroDivisionError] when [b] is zero, [OverflowError] when the rounded
    quotient is out of the range of the floats. *)
Definition true_divide (a b : Z) : result Q :=
  if (b =? 0)%Z then Raise ZeroDivisionError
  else if (Float.max_bound * Z.abs b <=? Z.abs a)%Z then Raise OverflowError
  else Ok (Float.div_int a b).

(** ** Regular expressions

    The fragment of [re] the source uses: literals, character classes,
    sequence, ordered alternation, the greedy optional group, greedy [+] and
    [*] on a character class, and numbered capturing groups.  Matching is by
    backtracking, as in [re]: alternatives are tried left to right, a
    quantifier gives back one character at a time. *)

Module Re.

Inductive regex : Type :=
| Eps
| Chr (c : char)
| Cls (p : char -> bool)
| Seq (r1 r2 : regex)
| Alt (r1 r2 : regex)
| Opt (r : regex)
| PlusC (p : char -> bool)
| StarC (p : char -> bool)
| Group (n : nat) (r : regex).

(** The groups that took part in a match, latest first. *)
Definition captures := list (nat * str).

Fixpoint lookup (n : nat) (caps : captures) : option str :=
  match caps with
  | [] => None
  | (m, w) :: caps' => if Nat.eqb n m then Some w else lookup n caps'
  end.

Section Matcher.
Variable A : Type.

(** [p*] from the longest run down to none. *)
Fixpoint star (p : char -> bool) (s : str) (k : str -> option A) : option A :=
  match s with
  | c :: s' =>
      if p c
      then match star p s' k with
           | Some x => Some x
           | None => k s
           end
      else k s
  | [] => k s
  end.

Definition plus (p : char -> bool) (s : str) (k : str -> option A) : option A :=
  match s with
  | c :: s' => if p c then star p s' k else None
  | [] => None
  end.

(** [rmatch r s caps k]: match [r] at the head of [s], then hand the rest
    of the subject and the captures to [k]; the first success is the
    result. *)
Fixpoint rmatch (r : regex) (s : str) (caps : captures)
         (k : str -> captures -> option A) : option A :=
  match r with
  | Eps => k s caps
  | Chr c =>
      match s with
      | c' :: s' => if char_eqb c c' then k s' caps else None
      | [] => None
      end
  | Cls p =>
      match s with
      | c' :: s' => if p c' then k s' caps else None
      | [] => None
      end
  | Seq r1 r2 => rmatch r1 s caps (fun s' caps' => rmatch r2 s' caps' k)
  | Alt r1 r2 =>
      match rmatch r1 s caps k with
      | Some x => Some x
      | None => rmatch r2 s caps k
      end
  | Opt r' =>
      match rmatch r' s caps k with
      | Some x => Some x
      | None => k s caps
      end
  | PlusC p => plus p s (fun s' => k s' caps)
  | StarC p => star p s (fun s' => k s' caps)
  | Group n r' =>
      rmatch r' s caps
        (fun s' caps' =>
           k s' ((n, firstn (List.length s - List.length s') s) :: caps'))
  end.
End Matcher.

(** A match of [r] at the head of [s]: the rest of the subject and the
    captures. *)
Definition match_here (r : regex) (s : str) : option (str * captures) :=
  rmatch r s [] (fun s' caps => Some (s', caps)).

(** The tuple [findall] reports for one match: groups [1..n], an unmatched
    group being the empty string. *)
Definition groups (n : nat) (caps : captures) : list str :=
  List.map (fun i => match lookup i caps with Some w => w | None => [] end)
           (seq 1 n).

(** The matches of [r] in [s], left to right and not overlapping.  [skip]
    counts the characters still covered by the last match.  After an empty
    match the scan moves one character on; no pattern of the source matches
    the empty string. *)
Fixpoint scan (r : regex) (s : str) (skip : nat) : list (str * captures) :=
  match s with
  | [] =>
      match skip, match_here r [] with
      | O, Some (_, caps) => [([], caps)]
      | _, _ => []
      end
  | _ :: s' =>
      match skip with
      | S n => scan r s' n
      | O =>
          match match_here r s with
          | Some (rest, caps) =>
              let len := List.length s - List.length rest in
              (firstn len s, caps) :: scan r s' (len - 1)
          | None => scan r s' 0
          end
      end
  end.

(** [re.findall(r, s)] for a pattern with one group. *)
Definition findall1 (r : regex) (s : str) : list str :=
  List.map (fun m => match groups 1 (snd m) with w :: _ => w | [] => [] end)
           (scan r s 0).

(** [re.findall(r, s)] for a pattern with [n >= 2] groups: a tuple per
    match. *)
Definition findall_groups (n : nat) (r : regex) (s : str) : list (list str) :=
  List.map (fun m => groups n (snd m)) (scan r s 0).

(** [re.split(r, s)] for a pattern without groups whose matches are not
    empty.  [cur] is the piece being read, in reverse. *)
Fixpoint split_from (r : regex) (s : str) (skip : nat) (cur : str) : list str :=
  match s with
  | [] => [rev cur]
  | c :: s' =>
      match skip with
      | S n => split_from r s' n cur
      | O =>
          match match_here r s with
          | Some (rest, _) =>
              match List.length s - List.length rest with
              | O => split_from r s' 0 (c :: cur)
              | S n => rev cur :: split_from r s' n []
              end
          | None => split_from r s' 0 (c :: cur)
          end
      end
  end.

Definition split (r : regex) (s : str) : list str := split_from r s 0 [].

(** The literal text [w] as a pattern. *)
Fixpoint lit (w : str) : regex :=
  match w with
  | [] => Eps
  | [c] => Chr c
  | c :: w' => Seq (Chr c) (lit w')
  end.

(** ['|'.join(words)] inside a group. *)
Fixpoint alts (words : list str) : regex :=
  match words with
  | [] => Eps
  | [w] => lit w
  | w :: rest => Alt (lit w) (alts rest)
  end.

Fixpoint seqs (rs : list regex) : regex :=
  match rs with
  | [] => Eps
  | [r] => r
  | r :: rest => Seq r (seqs rest)
  end.

End Re.

(** ** Articles *)

(** An article record as the functions receive it: a dict whose keys may be
    missing. *)
Record record : Type := {
  title : option str;
  text : option str;
  url : option str;
  image : option str;
  publish_date : option str
}.

(** The documented shape of an article, as [fetch_news_articles] builds
    it. *)
Record Article : Type := {
  article_title : str;
  article_text : str;
  article_url : str;
  article_image : option str;
  article_publish_date : option str
}.

Definition record_of (a : Article) : record := {|
  title := Some (article_title a);
  text := Some (article_text a);
  url := Some (article_url a);
  image := article_image a;
  publish_date := article_publish_date a
|}.

(** [article[key]] *)
Definition getitem (key : string) (field : option str) : result str :=
  match field with
  | Some v => Ok v
  | None => Raise (KeyError key)
  end.

(** [article.get(key, default)] *)
Definition get (field : option str) (default : str) : str :=
  match field with
  | Some v => v
  | None => default
  end.

(** ** Statistics: [extract_conflict_statistics] *)

(** The dict [stats] while the articles are read. *)
Record stats : Type := {
  total_casualties : Z;
  deaths : Z;
  injuries : Z;
  military_incidents : Z;
  diplomatic_meetings : Z;
  border_violations : Z;
  economic_impact : list Q;
  key_developments : Z;
  recent_period : str
}.

(** The dict returned: [stats] with the three derived entries. *)
Record StatisticsReport : Type := {
  counters : stats;
  avg_casualties_per_incident : Q;
  diplomatic_activity_level : str;
  conflict_intensity : str
}.

Definition death_keywords : list str :=
  List.map py ["killed"; "dead"; "deaths"; "died"; "fatalities"; "casualties"]%string.
Definition injury_keywords : list str :=
  List.map py ["injured"; "wounded"; "hurt"; "casualties"]%string.
Definition military_keywords : list str :=
  List.map py ["missile"; "drone"; "attack"; "strike"; "firing"; "shelling";
               "aircraft"; "military operation"; "bomb"; "blast"; "explosion"]%string.
Definition diplomatic_keywords : list str :=
  List.map py ["meeting"; "talks"; "summit"; "minister"; "ambassador";
               "diplomatic"; "negotiation"; "dialogue"]%string.
Definition border_keywords : list str :=
  List.map py ["border"; "loc"; "line of control"; "ceasefire"; "violation";
               "infiltration"; "cross-border"]%string.
Definition economic_keywords : list str :=
  List.map py ["trade"; "billion"; "million"; "economic"; "investment"; "loss";
               "damage"]%string.

Definition word_to_num : list (str * Z) :=
  List.map (fun p => (py (fst p), snd p))
    [("zero", 0); ("one", 1); ("two", 2); ("three", 3); ("four", 4);
     ("five", 5); ("six", 6); ("seven", 7); ("eight", 8); ("nine", 9);
     ("ten", 10); ("eleven", 11); ("twelve", 12); ("thirteen", 13);
     ("fourteen", 14); ("fifteen", 15); ("sixteen", 16); ("seventeen", 17);
     ("eighteen", 18); ("nineteen", 19); ("twenty", 20)]%string%Z.

Fixpoint dict_get {V} (d : list (str * V)) (key : str) : option V :=
  match d with
  | [] => None
  | (k, v) :: d' => if str_eqb key k then Some v else dict_get d' key
  end.

(** [word_to_num.get(word.lower(), None)] *)
Definition convert_word_to_number (word : str) : option Z :=
  dict_get word_to_num (Str.lower word).

Module Patterns.
Import Re.

(** [(\d+)] as group [n] *)
Definition digits (n : nat) : regex := Group n (PlusC is_digit).
(** [\s+] *)
Definition ws : regex := PlusC is_space.
(** [(?:people\s+|children\s+)?] *)
Definition people_or_children : regex :=
  Opt (Alt (Seq (lit (py "people")) ws) (Seq (lit (py "children")) ws)).
(** [(zero|one|...|twenty)] as group [n] *)
Definition number_word (n : nat) : regex :=
  Group n (alts (List.map py
    ["zero"; "one"; "two"; "three"; "four"; "five"; "six"; "seven"; "eight";
     "nine"; "ten"; "eleven"; "twelve"; "thirteen"; "fourteen"; "fifteen";
     "sixteen"; "seventeen"; "eighteen"; "nineteen"; "twenty"]%string)).

Definition death_pattern1 : regex :=
  seqs [digits 1; ws; people_or_children; alts death_keywords].
Definition death_pattern2 : regex :=
  seqs [alts death_keywords; ws; digits 1].
Definition death_pattern3 : regex :=
  Alt (seqs [alts (List.map py ["death toll of"; "toll of"; "death count of"]%string);
             ws; digits 1])
      (seqs [digits 2; ws; lit (py "deaths")]).
Definition death_pattern4 : regex :=
  seqs [lit (py "at least"); ws; digits 1; ws; alts death_keywords].
Definition death_pattern5 : regex :=
  seqs [number_word 1; ws; people_or_children; alts death_keywords].
Definition death_pattern6 : regex :=
  seqs [lit (py "at least"); ws; number_word 1; ws; alts death_keywords].

Definition injury_pattern1 : regex :=
  seqs [digits 1; ws; people_or_children; alts injury_keywords].
Definition injury_pattern2 : regex :=
  seqs [alts injury_keywords; ws; digits 1].
Definition injury_pattern3 : regex :=
  seqs [lit (py "at least"); ws; digits 1; ws; alts injury_keywords].
Definition injury_pattern4 : regex :=
  seqs [number_word 1; ws; people_or_children; alts injury_keywords].

(** [(\d+(?:\.\d+)?)\s*(?:billion|million)] *)
Definition economic_pattern : regex :=
  seqs [Group 1 (Seq (PlusC is_digit) (Opt (Seq (Chr 46%N) (PlusC is_digit))));
        StarC is_space; alts (List.map py ["billion"; "million"]%string)].

(** [[.!?]+] *)
Definition sentence_end : regex :=
  PlusC (fun c => (N.eqb c 46 || N.eqb c 33 || N.eqb c 63)%N%bool).
End Patterns.

(** [for match in matches: try: total += int(match)  except: pass] *)
Definition add_digit_matches (matches : list str) (total : Z) : result Z :=
  for_each
    (fun total m =>
       try_except (n <- int m ;; Ok (total + n)%Z) (fun _ => Ok total))
    matches total.

(** [for word in words: num = convert_word_to_number(word); if num is not
    None: total += num] *)
Definition add_word_matches (words : list str) (total : Z) : Z :=
  fold_left
    (fun total word =>
       match convert_word_to_number word with
       | Some num => (total + num)%Z
       | None => total
       end)
    words total.

(** [for match in matches: try: figures.append(float(match))  except: pass] *)
Definition append_figures (matches : list str) (figures : list Q) : result (list Q) :=
  for_each
    (fun figures m =>
       try_except (x <- float m ;; Ok (figures ++ [x])) (fun _ => Ok figures))
    matches figures.

(** The loop over a keyword list that counts an article once: it stops at
    the first keyword found in the text. *)
Definition mentions (keywords : list str) (combined_text : str) : bool :=
  existsb (fun keyword => Str.contains keyword combined_text) keywords.

Definition combined_text_of (article : record) : str :=
  let text := Str.lower (get (text article) []) in
  let title := Str.lower (get (title article) []) in
  title ++ py " " ++ text.

(** The deaths one article contributes. *)
Definition article_deaths_of (combined_text : str) : result Z :=
  let death_matches1 := Re.findall1 Patterns.death_pattern1 combined_text in
  let death_matches2 := Re.findall1 Patterns.death_pattern2 combined_text in
  let death_matches3 := Re.findall_groups 2 Patterns.death_pattern3 combined_text in
  let death_matches4 := Re.findall1 Patterns.death_pattern4 combined_text in
  let death_matches5 := Re.findall1 Patterns.death_pattern5 combined_text in
  let death_matches6 := Re.findall1 Patterns.death_pattern6 combined_text in
  let all_death_matches :=
    (death_matches1 ++ death_matches2 ++ death_matches4)
      ++ flat_map (List.filter (fun m => negb (str_eqb m []))) death_matches3 in
  article_deaths <- add_digit_matches all_death_matches 0%Z ;;
  Ok (add_word_matches (death_matches5 ++ death_matches6) article_deaths).

(** The injuries one article contributes. *)
Definition article_injuries_of (combined_text : str) : result Z :=
  let injury_matches1 := Re.findall1 Patterns.injury_pattern1 combined_text in
  let injury_matches2 := Re.findall1 Patterns.injury_pattern2 combined_text in
  let injury_matches3 := Re.findall1 Patterns.injury_pattern3 combined_text in
  let injury_matches4 := Re.findall1 Patterns.injury_pattern4 combined_text in
  let all_injury_matches := injury_matches1 ++ injury_matches2 ++ injury_matches3 in
  article_injuries <- add_digit_matches all_injury_matches 0%Z ;;
  Ok (add_word_matches injury_matches4 article_injuries).

(** The body of the loop over the articles. *)
Definition analyze_article (st : stats) (article : record) : result stats :=
  let combined_text := combined_text_of article in
  article_deaths <- article_deaths_of combined_text ;;
  article_injuries <- article_injuries_of combined_text ;;
  let bump (found : bool) (n : Z) := if found then (n + 1)%Z else n in
  economic <- append_figures (Re.findall1 Patterns.economic_pattern combined_text)
                             (economic_impact st) ;;
  Ok {| total_casualties := total_casualties st + (article_deaths + article_injuries);
        deaths := deaths st + article_deaths;
        injuries := injuries st + article_injuries;
        military_incidents :=
          bump (mentions military_keywords combined_text) (military_incidents st);
        diplomatic_meetings :=
          bump (mentions diplomatic_keywords combined_text) (diplomatic_meetings st);
        border_violations :=
          bump (mentions border_keywords combined_text) (border_violations st);
        economic_impact := economic;
        key_developments := key_developments st + 1;
        recent_period := recent_period st |}%Z.

Definition initial_stats : stats := {|
  total_casualties := 0;
  deaths := 0;
  injuries := 0;
  military_incidents := 0;
  diplomatic_meetings := 0;
  border_violations := 0;
  economic_impact := [];
  key_developments := 0;
  recent_period := py "7 days"
|}%Z.

Definition activity_level (n high moderate : Z) : str :=
  if (high <=? n)%Z then py "High"
  else if (moderate <=? n)%Z then py "Moderate"
  else py "Low".

(** The loop over the articles. *)
Definition read_articles (articles : list record) : result stats :=
  for_each analyze_article articles initial_stats.

(** The three derived entries.  The division is the one statement after
    the loop that can raise. *)
Definition report_of (st : stats) : result StatisticsReport :=
  average <- true_divide (total_casualties st)
                         (Z.max (military_incidents st) 1) ;;
  Ok {| counters := st;
        avg_casualties_per_incident := Float.round1 average;
        diplomatic_activity_level := activity_level (diplomatic_meetings st) 3 1;
        conflict_intensity := activity_level (military_incidents st) 4 2 |}.

Definition extract_conflict_statistics (articles : list record)
  : result StatisticsReport :=
  st <- read_articles articles ;;
  report_of st.

(** ** Stable sort in descending order

    [l.sort(reverse=True)] and [sorted(l, reverse=True)]: elements that
    compare equal keep their order.  [ltb x y] is [x < y]. *)

Section Sort.
Variable A : Type.
Variable ltb : A -> A -> bool.

Fixpoint insert_desc (x : A) (l : list A) : list A :=
  match l with
  | [] => [x]
  | y :: l' => if ltb x y then y :: insert_desc x l' else x :: l
  end.

Definition sort_desc (l : list A) : list A := fold_right insert_desc [] l.
End Sort.

(** ** Geographic hotspots: [extract_geographic_hotspots] *)

Module Hotspot.
Record t : Type := {
  name : str;
  lat : Q;
  lng : Q;
  type : str;
  intensity : str;
  incidents : Z;
  description : str
}.
End Hotspot.

Module Location.
Record t : Type := {
  lat : Q;
  lng : Q;
  name : str;
  type : str
}.
End Location.

Definition known_locations : list (str * Location.t) :=
  let loc key lat lng name type :=
    (py key, {| Location.lat := lat; Location.lng := lng;
                Location.name := py name; Location.type := py type |}) in
  [ loc "kashmir" 34.0837%Q 74.7973%Q "Kashmir" "disputed_region";
    loc "loc" 34.0466%Q 74.3982%Q "Line of Control" "border";
    loc "karachi" 24.8607%Q 67.0011%Q "Karachi" "city";
    loc "islamabad" 33.6844%Q 73.0479%Q "Islamabad" "capital";
    loc "lahore" 31.5497%Q 74.3436%Q "Lahore" "city";
    loc "delhi" 28.6139%Q 77.2090%Q "New Delhi" "capital";
    loc "mumbai" 19.0760%Q 72.8777%Q "Mumbai" "city";
    loc "balochistan" 28.1100%Q 65.5400%Q "Balochistan" "province";
    loc "punjab" 30.9010%Q 73.1200%Q "Punjab" "province";
    loc "siachen" 35.4218%Q 77.1025%Q "Siachen Glacier" "disputed_region" ]%string.

Definition default_hotspots : list Hotspot.t :=
  let spot name lat lng type intensity incidents description :=
    {| Hotspot.name := py name; Hotspot.lat := lat; Hotspot.lng := lng;
       Hotspot.type := py type; Hotspot.intensity := py intensity;
       Hotspot.incidents := incidents; Hotspot.description := py description |} in
  [ spot "Kashmir" 34.0837%Q 74.7973%Q "disputed_region" "high" 3%Z
         "Ongoing tensions in disputed Kashmir region";
    spot "Line of Control" 34.0466%Q 74.3982%Q "border" "medium" 2%Z
         "Border incidents along LOC";
    spot "Balochistan" 28.1100%Q 65.5400%Q "province" "low" 1%Z
         "Regional security concerns" ]%string.

Definition conflict_keywords : list str :=
  List.map py ["attack"; "killed"; "bomb"; "blast"; "shelling"; "firing";
               "violence"; "incident"; "shot"; "wounded"; "explosion";
               "strike"]%string.

(** The number of conflict keywords that occur in [text]. *)
Definition incident_count_of (text : str) : Z :=
  fold_left
    (fun incident_count keyword =>
       if Str.contains keyword text then (incident_count + 1)%Z else incident_count)
    conflict_keywords 0%Z.

Definition intensity_of (incident_count : Z) : str :=
  if (3 <=? incident_count)%Z then py "high"
  else if (1 <=? incident_count)%Z then py "medium"
  else py "low".

(** The update of a hotspot already in the list. *)
Definition update_hotspot (intensity : str) (incident_count : Z)
           (existing_hotspot : Hotspot.t) : Hotspot.t :=
  let upgraded :=
    (str_eqb intensity (py "high")
     || (str_eqb intensity (py "medium")
         && str_eqb (Hotspot.intensity existing_hotspot) (py "low")))%bool in
  {| Hotspot.name := Hotspot.name existing_hotspot;
     Hotspot.lat := Hotspot.lat existing_hotspot;
     Hotspot.lng := Hotspot.lng existing_hotspot;
     Hotspot.type := Hotspot.type existing_hotspot;
     Hotspot.intensity :=
       if upgraded then intensity else Hotspot.intensity existing_hotspot;
     Hotspot.incidents := (Hotspot.incidents existing_hotspot + incident_count)%Z;
     Hotspot.description := Hotspot.description existing_hotspot |}.

(** [next((h for h in hotspots if h['name'] == name), None)] followed by
    the update in place of the hotspot found; [None] when there is none. *)
Fixpoint update_existing (name : str) (f : Hotspot.t -> Hotspot.t)
         (hotspots : list Hotspot.t) : option (list Hotspot.t) :=
  match hotspots with
  | [] => None
  | h :: rest =>
      if str_eqb (Hotspot.name h) name then Some (f h :: rest)
      else match update_existing name f rest with
           | Some rest' => Some (h :: rest')
           | None => None
           end
  end.

(** The body of the loop over [known_locations] for one article. *)
Definition visit_location (text : str) (hotspots : list Hotspot.t)
           (entry : str * Location.t) : list Hotspot.t :=
  let '(location_key, location_data) := entry in
  if Str.contains location_key text then
    let incident_count := incident_count_of text in
    let intensity := intensity_of incident_count in
    match update_existing (Location.name location_data)
                          (update_hotspot intensity incident_count) hotspots with
    | Some hotspots' => hotspots'
    | None =>
        hotspots ++
        [{| Hotspot.name := Location.name location_data;
            Hotspot.lat := Location.lat location_data;
            Hotspot.lng := Location.lng location_data;
            Hotspot.type := Location.type location_data;
            Hotspot.intensity := intensity;
            Hotspot.incidents := incident_count;
            Hotspot.description :=
              py "Recent activity detected in " ++ Location.name location_data |}]
    end
  else hotspots.

(** The body of the loop over the articles. *)
Definition visit_article (hotspots : list Hotspot.t) (article : record)
  : result (list Hotspot.t) :=
  article_title <- getitem "title" (title article) ;;
  article_text <- getitem "text" (text article) ;;
  let text := Str.lower (article_title ++ py " " ++ article_text) in
  Ok (fold_left (visit_location text) known_locations hotspots).

(** [name not in existing_names] *)
Definition name_in (name : str) (names : list str) : bool :=
  existsb (str_eqb name) names.

Definition extract_geographic_hotspots (articles : list record)
  : result (list Hotspot.t) :=
  hotspots <- for_each visit_article articles [] ;;
  match hotspots with
  | [] => Ok default_hotspots
  | _ :: _ =>
      let existing_names := List.map Hotspot.name hotspots in
      Ok (fold_left
            (fun hotspots default_hotspot =>
               if name_in (Hotspot.name default_hotspot) existing_names
               then hotspots
               else hotspots ++ [default_hotspot])
            default_hotspots hotspots)
  end.

(** ** Summary and keywords

    The two functions below call collaborators that are not part of the
    repository; they are the variables of this Section.
    - [tfidf_sentences sentences] is
      [TfidfVectorizer(stop_words='english', max_features=100).fit_transform(sentences)]
      read through [float(np.sum(tfidf_matrix[i].toarray()))]: the sum of
      row [i], a finite float given by its value (the rows of a TF-IDF
      matrix are normalised vectors of non-negative weights), or the
      exception the vectorizer raises.
    - [tfidf_document all_text] is the vectorizer of
      [extract_trending_keywords] fitted on the one document [all_text]:
      the feature names with their scores, in feature order, or the
      exception raised.
    - [client] is the chat client, [None] when no API key is configured;
      it maps the user prompt to [response.choices[0].message.content] or
      to the exception raised. *)

Module Keyword.
Record t : Type := {
  text : str;
  weight : Q;
  frequency : Z
}.
End Keyword.

Definition en_dash : char := 8211%N.

Definition important_keywords : list str :=
  List.map py ["pakistan"; "india"; "kashmir"; "conflict"; "ceasefire";
               "military"; "government"; "border"; "attack"; "peace";
               "tension"; "diplomatic"; "china"; "afghanistan"; "taliban";
               "nuclear"; "missile"; "drone"]%string.

(** [len(l)] as an int *)
Definition len {A} (l : list A) : Z := Z.of_nat (List.length l).

(** [keyword_count / len(important_keywords)] is a division of two ints;
    the divisor is 18 and the quotient at most 1, so that it neither raises
    [ZeroDivisionError] nor [OverflowError]. *)
Definition score_sentences_keywords (sentences : list str) : list Q :=
  List.map
    (fun sentence =>
       let sentence_lower := Str.lower sentence in
       let keyword_count :=
         len (List.filter (fun keyword => Str.contains keyword sentence_lower)
                          important_keywords) in
       Float.div_int keyword_count (len important_keywords))
    sentences.

Definition Qltb (a b : Q) : bool := negb (Qle_bool b a).

(** [total * 0.3] is the product of the floats [float(total)] and [0.3];
    the comparison of the int [i] with it is exact. *)
Definition score_sentences_position (sentences : list str) : list Q :=
  let total := len sentences in
  List.map
    (fun i : nat =>
       let i := Z.of_nat i in
       if ((i =? 0) || (i =? total - 1))%Z%bool then 1.0%Q
       else if Qltb (inject_Z i)
                    (Float.mul (Float.of_int total) (Float.round 0.3%Q))
       then Float.round 0.8%Q
       else if Qltb (Float.mul (Float.of_int total) (Float.round 0.7%Q))
                    (inject_Z i)
       then Float.round 0.8%Q
       else 0.5%Q)
    (seq 0 (List.length sentences)).

Definition score_sentences_length (sentences : list str) : list Q :=
  List.map
    (fun sentence =>
       let length := len (Str.split_ws sentence) in
       if ((10 <=? length) && (length <=? 25))%Z%bool then 1.0%Q
       else if ((8 <=? length) && (length <=? 30))%Z%bool then Float.round 0.8%Q
       else if ((5 <=? length) && (length <=? 35))%Z%bool then Float.round 0.6%Q
       else Float.round 0.3%Q)
    sentences.

(** [a < b] on the tuples [(combined_score, sentence)] *)
Definition scored_ltb (a b : Q * str) : bool :=
  match Qcompare (fst a) (fst b) with
  | Lt => true
  | Gt => false
  | Eq => match str_compare (snd a) (snd b) with Lt => true | _ => false end
  end.

(** [heapq.nlargest(n, l)], that is [sorted(l, reverse=True)[:n]] *)
Definition nlargest (n : Z) (l : list (Q * str)) : list (Q * str) :=
  firstn (Z.to_nat n) (sort_desc scored_ltb l).

Definition generate_context_intro (titles : list str) : str :=
  let all_title_text := Str.lower (Str.join (py " ") titles) in
  let has w := Str.contains (py w) all_title_text in
  if (has "ceasefire" || has "peace")%string%bool then
    py "The India-Pakistan conflict shows signs of potential diplomatic breakthrough as peace initiatives gain momentum."
  else if (has "attack" || has "missile" || has "drone")%string%bool then
    py "Military tensions have escalated in the India-Pakistan conflict, with both nations engaging in strategic operations."
  else if (has "china" && (has "afghanistan" || has "taliban"))%string%bool then
    py "Regional dynamics involving China and Afghanistan are reshaping India-Pakistan relations in South Asia."
  else if has "taliban"%string then
    py "The Taliban's growing influence is creating new diplomatic complexities in India-Pakistan relations."
  else if has "china"%string then
    py "China's involvement continues to influence the strategic balance between India and Pakistan."
  else
    py "The India-Pakistan conflict continues to evolve with significant regional and international implications.".

Definition prefixes_to_remove : list str :=
  [ py "Islamabad, Pakistan " ++ [en_dash]; py "Islamabad, Pakistan -";
    py "New Delhi, India " ++ [en_dash]; py "New Delhi, India -" ].

(** [s.endswith(('.', '!', '?'))] *)
Definition ends_properly (s : str) : bool :=
  (Str.endswith s (py ".") || Str.endswith s (py "!") || Str.endswith s (py "?"))%bool.

Definition clean_sentence_for_summary (sentence : str) : str :=
  let sentence := Str.strip sentence in
  if (len sentence <? 20)%Z then []
  else
    let sentence :=
      fold_left
        (fun sentence prefix =>
           if Str.startswith sentence prefix
           then Str.strip (skipn (List.length prefix) sentence)
           else sentence)
        prefixes_to_remove sentence in
    let sentence :=
      Str.replace sentence (py " " ++ [en_dash] ++ py " ") (py " - ") in
    let sentence := Str.replace sentence (py "  ") (py " ") in
    let sentence := if ends_properly sentence then sentence else sentence ++ py "." in
    match sentence with
    | [] => []
    | c :: rest => upper_char c :: rest
    end.

(** [scores.get(i, 0)] *)
Definition score_get (scores : list Q) (i : nat) : Q := nth i scores 0%Q.

(** [tfidf * 0.4 + keyword * 0.3 + position * 0.2 + length * 0.1], every
    product and every sum rounded, from left to right. *)
Definition weighted_sum (tfidf keyword position length : Q) : Q :=
  Float.add
    (Float.add
       (Float.add (Float.mul tfidf (Float.round 0.4%Q))
                  (Float.mul keyword (Float.round 0.3%Q)))
       (Float.mul position (Float.round 0.2%Q)))
    (Float.mul length (Float.round 0.1%Q)).

Section Collaborators.
Variable tfidf_sentences : list str -> result (nat -> Q).
Variable tfidf_document : str -> result (list (str * Q)).
Variable client : option (str -> result (option str)).

(** The bare [except:] gives every sentence the score 1.0. *)
Definition score_sentences_tfidf (sentences : list str) : list Q :=
  match
    (if (len sentences <? 2)%Z
     then Ok (match sentences with [] => [] | _ :: _ => [1.0%Q] end)
     else
       row_sum <- tfidf_sentences sentences ;;
       Ok (List.map row_sum (seq 0 (List.length sentences))))
  with
  | Ok sentence_scores => sentence_scores
  | Raise _ => List.map (fun _ => 1.0%Q) sentences
  end.

(** The list [combined_scores]: the weighted sum of the four scores with
    each sentence. *)
Definition combine_scores (sentences : list str) : list (Q * str) :=
  let tfidf_scores := score_sentences_tfidf sentences in
  let keyword_scores := score_sentences_keywords sentences in
  let position_scores := score_sentences_position sentences in
  let length_scores := score_sentences_length sentences in
  List.map
    (fun '(i, sentence) =>
       (weighted_sum (score_get tfidf_scores i) (score_get keyword_scores i)
                     (score_get position_scores i) (score_get length_scores i),
        sentence))
    (combine (seq 0 (List.length sentences)) sentences).

(** The sentences of [full_text] that are candidates: split on
    [[.!?]+], stripped, longer than 20 characters. *)
Definition tokenize_sentences (full_text : str) : list str :=
  let sentences := Re.split Patterns.sentence_end full_text in
  List.map Str.strip
    (List.filter (fun s => (20 <? len (Str.strip s))%Z) sentences).

Definition extract_key_sentences_multimethod
           (full_text : str) (text_sources : list str) (target_count : Z)
  : list str :=
  let sentences := tokenize_sentences full_text in
  if (len sentences <? 3)%Z then sentences
  else
    let combined_scores := combine_scores sentences in
    let top_sentences := nlargest target_count combined_scores in
    List.map snd top_sentences.

(** The loop of [generate_free_summary] over the articles: the titles and
    the non-empty cleaned texts. *)
Definition collect_text (acc : list str * list str) (article : record)
  : result (list str * list str) :=
  let '(all_text, titles) := acc in
  article_title <- getitem "title" (title article) ;;
  article_text <- getitem "text" (text article) ;;
  let text := Str.strip (Str.replace article_text [10%N] (py " ")) in
  Ok (match text with
      | [] => all_text
      | _ :: _ => all_text ++ [text]
      end, titles ++ [article_title]).

Definition generate_free_summary (articles : list record) (target_sentences : Z)
  : result str :=
  match articles with
  | [] => Ok (py "No articles available for analysis.")
  | _ :: _ =>
      collected <- for_each collect_text articles ([], []) ;;
      let '(all_text, titles) := collected in
      match all_text with
      | [] => Ok (py "No readable content found in articles.")
      | _ :: _ =>
          let full_text := Str.join (py " ") all_text in
          let key_sentences :=
            extract_key_sentences_multimethod full_text (all_text ++ titles)
                                              target_sentences in
          let context_intro := generate_context_intro titles in
          match key_sentences with
          | [] =>
              Ok (context_intro ++
                  py " Recent developments are still emerging, with ongoing diplomatic and security concerns in the region.")
          | _ :: _ =>
              let cleaned_sentences :=
                List.filter
                  (fun clean_sent =>
                     (negb (str_eqb clean_sent []) && (30 <? len clean_sent)%Z)%bool)
                  (List.map clean_sentence_for_summary
                            (Str.slice_to key_sentences 4)) in
              match cleaned_sentences with
              | first :: second :: others =>
                  let summary_parts :=
                    [ context_intro;
                      py "Recent developments indicate that " ++ Str.lower first;
                      py "Additionally, " ++ Str.lower second ] in
                  let summary_parts :=
                    match others with
                    | third :: _ => summary_parts ++ [py "Meanwhile, " ++ Str.lower third]
                    | [] => summary_parts
                    end in
                  let summary_parts :=
                    match others with
                    | _ :: fourth :: _ =>
                        summary_parts ++
                        [py "The ongoing situation has resulted in" ++ py " "
                            ++ Str.lower fourth]
                    | _ => summary_parts
                    end in
                  Ok (Str.join (py " ") summary_parts)
              | _ =>
                  Ok (context_intro ++ py " " ++ Str.join (py " ") cleaned_sentences)
              end
          end
      end
  end.

(** ["\n\n".join([f"Title: {a['title']}\n{a['text']}" for a in articles])] *)
Definition prompt_text (articles : list record) : result str :=
  parts <- for_each
             (fun parts a =>
                a_title <- getitem "title" (title a) ;;
                a_text <- getitem "text" (text a) ;;
                Ok (parts ++ [py "Title: " ++ a_title ++ [10%N] ++ a_text]))
             articles [] ;;
  Ok (Str.join [10%N; 10%N] parts).

Definition prompt_of (combined_text : str) : str :=
  let indent := py "        " in
  Str.join [10%N]
    [ py "Please provide a comprehensive 350-word summary of the current Pakistan-India conflict based on the following recent news articles. Focus on:";
      indent ++ py "1. Recent developments and key events";
      indent ++ py "2. Impact on civilians and military situation";
      indent ++ py "3. International response and mediation efforts";
      indent ++ py "4. Current state of the conflict";
      indent;
      indent ++ py "Articles:";
      indent ++ combined_text;
      indent ].

Definition generate_openai_summary (articles : list record) : option str :=
  match client with
  | None => None
  | Some create =>
      match (combined_text <- prompt_text articles ;;
             create (prompt_of combined_text)) with
      | Ok content => content
      | Raise _ => None
      end
  end.

Definition generate_summary (articles : list record) : result str :=
  match articles with
  | [] => Ok (py "No recent news articles found about the India-Pakistan conflict.")
  | _ :: _ =>
      _ <- prompt_text articles ;;
      try_except
        (summary <- generate_free_summary articles 6 ;;
         match generate_openai_summary articles with
         | Some openai_summary =>
             if (negb (str_eqb openai_summary [])
                 && negb (Str.contains (py "Error generating summary") openai_summary))%bool
             then Ok openai_summary
             else Ok summary
         | None => Ok summary
         end)
        (fun _ => Ok (py "Error generating summary. Please try again later."))
  end.

(** *** Keywords: [extract_trending_keywords] *)

Definition custom_stop_words : list str :=
  List.map py
    ["said"; "says"; "according"; "report"; "reports"; "news"; "article";
     "also"; "would"; "could"; "should"; "one"; "two"; "three"; "new";
     "first"; "last"; "many"; "several"; "some"; "other"; "more"; "most";
     "year"; "years"; "day"; "days"; "time"; "week"; "weeks"; "month";
     "months"; "today"; "yesterday"; "people"; "government"; "country";
     "countries"; "state"; "states"; "region"; "area"; "world"; "including";
     "following"; "during"; "after"; "before"; "between"; "among"; "across";
     "within"]%string.

(** The dict [important_keywords] of [extract_trending_keywords]. *)
Definition important_keywords_boost : list (str * Q) :=
  List.map (fun p => (py (fst p), snd p))
    [("pakistan", 3.0); ("india", 3.0); ("kashmir", 2.5); ("conflict", 2.0);
     ("ceasefire", 2.5); ("military", 2.0); ("border", 2.0); ("attack", 2.0);
     ("peace", 2.5); ("tension", 2.0); ("diplomatic", 2.0); ("china", 1.8);
     ("afghanistan", 1.8); ("taliban", 1.8); ("nuclear", 2.2);
     ("missile", 2.0); ("drone", 1.8); ("terrorism", 2.0); ("security", 1.8);
     ("violence", 2.0); ("negotiations", 2.5); ("talks", 2.0);
     ("minister", 1.5); ("army", 1.8); ("forces", 1.8); ("loc", 2.0);
     ("balochistan", 1.8); ("punjab", 1.5); ("karachi", 1.5);
     ("islamabad", 1.5); ("delhi", 1.5); ("mumbai", 1.5); ("soldiers", 1.8);
     ("civilians", 2.0); ("casualties", 2.2); ("killed", 2.0);
     ("injured", 1.8); ("blast", 2.0); ("bomb", 2.0); ("shelling", 2.0)]%string%Q.

Definition fallback_keywords : list Keyword.t :=
  let kw text weight frequency :=
    {| Keyword.text := py text; Keyword.weight := inject_Z weight;
       Keyword.frequency := frequency |} in
  [ kw "Pakistan" 100 10; kw "India" 95 9; kw "Kashmir" 80 6;
    kw "Conflict" 70 5; kw "Military" 60 4; kw "Border" 55 4;
    kw "Diplomatic" 50 3; kw "Security" 45 3; kw "Taliban" 42 3;
    kw "China" 40 2; kw "Afghanistan" 38 2; kw "Nuclear" 35 2 ]%string%Z.

(** The text the keywords are drawn from: [" {title} {text}"] per
    article. *)
Definition all_text_of (articles : list record) : result str :=
  for_each
    (fun all_text article =>
       article_title <- getitem "title" (title article) ;;
       article_text <- getitem "text" (text article) ;;
       Ok (all_text ++ (py " " ++ article_title ++ py " " ++ article_text)))
    articles [].

(** [min(x, 100)] *)
Definition min_100 (x : Q) : Q := if Qltb 100%Q x then 100%Q else x.

(** The body of the loop over the features: the entry appended for
    [keyword], if it is kept. *)
Definition keyword_entry (all_text : str) (feature : str * Q) : option Keyword.t :=
  let '(keyword, score) := feature in
  if name_in (Str.lower keyword) custom_stop_words then None
  else if (len keyword <? 3)%Z then None
  else if Str.isdigit keyword then None
  else
    let score :=
      match dict_get important_keywords_boost (Str.lower keyword) with
      | Some boost => (score * boost)%Q
      | None => score
      end in
    let frequency := Str.count (Str.lower all_text) (Str.lower keyword) in
    let combined_score := (score * (1 + inject_Z frequency * 0.1))%Q in
    Some {| Keyword.text := Str.title keyword;
            Keyword.weight := min_100 (combined_score * 100)%Q;
            Keyword.frequency := frequency |}.

Definition weight_ltb (a b : Keyword.t) : bool :=
  Qltb (Keyword.weight a) (Keyword.weight b).

Definition extract_trending_keywords (articles : list record) (max_keywords : Z)
  : result (list Keyword.t) :=
  all_text <- all_text_of articles ;;
  try_except
    (if (len (Str.strip all_text) <? 100)%Z then Ok fallback_keywords
     else
       features <- tfidf_document all_text ;;
       let keyword_scores :=
         flat_map
           (fun feature =>
              match keyword_entry all_text feature with
              | Some entry => [entry]
              | None => []
              end)
           features in
       let keyword_scores := sort_desc weight_ltb keyword_scores in
       let trending_keywords := Str.slice_to keyword_scores max_keywords in
       match trending_keywords with
       | [] => Ok fallback_keywords
       | _ :: _ => Ok trending_keywords
       end)
    (fun _ => Ok fallback_keywords).

End Collaborators.

(** ** Vocabulary of the properties *)

(** The counters of a report are all non-negative. *)
Definition nonneg_counters (st : stats) : Prop :=
  (0 <= total_casualties st /\ 0 <= deaths st /\ 0 <= injuries st
   /\ 0 <= military_incidents st /\ 0 <= diplomatic_meetings st
   /\ 0 <= border_violations st /\ 0 <= key_developments st)%Z.

(** What the loop over the articles maintains. *)
Definition casualties_add_up (st : stats) : Prop :=
  total_casualties st = (deaths st + injuries st)%Z /\ nonneg_counters st.

(** The language of a pattern: the strings it can consume. *)
Fixpoint matches (r : Re.regex) (w : str) : Prop :=
  match r with
  | Re.Eps => w = []
  | Re.Chr c => w = [c]
  | Re.Cls p => exists c, w = [c] /\ p c = true
  | Re.Seq r1 r2 => exists a b, w = a ++ b /\ matches r1 a /\ matches r2 b
  | Re.Alt r1 r2 => matches r1 w \/ matches r2 w
  | Re.Opt r' => w = [] \/ matches r' w
  | Re.PlusC p => w <> [] /\ Forall (fun c => p c = true) w
  | Re.StarC p => Forall (fun c => p c = true) w
  | Re.Group _ r' => matches r' w
  end.

(** Every capturing group of [r] encloses a pattern whose language lies
    in [P]. *)
Fixpoint group_bodies (P : str -> Prop) (r : Re.regex) : Prop :=
  match r with
  | Re.Seq r1 r2 | Re.Alt r1 r2 => group_bodies P r1 /\ group_bodies P r2
  | Re.Opt r' => group_bodies P r'
  | Re.Group _ r' => (forall w, matches r' w -> P w) /\ group_bodies P r'
  | _ => True
  end.

Definition captures_in (P : str -> Prop) (caps : Re.captures) : Prop :=
  Forall (fun entry => P (snd entry)) caps.

Definition all_digits (w : str) : Prop := Forall (fun c => is_digit c = true) w.

(** A record with the keys the pipeline reads. *)
Definition has_shape (r : record) : Prop :=
  exists article_title article_text,
    title r = Some article_title /\ text r = Some article_text.

(** An article with the given title and body and nothing else. *)
Definition plain_article (article_title article_text : string) : Article := {|
  article_title := py article_title;
  article_text := py article_text;
  article_url := [];
  article_image := None;
  article_publish_date := None
|}.

(** A record without the key [title]. *)
Definition untitled_record (body : string) : record := {|
  title := None;
  text := Some (py body);
  url := None;
  image := None;
  publish_date := None
|}.

(** A record with an empty title and the text [body], and the deaths and
    injuries reported for it alone.  (The title is scanned with the text:
    the numbers below are those of articles without a title.) *)
Definition body_only (body : str) : record := {|
  title := Some [];
  text := Some body;
  url := None;
  image := None;
  publish_date := None
|}.

Definition deaths_for (body : str) : result Z :=
  report <- extract_conflict_statistics [body_only body] ;;
  Ok (deaths (counters report)).

Definition injuries_for (body : str) : result Z :=
  report <- extract_conflict_statistics [body_only body] ;;
  Ok (injuries (counters report)).

(** [str(n)] for an int *)
Definition numeral (n : Z) : str := py (NilZero.string_of_int (Z.to_int n)).

Definition result_is (r : result Z) (n : Z) : bool :=
  match r with
  | Ok m => Z.eqb m n
  | Raise _ => false
  end.

(** The digit form and the word form of the family [<N> <keyword>] report
    [n] each. *)
Definition forms_agree (measure : str -> result Z) (word : str) (n : Z)
           (keyword : str) : bool :=
  (result_is (measure (word ++ py " " ++ keyword)) n
   && result_is (measure (numeral n ++ py " " ++ keyword)) n)%bool.

(** The digit form and the word form of the family
    [at least <N> <keyword>] report the same number, [2 * n]: the family
    [<N> <keyword>] matches inside it. *)
Definition at_least_forms_agree (measure : str -> result Z) (word : str) (n : Z)
           (keyword : str) : bool :=
  (result_is (measure (py "at least " ++ word ++ py " " ++ keyword)) (2 * n)
   && result_is (measure (py "at least " ++ numeral n ++ py " " ++ keyword)) (2 * n))%bool.

(** The check, over every number word and keyword, that the word form and
    the digit form agree where the code has both. *)
Definition word_forms_checked : bool :=
  forallb
    (fun entry : str * Z =>
       let '(word, n) := entry in
       (forallb
          (fun keyword =>
             (str_eqb keyword (py "deaths")
              || (forms_agree deaths_for word n keyword
                  && at_least_forms_agree deaths_for word n keyword))%bool)
          death_keywords
        && forallb (fun keyword => forms_agree injuries_for word n keyword)
                   injury_keywords)%bool)
    word_to_num.

(** [x] may stand before [y] in a descending list: [x] is not smaller. *)
Definition not_below {X : Type} (ltb : X -> X -> bool) (x y : X) : Prop :=
  ltb x y = false.

(** No two hotspots of the list have the same name. *)
Definition distinct_names (hotspots : list Hotspot.t) : Prop :=
  NoDup (List.map Hotspot.name hotspots).

(** The keyword weights never increase along the list. *)
Definition descending_by_weight (keywords : list Keyword.t) : Prop :=
  StronglySorted (fun a b => Qle (Keyword.weight b) (Keyword.weight a)) keywords.

(** [a <= b] on the tuples [(combined_score, sentence)]: by score, then by
    sentence text. *)
Definition scored_le (a b : Q * str) : Prop :=
  Qlt (fst a) (fst b)
  \/ (Qeq (fst a) (fst b) /\ str_compare (snd a) (snd b) <> Gt).

(** Collaborators that are out of service: the vectorizer raises, no chat
    client is configured. *)
Definition tfidf_sentences_down : list str -> result (nat -> Q) :=
  fun _ => Raise ExternalError.
Definition tfidf_document_down : str -> result (list (str * Q)) :=
  fun _ => Raise ExternalError.
Definition no_client : option (str -> result (option str)) := None.

(** A vectorizer standing for a fitted model on small examples: row [i]
    sums to the float [i / 10]; four features with fixed scores. *)
Definition tfidf_sentences_sample : list str -> result (nat -> Q) :=
  fun _ => Ok (fun i => Float.div_int (Z.of_nat i) 10).
Definition tfidf_document_sample : str -> result (list (str * Q)) :=
  fun _ => Ok [ (py "talks", 0.2%Q); (py "said", 0.5%Q); (py "pakistan", 0.1%Q);
                (py "india", 0.3%Q) ].

(** ** Impact sentences: [extract_impact_analysis] *)

Definition impact_keywords : list str :=
  List.map py ["civilian"; "casualties"; "killed"; "injured"; "economic";
               "trade"; "border crossing"]%string.

(** [any(keyword in sentence.lower() for keyword in impact_keywords) and
    len(sentence) > 30] *)
Definition is_impact_sentence (sentence : str) : bool :=
  (existsb (fun keyword => Str.contains keyword (Str.lower sentence))
           impact_keywords
   && (30 <? len sentence)%Z)%bool.

(** The loop over the sentences of one text; it is left as soon as three
    sentences have been collected. *)
Fixpoint collect_impact (sentences : list str) (impact_sentences : list str)
  : list str :=
  match sentences with
  | [] => impact_sentences
  | sentence :: rest =>
      let sentence := Str.strip sentence in
      if is_impact_sentence sentence then
        let impact_sentences := impact_sentences ++ [sentence] in
        if (3 <=? len impact_sentences)%Z then impact_sentences
        else collect_impact rest impact_sentences
      else collect_impact rest impact_sentences
  end.

Definition extract_impact_analysis (text_sources : list str) : list str :=
  let impact_sentences :=
    fold_left
      (fun impact_sentences text =>
         collect_impact (Re.split Patterns.sentence_end text) impact_sentences)
      text_sources [] in
  Str.slice_to impact_sentences 2.

(** ** The route [/api/news]: [get_news]

    [fetch_news_articles] and [fetch_youtube_videos] reach the network; they
    are variables, with the videos of an opaque type.  The response is the
    status code with the data handed to [jsonify]. *)

Module Response.
Record data (video : Type) : Type := {
  summary : str;
  articles : list record;
  images : list str;
  youtube_videos : list video;
  statistics : StatisticsReport;
  trending_keywords : list Keyword.t;
  geographic_hotspots : list Hotspot.t
}.

Inductive body (video : Type) : Type :=
| Data (d : data video)
| NoArticles
| Error (e : exn).

Arguments NoArticles {video}.
Arguments Error {video} e.
End Response.

(** [article.get('image')] is truthy *)
Definition has_image (article : record) : bool :=
  match image article with
  | Some (_ :: _) => true
  | _ => false
  end.

(** [[article['image'] for article in articles if article.get('image')]] *)
Definition images_of (articles : list record) : list str :=
  List.map (fun article => get (image article) [])
           (List.filter has_image articles).

Section Route.
Variable video : Type.
Variable fetch_news_articles : result (list record).
Variable fetch_youtube_videos : result (list video).
Variable tfidf_sentences : list str -> result (nat -> Q).
Variable tfidf_document : str -> result (list (str * Q)).
Variable client : option (str -> result (option str)).

Definition get_news : Z * Response.body video :=
  match
    (articles <- fetch_news_articles ;;
     match articles with
     | [] => Ok (404%Z, Response.NoArticles)
     | _ :: _ =>
         summary <- generate_summary tfidf_sentences client articles ;;
         youtube_videos <- fetch_youtube_videos ;;
         statistics <- extract_conflict_statistics articles ;;
         trending_keywords <- extract_trending_keywords tfidf_document articles 20 ;;
         geographic_hotspots <- extract_geographic_hotspots articles ;;
         Ok (200%Z,
             Response.Data
               {| Response.summary := summary;
                  Response.articles := Str.slice_to articles 5;
                  Response.images := Str.slice_to (images_of articles) 5;
                  Response.youtube_videos := youtube_videos;
                  Response.statistics := statistics;
                  Response.trending_keywords := trending_keywords;
                  Response.geographic_hotspots := geographic_hotspots |})
     end)
  with
  | Ok response => response
  | Raise e => (500%Z, Response.Error e)
  end.
End Route.

(** ** Vocabulary of the further properties *)

(** The counters of [s] increased by those of [d], the figures of [d] after
    those of [s]. *)
Definition stats_add (s d : stats) : stats := {|
  total_casualties := total_casualties s + total_casualties d;
  deaths := deaths s + deaths d;
  injuries := injuries s + injuries d;
  military_incidents := military_incidents s + military_incidents d;
  diplomatic_meetings := diplomatic_meetings s + diplomatic_meetings d;
  border_violations := border_violations s + border_violations d;
  economic_impact := economic_impact s ++ economic_impact d;
  key_developments := key_developments s + key_developments d;
  recent_period := recent_period s
|}%Z.

(** What one article or a run of articles adds: at most one to each
    category per article, one development per article. *)
Definition bounded_delta (n : Z) (d : stats) : Prop :=
  (key_developments d = n
   /\ 0 <= military_incidents d <= n
   /\ 0 <= diplomatic_meetings d <= n
   /\ 0 <= border_violations d <= n)%Z.

(** Two records read the same once lowered, a missing field being empty. *)
Definition same_words (a b : record) : Prop :=
  Str.lower (get (title a) []) = Str.lower (get (title b) [])
  /\ Str.lower (get (text a) []) = Str.lower (get (text b) []).

(** A match of the group of the money pattern: digits, then possibly a dot
    and digits. *)
Definition decimal_number (w : str) : Prop :=
  exists ip fp,
    ip <> [] /\ all_digits ip /\ all_digits fp
    /\ (w = ip \/ (fp <> [] /\ w = ip ++ 46%N :: fp)).

(** What [findall] reports for the money pattern. *)
Definition economic_capture (w : str) : Prop := w = [] \/ decimal_number w.

(** The text of an article as [extract_geographic_hotspots] reads it. *)
Definition article_text_of (a : Article) : str :=
  Str.lower (article_title a ++ py " " ++ article_text a).

(** The texts of the articles that mention [key], in order. *)
Definition mentioning (key : str) (articles : list Article) : list str :=
  List.filter (Str.contains key) (List.map article_text_of articles).

(** The sum and the largest of the incident counts of some texts. *)
Definition total_incidents (texts : list str) : Z :=
  fold_left (fun n text => (n + incident_count_of text)%Z) texts 0%Z.

Definition peak_incidents (texts : list str) : Z :=
  fold_left (fun n text => Z.max n (incident_count_of text)) texts 0%Z.

(** A hotspot of the location [data] with the given peak and total. *)
Definition hotspot_of (data : Location.t) (peak total : Z) : Hotspot.t := {|
  Hotspot.name := Location.name data;
  Hotspot.lat := Location.lat data;
  Hotspot.lng := Location.lng data;
  Hotspot.type := Location.type data;
  Hotspot.intensity := intensity_of peak;
  Hotspot.incidents := total;
  Hotspot.description := py "Recent activity detected in " ++ Location.name data
|}.

(** The hotspot expected for a location that the texts [texts] mention. *)
Definition detected_hotspot (data : Location.t) (texts : list str) : Hotspot.t :=
  hotspot_of data (peak_incidents texts) (total_incidents texts).

(** The first hotspot of the list with the name [name]. *)
Fixpoint find_hotspot (name : str) (hotspots : list Hotspot.t)
  : option Hotspot.t :=
  match hotspots with
  | [] => None
  | h :: rest =>
      if str_eqb (Hotspot.name h) name then Some h else find_hotspot name rest
  end.

(** What one article does to the hotspot of one location. *)
Definition location_step (key : str) (data : Location.t) (text : str)
           (state : option Hotspot.t) : option Hotspot.t :=
  if Str.contains key text then
    Some match state with
         | Some h =>
             update_hotspot (intensity_of (incident_count_of text))
                            (incident_count_of text) h
         | None =>
             hotspot_of data (incident_count_of text) (incident_count_of text)
         end
  else state.

(** A hotspot carries the coordinates and the type of a gazetteer entry of
    its name, one of the three intensities, and a count that is not
    negative. *)
Definition well_placed (h : Hotspot.t) : Prop :=
  (exists key data,
     In (key, data) known_locations
     /\ Hotspot.name h = Location.name data
     /\ Hotspot.lat h = Location.lat data
     /\ Hotspot.lng h = Location.lng data
     /\ Hotspot.type h = Location.type data)
  /\ In (Hotspot.intensity h) [py "low"; py "medium"; py "high"]
  /\ (0 <= Hotspot.incidents h)%Z.

(** A feature the keyword loop keeps: not a custom stop word, three
    characters or more, not a number. *)
Definition kept_feature (keyword : str) : Prop :=
  name_in (Str.lower keyword) custom_stop_words = false
  /\ (3 <= len keyword)%Z
  /\ Str.isdigit keyword = false.

(** The entry [k] stands for the feature [keyword] of the text
    [all_text]. *)
Definition entry_of_feature (all_text keyword : str) (k : Keyword.t) : Prop :=
  kept_feature keyword
  /\ Keyword.text k = Str.title keyword
  /\ Keyword.frequency k = Str.count (Str.lower all_text) (Str.lower keyword).

(** The vectorizer gives no negative score. *)
Definition scores_not_negative (tfidf_document : str -> result (list (str * Q)))
  : Prop :=
  forall all_text features,
    tfidf_document all_text = Ok features ->
    Forall (fun feature => Qle 0 (snd feature)) features.

(** One of the characters [.], [!] and [?]. *)
Definition is_terminal (c : char) : bool :=
  (N.eqb c 46 || N.eqb c 33 || N.eqb c 63)%bool.

(** The counters for which the average of [report_of] is out of the range
    of the floats. *)
Definition average_overflows (st : stats) : bool :=
  (Float.max_bound * Z.max (military_incidents st) 1 <=? total_casualties st)%Z.

(** A number between 0 and 1. *)
Definition unit_score (x : Q) : Prop := Qle 0 x /\ Qle x 1.

(** The quotient [n / 18], for each possible number [n] of keywords found,
    is a float between 0 and 1. *)
Definition keyword_scores_checked : bool :=
  forallb (fun n => let score := Float.div_int (Z.of_nat n) 18 in
                    (Qle_bool 0 score && Qle_bool score 1)%bool)
          (seq 0 19).

(** The sentences of the texts, stripped, in reading order. *)
Definition stripped_sentences (text_sources : list str) : list str :=
  List.map Str.strip
    (flat_map (Re.split Patterns.sentence_end) text_sources).

(** An article with a picture. *)
Definition illustrated_article (article_title article_text article_image : string)
  : Article := {|
  article_title := py article_title;
  article_text := py article_text;
  article_url := [];
  article_image := Some (py article_image);
  article_publish_date := None
|}.

(** The status code of a response. *)
Definition status_of {video : Type} (response : Z * Response.body video) : Z :=
  fst response.

(** ** Checks of the floating-point arithmetic

    The Standard Library specifies IEEE 754 arithmetic on [spec_float];
    [SFdiv 53 1024] is the division of binary64.  [Float.div_int] is
    compared with it on sample quotients. *)

Definition spec_float_of_int (z : Z) : spec_float :=
  match z with
  | Z0 => S754_zero false
  | Zpos p => S754_finite false p 0
  | Zneg p => S754_finite true p 0
  end.

Definition value_of_spec_float (f : spec_float) : option Q :=
  match f with
  | S754_zero _ => Some 0%Q
  | S754_finite negative m e =>
      let v := if (0 <=? e)%Z then inject_Z (Zpos m * 2 ^ e)
               else Qmake (Zpos m) (Z.to_pos (2 ^ (- e))) in
      Some (if negative then Qopp v else v)
  | _ => None
  end.

Definition division_agrees (sample : Z * Z) : bool :=
  let '(a, b) := sample in
  match value_of_spec_float
          (SFdiv 53 1024 (spec_float_of_int a) (spec_float_of_int b)) with
  | Some v => Qeq_bool (Float.div_int a b) v
  | None => false
  end.

(** The quotients [a / b] for [a] up to 40 and [b] from 1 to 40, and
    quotients at the ends of the range. *)
Definition division_samples : list (Z * Z) :=
  flat_map (fun a => List.map (fun b => (Z.of_nat a, Z.of_nat (S b))) (seq 0 40))
           (seq 0 41)
  ++ [ (10 ^ 308, 1); (2 ^ 1024 - 2 ^ 970 - 1, 1); (2 ^ 53 + 1, 1);
       (2 ^ 54 + 2, 1); (-7, 3); (12345678901234567890123, 10 ^ 40);
       (1, 2 ^ 1022); (1, 2 ^ 1074); (3, 2 ^ 1075); (1, 2 ^ 1075);
       (2 ^ 53 - 1, 2 ^ 1075 + 1) ]%Z.

(** A text of four sentences without keywords, for the ranking: in exact
    arithmetic the first two sentences have the same weighted sum. *)
Definition convoy_text : str :=
  py "she was not there at all today. we were all there when the long convoy came back into the old town. nobody could say what had happened to the others in the group. unquestionably extraordinary circumstances.".

(** * Properties *)

Unset Implicit Arguments.

(** ** The embedding on small inputs *)

Example findall_digit_family :
  Re.findall1 Patterns.death_pattern1 (py "6 killed and 10 people dead")
    = [py "6"; py "10"].
Proof. reflexivity. Qed.

Example findall_word_family :
  Re.findall1 Patterns.death_pattern5 (py "fourteen children killed, someone died")
    = [py "fourteen"; py "one"].
Proof. reflexivity. Qed.

Example findall_toll_family :
  Re.findall_groups 2 Patterns.death_pattern3 (py "death toll of 12 and 7 deaths")
    = [[py "12"; []]; [[]; py "7"]].
Proof. reflexivity. Qed.

Example split_sentences :
  Re.split Patterns.sentence_end (py "One. Two?! Three")
    = [py "One"; py " Two"; py " Three"].
Proof. reflexivity. Qed.

Example economic_figures :
  exists report,
    extract_conflict_statistics
      [record_of (plain_article "Trade" "Losses of 3.5 billion and 12 million")]
      = Ok report
    /\ economic_impact (counters report) = [3.5%Q; 12%Q].
Proof. eexists. split; reflexivity. Qed.

Example kashmir_with_two_conflict_keywords :
  exists hotspots,
    extract_geographic_hotspots
      [record_of (plain_article "Kashmir" "An attack killed two")] = Ok hotspots
    /\ List.map (fun h => (Hotspot.name h, Hotspot.intensity h, Hotspot.incidents h))
                hotspots
       = [ (py "Kashmir", py "medium", 2%Z);
           (py "Line of Control", py "medium", 2%Z);
           (py "Balochistan", py "low", 1%Z) ].
Proof. eexists. split; reflexivity. Qed.

Example keywords_of_a_sample_model :
  exists keywords,
    extract_trending_keywords tfidf_document_sample
      [record_of (plain_article "India and Pakistan resume talks"
         "Officials of India and Pakistan said the talks on the ceasefire would resume next week in Delhi.")]
      2 = Ok keywords
    /\ List.map (fun k => (Keyword.text k, Keyword.frequency k)) keywords
       = [(py "India", 2%Z); (py "Talks", 2%Z)]
    /\ Forall2 Qeq (List.map Keyword.weight keywords) [100%Q; 48%Q].
Proof.
  eexists. split; [vm_compute; reflexivity|].
  split; [reflexivity|]. repeat constructor.
Qed.

Example title_of_a_bigram :
  Str.title (py "line of control") = py "Line Of Control".
Proof. reflexivity. Qed.

Example slice_with_negative_bound :
  Str.slice_to [1; 2; 3]%Z (-1) = [1; 2]%Z.
Proof. reflexivity. Qed.

(** The arithmetic of floats: the division agrees with the IEEE 754
    division of the Standard Library on the samples, [0.1] is the float
    nearest to one tenth, and the division of two ints overflows from
    [2^1024 - 2^970] on. *)
Example float_division_matches_ieee754 :
  forallb division_agrees division_samples = true.
Proof. vm_compute. reflexivity. Qed.

Example float_one_tenth :
  Float.round 0.1 = Qmake 3602879701896397 36028797018963968
  /\ Float.round1 (Float.div_int 1 20) = Float.round 0.1.
Proof. split; vm_compute; reflexivity. Qed.

Example true_divide_at_the_end_of_the_range :
  true_divide (2 ^ 1024 - 2 ^ 970) 1 = Raise OverflowError
  /\ true_divide (2 ^ 1024 - 2 ^ 970 - 1) 1
     = Ok (inject_Z (2 ^ 1024 - 2 ^ 971))
  /\ true_divide 1 0 = Raise ZeroDivisionError.
Proof. repeat split; vm_compute; reflexivity. Qed.

(** A count of 309 digits is read, and its average is out of the range of
    the floats. *)
Example average_of_a_huge_count_overflows :
  extract_conflict_statistics [body_only (repeat 57%N 309 ++ py " killed")]
    = Raise OverflowError.
Proof. vm_compute. reflexivity. Qed.

(** One casualty over twenty incidents: the float [1 / 20] is above one
    twentieth, and is rounded to [0.1]. *)
Example average_is_rounded_as_a_float :
  exists report,
    extract_conflict_statistics
      (body_only (py "1 killed in attack")
         :: repeat (body_only (py "attack")) 19) = Ok report
    /\ total_casualties (counters report) = 1%Z
    /\ military_incidents (counters report) = 20%Z
    /\ avg_casualties_per_incident report = Float.round 0.1.
Proof. eexists. split; [vm_compute; reflexivity|]. repeat split. Qed.

(** The weighted sums of the first two sentences of [convoy_text] are equal
    in exact arithmetic and differ as floats, so the first sentence is
    selected although the text of the second is the larger one. *)
Example float_sums_break_an_exact_tie :
  Qeq (1 * 0.4 + 0 * 0.3 + 1 * 0.2 + 0.6 * 0.1)
      (1 * 0.4 + 0 * 0.3 + 0.8 * 0.2 + 1 * 0.1)
  /\ Qlt (weighted_sum 1 0 (Float.round 0.8) 1)
         (weighted_sum 1 0 1 (Float.round 0.6))
  /\ extract_key_sentences_multimethod tfidf_sentences_down convoy_text [] 1
     = [py "she was not there at all today"].
Proof. repeat split; vm_compute; reflexivity. Qed.

(** ** Strings and numbers *)

Lemma str_eqb_eq : forall a b : str, str_eqb a b = true <-> a = b.
Proof.
  induction a as [|x a IH]; destruct b as [|y b]; simpl; split; intro H;
    try reflexivity; try discriminate.
  - apply andb_true_iff in H. destruct H as [Hx Ha].
    apply N.eqb_eq in Hx. apply IH in Ha. congruence.
  - injection H as Hx Ha. apply andb_true_iff. split.
    + now apply N.eqb_eq.
    + now apply IH.
Qed.

Lemma str_eqb_refl : forall a : str, str_eqb a a = true.
Proof. intro a. now apply str_eqb_eq. Qed.

Lemma str_eqb_neq : forall a b : str, str_eqb a b = false <-> a <> b.
Proof.
  intros a b. split.
  - intros H Heq. apply str_eqb_eq in Heq. congruence.
  - intro H. destruct (str_eqb a b) eqn:E; [|reflexivity].
    apply str_eqb_eq in E. contradiction.
Qed.

Lemma lstrip_length : forall s, (List.length (Str.lstrip s) <= List.length s)%nat.
Proof.
  induction s as [|c s IH]; simpl; [lia|].
  destruct (is_space c); simpl; lia.
Qed.

Lemma strip_length : forall s, (List.length (Str.strip s) <= List.length s)%nat.
Proof.
  intro s. unfold Str.strip, Str.rstrip.
  rewrite length_rev.
  etransitivity; [apply lstrip_length|].
  rewrite length_rev. apply lstrip_length.
Qed.

Lemma digit_cases : forall c : N, is_digit c = true ->
  (c = 48 \/ c = 49 \/ c = 50 \/ c = 51 \/ c = 52 \/ c = 53 \/ c = 54
   \/ c = 55 \/ c = 56 \/ c = 57)%N.
Proof.
  intros c H. unfold is_digit, in_range in H.
  apply andb_true_iff in H. destruct H as [Hlo Hhi].
  apply N.leb_le in Hlo. apply N.leb_le in Hhi. lia.
Qed.

Lemma digit_not_space : forall c, is_digit c = true -> is_space c = false.
Proof.
  intros c H. apply digit_cases in H.
  repeat (destruct H as [H|H]; [subst c; reflexivity|]).
  subst c; reflexivity.
Qed.

Lemma digit_not_sign : forall c, is_digit c = true ->
  N.eqb c 43 = false /\ N.eqb c 45 = false.
Proof.
  intros c H. apply digit_cases in H.
  repeat (destruct H as [H|H]; [subst c; split; reflexivity|]).
  subst c; split; reflexivity.
Qed.

Lemma all_digits_lstrip : forall w, all_digits w -> Str.lstrip w = w.
Proof.
  intros [|c w] H; [reflexivity|].
  simpl. inversion H as [|? ? Hc Hw]; subst.
  now rewrite (digit_not_space _ Hc).
Qed.

Lemma all_digits_strip : forall w, all_digits w -> Str.strip w = w.
Proof.
  intros w H. unfold Str.strip, Str.rstrip.
  rewrite (all_digits_lstrip _ H).
  rewrite all_digits_lstrip.
  - apply rev_involutive.
  - now apply Forall_rev.
Qed.

Lemma digit_value_nonneg : forall c, (0 <= digit_value c)%Z.
Proof. intro c. unfold digit_value. lia. Qed.

Lemma int_body_nonneg : forall s acc previous v,
  (0 <= acc)%Z -> int_body s acc previous = Some v -> (0 <= v)%Z.
Proof.
  induction s as [|c s IH]; cbn [int_body]; intros acc previous v Hacc H.
  - destruct previous; [|discriminate]. now injection H as <-.
  - destruct (is_digit c).
    + eapply IH; [|exact H]. pose proof (digit_value_nonneg c). lia.
    + destruct (N.eqb c 95 && previous)%bool; [|discriminate].
      eapply IH; eassumption.
Qed.

(** [int] of a run of digits, when it is a number at all, is not
    negative. *)
Lemma int_all_digits : forall w z, all_digits w -> int w = Ok z -> (0 <= z)%Z.
Proof.
  intros w z Hw H. unfold int in H. rewrite (all_digits_strip _ Hw) in H.
  destruct w as [|c w].
  - simpl in H. discriminate.
  - inversion Hw as [|? ? Hc _]; subst.
    destruct (digit_not_sign _ Hc) as [Hplus Hminus].
    unfold split_sign in H. rewrite Hplus, Hminus in H.
    destruct (int_body (c :: w) 0 false) as [v|] eqn:E; [|discriminate].
    match type of H with
    | (if ?b then _ else _) = _ => destruct b; [discriminate|]
    end.
    injection H as <-. eapply int_body_nonneg; [|exact E]. lia.
Qed.

(** ** Soundness of the matcher with respect to the language of a pattern *)

Section MatcherSound.
Variable A : Type.

Lemma star_sound : forall p s (k : str -> option A) x,
  Re.star p s k = Some x ->
  exists w s', s = w ++ s' /\ Forall (fun c => p c = true) w /\ k s' = Some x.
Proof.
  intros p. induction s as [|c s IH]; simpl; intros k x H.
  - exists [], []. repeat split; [constructor|exact H].
  - destruct (p c) eqn:Hc.
    + destruct (Re.star p s k) as [y|] eqn:E.
      * injection H as <-.
        destruct (IH _ _ E) as (w & s' & -> & Hw & Hk).
        exists (c :: w), s'. repeat split; [now constructor|exact Hk].
      * exists [], (c :: s). repeat split; [constructor|exact H].
    + exists [], (c :: s). repeat split; [constructor|exact H].
Qed.

Lemma plus_sound : forall p s (k : str -> option A) x,
  Re.plus p s k = Some x ->
  exists w s', s = w ++ s' /\ w <> [] /\ Forall (fun c => p c = true) w
               /\ k s' = Some x.
Proof.
  intros p [|c s] k x H; simpl in H; [discriminate|].
  destruct (p c) eqn:Hc; [|discriminate].
  destruct (star_sound _ _ _ _ H) as (w & s' & -> & Hw & Hk).
  exists (c :: w), s'. repeat split; [discriminate|now constructor|exact Hk].
Qed.

Variable P : str -> Prop.

Lemma firstn_consumed : forall w s' : str,
  firstn (List.length (w ++ s') - List.length s') (w ++ s') = w.
Proof.
  intros w s'. rewrite length_app.
  replace (List.length w + List.length s' - List.length s')%nat
    with (List.length w + 0)%nat by lia.
  rewrite firstn_app_2. simpl. apply app_nil_r.
Qed.

Lemma rmatch_sound : forall r s caps (k : str -> Re.captures -> option A) x,
  group_bodies P r -> captures_in P caps ->
  Re.rmatch r s caps k = Some x ->
  exists w s' caps',
    s = w ++ s' /\ matches r w /\ captures_in P caps' /\ k s' caps' = Some x.
Proof.
  induction r as [|c|p|r1 IH1 r2 IH2|r1 IH1 r2 IH2|r IH|p|p|n r IH];
    intros s caps k x Hg Hc H; simpl in H.
  - exists [], s, caps. repeat split; auto.
  - destruct s as [|c' s]; [discriminate|].
    destruct (char_eqb c c') eqn:E; [|discriminate].
    apply N.eqb_eq in E. subst c'.
    exists [c], s, caps. repeat split; auto.
  - destruct s as [|c' s]; [discriminate|].
    destruct (p c') eqn:E; [|discriminate].
    exists [c'], s, caps. repeat split; auto. simpl. eauto.
  - destruct Hg as [Hg1 Hg2].
    destruct (IH1 _ _ _ _ Hg1 Hc H) as (w1 & s1 & caps1 & -> & Hm1 & Hc1 & H1).
    destruct (IH2 _ _ _ _ Hg2 Hc1 H1) as (w2 & s2 & caps2 & -> & Hm2 & Hc2 & H2).
    exists (w1 ++ w2), s2, caps2. repeat split; auto.
    + now rewrite app_assoc.
    + simpl. eauto.
  - destruct Hg as [Hg1 Hg2].
    destruct (Re.rmatch r1 s caps k) as [y|] eqn:E.
    + injection H as <-.
      destruct (IH1 _ _ _ _ Hg1 Hc E) as (w & s' & caps' & -> & Hm & Hc' & Hk).
      exists w, s', caps'. repeat split; auto. simpl. now left.
    + destruct (IH2 _ _ _ _ Hg2 Hc H) as (w & s' & caps' & -> & Hm & Hc' & Hk).
      exists w, s', caps'. repeat split; auto. simpl. now right.
  - simpl in Hg.
    destruct (Re.rmatch r s caps k) as [y|] eqn:E.
    + injection H as <-.
      destruct (IH _ _ _ _ Hg Hc E) as (w & s' & caps' & -> & Hm & Hc' & Hk).
      exists w, s', caps'. repeat split; auto. simpl. now right.
    + exists [], s, caps. repeat split; auto. simpl. now left.
  - destruct (plus_sound _ _ _ _ H) as (w & s' & -> & Hne & Hw & Hk).
    exists w, s', caps. repeat split; auto.
  - destruct (star_sound _ _ _ _ H) as (w & s' & -> & Hw & Hk).
    exists w, s', caps. repeat split; auto.
  - destruct Hg as [Hbody Hg].
    destruct (IH _ _ _ _ Hg Hc H) as (w & s' & caps' & -> & Hm & Hc' & Hk).
    rewrite firstn_consumed in Hk.
    exists w, s', ((n, w) :: caps').
    split; [reflexivity|]. split; [exact Hm|]. split; [|exact Hk].
    constructor; [simpl; now apply Hbody|exact Hc'].
Qed.

End MatcherSound.

Section CapturesIn.
Variable P : str -> Prop.
Hypothesis P_empty : P [].

Lemma match_here_captures : forall r s rest caps,
  group_bodies P r -> Re.match_here r s = Some (rest, caps) ->
  captures_in P caps.
Proof.
  intros r s rest caps Hg H. unfold Re.match_here in H.
  destruct (rmatch_sound _ P r s [] _ _ Hg (Forall_nil _) H)
    as (w & s' & caps' & _ & _ & Hc & Hk).
  now injection Hk as _ <-.
Qed.

Lemma scan_captures : forall r s skip,
  group_bodies P r ->
  Forall (fun m => captures_in P (snd m)) (Re.scan r s skip).
Proof.
  intros r s. induction s as [|c s IH]; intros skip Hg; simpl.
  - destruct skip; [|constructor].
    destruct (Re.match_here r []) as [[rest caps]|] eqn:E; constructor.
    + simpl. eapply match_here_captures; eassumption.
    + constructor.
  - destruct skip; [|now apply IH].
    destruct (Re.match_here r (c :: s)) as [[rest caps]|] eqn:E; [|now apply IH].
    constructor; [|now apply IH].
    simpl. eapply match_here_captures; eassumption.
Qed.

Lemma lookup_captures : forall n caps w,
  captures_in P caps -> Re.lookup n caps = Some w -> P w.
Proof.
  intros n caps w H. induction H as [|[m v] caps Hv _ IH]; simpl; intro E.
  - discriminate.
  - destruct (Nat.eqb n m); [now injection E as <-|now apply IH].
Qed.

Lemma groups_captures : forall n caps,
  captures_in P caps -> Forall P (Re.groups n caps).
Proof.
  intros n caps H. unfold Re.groups. apply Forall_forall.
  intros w Hin. apply in_map_iff in Hin. destruct Hin as (i & <- & _).
  destruct (Re.lookup i caps) as [v|] eqn:E; [|exact P_empty].
  eapply lookup_captures; eassumption.
Qed.

Lemma findall1_captures : forall r s,
  group_bodies P r -> Forall P (Re.findall1 r s).
Proof.
  intros r s Hg. unfold Re.findall1. apply Forall_forall.
  intros w Hin. apply in_map_iff in Hin. destruct Hin as (m & <- & Hm).
  pose proof (scan_captures r s 0 Hg) as Hall.
  rewrite Forall_forall in Hall. specialize (Hall _ Hm).
  pose proof (groups_captures 1 _ Hall) as Hgr.
  destruct (Re.groups 1 (snd m)) as [|v vs]; [exact P_empty|].
  now inversion Hgr.
Qed.

Lemma findall_groups_captures : forall n r s,
  group_bodies P r -> Forall (Forall P) (Re.findall_groups n r s).
Proof.
  intros n r s Hg. unfold Re.findall_groups. apply Forall_forall.
  intros ws Hin. apply in_map_iff in Hin. destruct Hin as (m & <- & Hm).
  pose proof (scan_captures r s 0 Hg) as Hall.
  rewrite Forall_forall in Hall. apply groups_captures. now apply Hall.
Qed.

Lemma group_bodies_lit : forall w, group_bodies P (Re.lit w).
Proof.
  induction w as [|c w IH]; simpl; [exact I|].
  destruct w; simpl; auto.
Qed.

Lemma group_bodies_alts : forall ws, group_bodies P (Re.alts ws).
Proof.
  induction ws as [|w ws IH]; simpl; [exact I|].
  destruct ws; [apply group_bodies_lit|].
  split; [apply group_bodies_lit|exact IH].
Qed.

Lemma group_bodies_seqs : forall rs,
  Forall (group_bodies P) rs -> group_bodies P (Re.seqs rs).
Proof.
  induction 1 as [|r rs Hr Hrs IH]; simpl; [exact I|].
  destruct rs; [exact Hr|]. split; assumption.
Qed.

End CapturesIn.

(** ** Loops that cannot raise *)

Lemma for_each_invariant : forall (X S : Type) (I : S -> Prop) (Q : X -> Prop)
    (body : S -> X -> result S),
  (forall s x, Q x -> I s -> exists s', body s x = Ok s' /\ I s') ->
  forall xs, Forall Q xs ->
  forall s, I s -> exists s', for_each body xs s = Ok s' /\ I s'.
Proof.
  intros X S I Q body Hbody xs Hxs.
  induction Hxs as [|x xs Hx _ IH]; intros s Hs; simpl.
  - now exists s.
  - destruct (Hbody s x Hx Hs) as (s1 & -> & Hs1). simpl. now apply IH.
Qed.

Lemma Forall_trivial : forall (X : Type) (xs : list X), Forall (fun _ => True) xs.
Proof. intros X xs. apply Forall_forall. intros; exact I. Qed.

Lemma records_have_shape : forall articles : list Article,
  Forall has_shape (List.map record_of articles).
Proof.
  intro articles. apply Forall_map. apply Forall_forall.
  intros a _. unfold has_shape. simpl. eauto.
Qed.

(** ** Statistics *)

Lemma all_digits_empty : all_digits [].
Proof. constructor. Qed.

Lemma digits_body : forall w, matches (Re.PlusC is_digit) w -> all_digits w.
Proof. intros w [_ H]. exact H. Qed.

Ltac digit_groups :=
  repeat first
    [ apply group_bodies_seqs
    | apply group_bodies_alts
    | apply group_bodies_lit
    | exact digits_body
    | exact I
    | constructor ].

Lemma death_pattern1_groups : group_bodies all_digits Patterns.death_pattern1.
Proof. unfold Patterns.death_pattern1. digit_groups. Qed.

Lemma death_pattern2_groups : group_bodies all_digits Patterns.death_pattern2.
Proof. unfold Patterns.death_pattern2. digit_groups. Qed.

Lemma death_pattern3_groups : group_bodies all_digits Patterns.death_pattern3.
Proof. unfold Patterns.death_pattern3. split; digit_groups. Qed.

Lemma death_pattern4_groups : group_bodies all_digits Patterns.death_pattern4.
Proof. unfold Patterns.death_pattern4. digit_groups. Qed.

Lemma injury_pattern1_groups : group_bodies all_digits Patterns.injury_pattern1.
Proof. unfold Patterns.injury_pattern1. digit_groups. Qed.

Lemma injury_pattern2_groups : group_bodies all_digits Patterns.injury_pattern2.
Proof. unfold Patterns.injury_pattern2. digit_groups. Qed.

Lemma injury_pattern3_groups : group_bodies all_digits Patterns.injury_pattern3.
Proof. unfold Patterns.injury_pattern3. digit_groups. Qed.

Lemma add_digit_matches_nonneg : forall ms total,
  Forall all_digits ms -> (0 <= total)%Z ->
  exists total', add_digit_matches ms total = Ok total' /\ (0 <= total')%Z.
Proof.
  intros ms total Hms. revert total. unfold add_digit_matches.
  induction Hms as [|m ms Hm _ IH]; intros total Htotal; cbn [for_each].
  - now exists total.
  - destruct (int m) as [n|e] eqn:E; cbn [bind try_except].
    + apply IH. pose proof (int_all_digits _ _ Hm E). lia.
    + now apply IH.
Qed.

Lemma dict_get_nonneg : forall (d : list (str * Z)) key n,
  Forall (fun entry => (0 <= snd entry)%Z) d ->
  dict_get d key = Some n -> (0 <= n)%Z.
Proof.
  intros d key n Hd. induction Hd as [|[k v] d Hv _ IH]; simpl; intro H.
  - discriminate.
  - destruct (str_eqb key k); [now injection H as <-|now apply IH].
Qed.

Lemma convert_word_to_number_nonneg : forall word n,
  convert_word_to_number word = Some n -> (0 <= n)%Z.
Proof.
  intros word n. unfold convert_word_to_number. apply dict_get_nonneg.
  unfold word_to_num. apply Forall_map.
  repeat constructor; simpl; lia.
Qed.

Lemma add_word_matches_nonneg : forall words total,
  (0 <= total)%Z -> (0 <= add_word_matches words total)%Z.
Proof.
  unfold add_word_matches.
  induction words as [|word words IH]; intros total Htotal; cbn [fold_left].
  - exact Htotal.
  - apply IH. destruct (convert_word_to_number word) as [num|] eqn:E; [|exact Htotal].
    apply convert_word_to_number_nonneg in E. lia.
Qed.

Lemma append_figures_ok : forall ms figures,
  exists figures', append_figures ms figures = Ok figures'.
Proof.
  unfold append_figures.
  induction ms as [|m ms IH]; intro figures; cbn [for_each].
  - now exists figures.
  - destruct (float m) as [x|e]; cbn [bind try_except]; apply IH.
Qed.

Lemma article_deaths_of_nonneg : forall combined_text,
  exists n, article_deaths_of combined_text = Ok n /\ (0 <= n)%Z.
Proof.
  intro t. unfold article_deaths_of.
  match goal with
  | |- context [add_digit_matches ?ms 0%Z] =>
      destruct (add_digit_matches_nonneg ms 0%Z) as (n & Hn & Hpos)
  end.
  - apply Forall_app; split;
      [apply Forall_app; split; [|apply Forall_app; split]|].
    + apply findall1_captures; [exact all_digits_empty|exact death_pattern1_groups].
    + apply findall1_captures; [exact all_digits_empty|exact death_pattern2_groups].
    + apply findall1_captures; [exact all_digits_empty|exact death_pattern4_groups].
    + apply Forall_flat_map.
      pose proof (findall_groups_captures all_digits all_digits_empty 2 _ t
                    death_pattern3_groups) as H.
      eapply Forall_impl; [|exact H].
      intros ws Hws. apply Forall_forall. intros w Hw.
      apply filter_In in Hw. rewrite Forall_forall in Hws. now apply Hws.
  - lia.
  - rewrite Hn. cbn [bind]. eexists. split; [reflexivity|].
    now apply add_word_matches_nonneg.
Qed.

Lemma article_injuries_of_nonneg : forall combined_text,
  exists n, article_injuries_of combined_text = Ok n /\ (0 <= n)%Z.
Proof.
  intro t. unfold article_injuries_of.
  match goal with
  | |- context [add_digit_matches ?ms 0%Z] =>
      destruct (add_digit_matches_nonneg ms 0%Z) as (n & Hn & Hpos)
  end.
  - apply Forall_app; split; [|apply Forall_app; split].
    + apply findall1_captures; [exact all_digits_empty|exact injury_pattern1_groups].
    + apply findall1_captures; [exact all_digits_empty|exact injury_pattern2_groups].
    + apply findall1_captures; [exact all_digits_empty|exact injury_pattern3_groups].
  - lia.
  - rewrite Hn. cbn [bind]. eexists. split; [reflexivity|].
    now apply add_word_matches_nonneg.
Qed.

Lemma analyze_article_invariant : forall st article,
  True -> casualties_add_up st ->
  exists st', analyze_article st article = Ok st' /\ casualties_add_up st'.
Proof.
  intros st article _ (Htotal & Hc & Hd & Hi & Hm & Hdip & Hb & Hk).
  unfold analyze_article.
  destruct (article_deaths_of_nonneg (combined_text_of article)) as (d & -> & Hd').
  destruct (article_injuries_of_nonneg (combined_text_of article)) as (i & -> & Hi').
  cbn [bind].
  destruct (append_figures_ok
              (Re.findall1 Patterns.economic_pattern (combined_text_of article))
              (economic_impact st)) as (figures & ->).
  cbn [bind]. eexists. split; [reflexivity|].
  unfold casualties_add_up, nonneg_counters.
  cbn [total_casualties deaths injuries military_incidents diplomatic_meetings
       border_violations key_developments].
  repeat split; try lia;
    match goal with
    | |- context [mentions ?ks ?t] => destruct (mentions ks t); lia
    end.
Qed.

Lemma initial_stats_invariant : casualties_add_up initial_stats.
Proof. unfold casualties_add_up, nonneg_counters. simpl. lia. Qed.

(** The loop never raises, and keeps the invariant; the function is the
    loop followed by [report_of]. *)
Lemma statistics_invariant : forall articles : list record,
  exists st,
    read_articles articles = Ok st
    /\ casualties_add_up st
    /\ extract_conflict_statistics articles = report_of st.
Proof.
  intro articles. unfold extract_conflict_statistics, read_articles.
  destruct (for_each_invariant _ _ casualties_add_up (fun _ => True)
              analyze_article analyze_article_invariant articles
              (Forall_trivial _ articles) _ initial_stats_invariant)
    as (st & -> & Hst).
  cbn [bind]. exists st. split; [reflexivity|]. split; [exact Hst|reflexivity].
Qed.

(** What follows the loop: the division raises [OverflowError] exactly when
    the quotient is out of the range of the floats; otherwise the report
    holds the counters of the loop. *)
Lemma report_of_cases : forall st,
  (0 <= total_casualties st)%Z ->
  (average_overflows st = true -> report_of st = Raise OverflowError)
  /\ (average_overflows st = false ->
        report_of st
        = Ok {| counters := st;
                avg_casualties_per_incident :=
                  Float.round1
                    (Float.div_int (total_casualties st)
                                   (Z.max (military_incidents st) 1));
                diplomatic_activity_level :=
                  activity_level (diplomatic_meetings st) 3 1;
                conflict_intensity :=
                  activity_level (military_incidents st) 4 2 |}).
Proof.
  intros st Htotal. unfold report_of, true_divide, average_overflows.
  destruct (Z.eqb_spec (Z.max (military_incidents st) 1) 0) as [Hzero|_];
    [lia|].
  rewrite (Z.abs_eq (total_casualties st)) by exact Htotal.
  rewrite (Z.abs_eq (Z.max (military_incidents st) 1)) by lia.
  split; intros ->; reflexivity.
Qed.

Lemma statistics_outcome : forall articles st,
  read_articles articles = Ok st ->
  (0 <= total_casualties st)%Z ->
  (average_overflows st = true ->
     extract_conflict_statistics articles = Raise OverflowError)
  /\ (average_overflows st = false ->
        exists report,
          extract_conflict_statistics articles = Ok report
          /\ counters report = st
          /\ diplomatic_activity_level report
             = activity_level (diplomatic_meetings st) 3 1
          /\ conflict_intensity report
             = activity_level (military_incidents st) 4 2).
Proof.
  intros articles st Hst Htotal. unfold extract_conflict_statistics.
  rewrite Hst. cbn [bind].
  destruct (report_of_cases st Htotal) as [Hyes Hno].
  split; [exact Hyes|]. intro H. rewrite (Hno H). eexists.
  split; [reflexivity|]. repeat split.
Qed.

(** C1.  For every list of article records the loop of
    [extract_conflict_statistics] ends with [total_casualties] exactly
    [deaths + injuries] and every counter a non-negative integer.  The
    report is returned with these counters unless the average is out of the
    range of the floats, that is
    [total_casualties >= (2^1024 - 2^970) * max(military_incidents, 1)]:
    then the division raises [OverflowError] and there is no report. *)
Theorem statistics_total_is_deaths_plus_injuries : forall articles : list record,
  exists st,
    read_articles articles = Ok st
    /\ total_casualties st = (deaths st + injuries st)%Z
    /\ nonneg_counters st
    /\ (average_overflows st = true ->
          extract_conflict_statistics articles = Raise OverflowError)
    /\ (average_overflows st = false ->
          exists report,
            extract_conflict_statistics articles = Ok report
            /\ counters report = st
            /\ total_casualties (counters report)
               = (deaths (counters report) + injuries (counters report))%Z
            /\ nonneg_counters (counters report)).
Proof.
  intro articles.
  destruct (statistics_invariant articles) as (st & Hst & [Htotal Hnonneg] & _).
  assert (H0 : (0 <= total_casualties st)%Z) by (unfold nonneg_counters in Hnonneg; tauto).
  destruct (statistics_outcome articles st Hst H0) as [Hyes Hno].
  exists st. split; [exact Hst|]. split; [exact Htotal|].
  split; [exact Hnonneg|]. split; [exact Hyes|].
  intro H. destruct (Hno H) as (report & Hreport & Hcounters & _).
  exists report. rewrite Hcounters. auto.
Qed.

(** C8.  On the empty list [extract_conflict_statistics] returns the report
    whose counters are all zero, with no economic figure,
    [key_developments] zero and both activity levels ["Low"]. *)
Theorem statistics_of_no_articles :
  exists report,
    extract_conflict_statistics [] = Ok report
    /\ total_casualties (counters report) = 0%Z
    /\ deaths (counters report) = 0%Z
    /\ injuries (counters report) = 0%Z
    /\ military_incidents (counters report) = 0%Z
    /\ diplomatic_meetings (counters report) = 0%Z
    /\ border_violations (counters report) = 0%Z
    /\ economic_impact (counters report) = []
    /\ key_developments (counters report) = 0%Z
    /\ Qeq (avg_casualties_per_incident report) 0
    /\ diplomatic_activity_level report = py "Low"
    /\ conflict_intensity report = py "Low".
Proof.
  eexists. split; [reflexivity|].
  repeat split; reflexivity.
Qed.

(** ** Hotspots *)

Lemma NoDup_snoc : forall (X : Type) (l : list X) (x : X),
  NoDup l -> ~ In x l -> NoDup (l ++ [x]).
Proof.
  intros X l x Hl Hx. induction Hl as [|y l Hy Hl IH]; simpl.
  - constructor; [intros []|constructor].
  - constructor.
    + rewrite in_app_iff. intros [H|[H|[]]]; [contradiction|].
      subst. apply Hx. now left.
    + apply IH. intro H. apply Hx. now right.
Qed.

Lemma name_in_spec : forall name names,
  name_in name names = true <-> In name names.
Proof.
  intros name names. unfold name_in. rewrite existsb_exists. split.
  - intros (n & Hn & E). apply str_eqb_eq in E. now subst.
  - intro H. exists name. split; [exact H|apply str_eqb_refl].
Qed.

Lemma update_existing_names : forall name f hotspots hotspots',
  (forall h, Hotspot.name (f h) = Hotspot.name h) ->
  update_existing name f hotspots = Some hotspots' ->
  List.map Hotspot.name hotspots' = List.map Hotspot.name hotspots.
Proof.
  intros name f hotspots hotspots' Hf. revert hotspots'.
  induction hotspots as [|h rest IH]; simpl; intros hotspots' H.
  - discriminate.
  - destruct (str_eqb (Hotspot.name h) name).
    + injection H as <-. simpl. now rewrite Hf.
    + destruct (update_existing name f rest) as [rest'|]; [|discriminate].
      injection H as <-. simpl. f_equal. now apply IH.
Qed.

Lemma update_existing_absent : forall name f hotspots,
  update_existing name f hotspots = None ->
  ~ In name (List.map Hotspot.name hotspots).
Proof.
  intros name f. induction hotspots as [|h rest IH]; simpl; intros H Hin.
  - exact Hin.
  - destruct (str_eqb (Hotspot.name h) name) eqn:E; [discriminate|].
    destruct (update_existing name f rest); [discriminate|].
    destruct Hin as [Hin|Hin].
    + apply str_eqb_neq in E. contradiction.
    + now apply IH.
Qed.

Lemma visit_location_distinct : forall text hotspots entry,
  distinct_names hotspots -> distinct_names (visit_location text hotspots entry).
Proof.
  intros text hotspots [location_key location_data] H. unfold visit_location.
  destruct (Str.contains location_key text); [|exact H].
  destruct (update_existing _ _ hotspots) as [hotspots'|] eqn:E.
  - unfold distinct_names.
    rewrite (update_existing_names _ (update_hotspot _ _) _ _
               (fun h => eq_refl) E).
    exact H.
  - unfold distinct_names. rewrite map_app. simpl.
    apply NoDup_snoc; [exact H|].
    eapply update_existing_absent; exact E.
Qed.

Lemma visit_article_distinct : forall hotspots article,
  has_shape article -> distinct_names hotspots ->
  exists hotspots', visit_article hotspots article = Ok hotspots'
                    /\ distinct_names hotspots'.
Proof.
  intros hotspots article (t & x & Ht & Hx) H. unfold visit_article.
  rewrite Ht, Hx. cbn [getitem bind]. eexists. split; [reflexivity|].
  generalize (Str.lower (t ++ py " " ++ x)). intro text.
  revert hotspots H. generalize known_locations.
  induction l as [|entry entries IH]; intros hotspots H; simpl; [exact H|].
  apply IH. now apply visit_location_distinct.
Qed.

(** The defaults appended to a non-empty result keep the names distinct and
    bring in every default name. *)
Lemma backfill_distinct : forall existing defaults hotspots,
  distinct_names defaults ->
  distinct_names hotspots ->
  (forall n, In n existing -> In n (List.map Hotspot.name hotspots)) ->
  (forall n, In n (List.map Hotspot.name hotspots) ->
             In n existing \/ ~ In n (List.map Hotspot.name defaults)) ->
  let result :=
    fold_left
      (fun hotspots default_hotspot =>
         if name_in (Hotspot.name default_hotspot) existing
         then hotspots
         else hotspots ++ [default_hotspot])
      defaults hotspots in
  distinct_names result
  /\ (forall n, In n (List.map Hotspot.name hotspots) ->
                In n (List.map Hotspot.name result))
  /\ (forall n, In n (List.map Hotspot.name defaults) ->
                In n (List.map Hotspot.name result)).
Proof.
  intros existing. induction defaults as [|d defaults IH];
    intros hotspots Hdefaults Hhotspots Hsub Hinv; simpl.
  - repeat split; auto. intros n [].
  - unfold distinct_names in Hdefaults. simpl in Hdefaults.
    apply NoDup_cons_iff in Hdefaults. destruct Hdefaults as [Hd Hdefaults].
    destruct (name_in (Hotspot.name d) existing) eqn:E.
    + apply name_in_spec in E.
      destruct (IH hotspots Hdefaults Hhotspots Hsub) as (H1 & H2 & H3).
      * intros n Hn. destruct (Hinv n Hn) as [H|H]; [now left|].
        right. intro Hin. apply H. simpl. now right.
      * repeat split; auto.
        intros n [<-|Hn]; [|now apply H3].
        apply H2. now apply Hsub.
    + assert (Hnot : ~ In (Hotspot.name d) existing).
      { intro Hin. apply name_in_spec in Hin. congruence. }
      assert (Hfresh : ~ In (Hotspot.name d) (List.map Hotspot.name hotspots)).
      { intro Hin. destruct (Hinv _ Hin) as [H|H]; [contradiction|].
        apply H. simpl. now left. }
      destruct (IH (hotspots ++ [d]) Hdefaults) as (H1 & H2 & H3).
      * unfold distinct_names. rewrite map_app. simpl.
        now apply NoDup_snoc.
      * intros n Hn. rewrite map_app, in_app_iff. left. now apply Hsub.
      * intros n Hn. rewrite map_app, in_app_iff in Hn. simpl in Hn.
        destruct Hn as [Hn|[<-|[]]].
        -- destruct (Hinv n Hn) as [H|H]; [now left|].
           right. intro Hin. apply H. simpl. now right.
        -- now right.
      * repeat split; auto.
        -- intros n Hn. apply H2. rewrite map_app, in_app_iff. now left.
        -- intros n [<-|Hn]; [|now apply H3].
           apply H2. rewrite map_app, in_app_iff. right. simpl. now left.
Qed.

Lemma default_hotspots_distinct : distinct_names default_hotspots.
Proof.
  unfold distinct_names. vm_compute.
  repeat constructor; simpl; intuition discriminate.
Qed.

Lemma hotspots_distinct_with_defaults : forall articles : list Article,
  exists hotspots,
    extract_geographic_hotspots (List.map record_of articles) = Ok hotspots
    /\ distinct_names hotspots
    /\ forall n, In n (List.map Hotspot.name default_hotspots) ->
                 In n (List.map Hotspot.name hotspots).
Proof.
  intro articles. unfold extract_geographic_hotspots.
  destruct (for_each_invariant _ _ distinct_names has_shape visit_article
              visit_article_distinct _ (records_have_shape articles) []
              (NoDup_nil _)) as (found & -> & Hfound).
  cbn [bind]. destruct found as [|h rest].
  - eexists. split; [reflexivity|]. split; [exact default_hotspots_distinct|].
    auto.
  - eexists. split; [reflexivity|].
    destruct (backfill_distinct (List.map Hotspot.name (h :: rest))
                default_hotspots (h :: rest) default_hotspots_distinct Hfound)
      as (H1 & _ & H3); auto.
Qed.

(** C7.  For every list of articles the hotspots returned carry pairwise
    distinct names, and Kashmir, Line of Control and Balochistan are among
    them. *)
Theorem hotspots_have_distinct_names_and_defaults : forall articles : list Article,
  exists hotspots,
    extract_geographic_hotspots (List.map record_of articles) = Ok hotspots
    /\ NoDup (List.map Hotspot.name hotspots)
    /\ In (py "Kashmir") (List.map Hotspot.name hotspots)
    /\ In (py "Line of Control") (List.map Hotspot.name hotspots)
    /\ In (py "Balochistan") (List.map Hotspot.name hotspots).
Proof.
  intro articles.
  destruct (hotspots_distinct_with_defaults articles) as (hotspots & H & Hd & Hin).
  exists hotspots. split; [exact H|]. split; [exact Hd|].
  repeat split; apply Hin; vm_compute; intuition.
Qed.

(** C10.  On the empty list [extract_geographic_hotspots] returns exactly
    the three default hotspots: Kashmir (high), Line of Control (medium),
    Balochistan (low). *)
Theorem hotspots_of_no_articles :
  extract_geographic_hotspots [] = Ok default_hotspots
  /\ List.map (fun h => (Hotspot.name h, Hotspot.intensity h)) default_hotspots
     = [ (py "Kashmir", py "high"); (py "Line of Control", py "medium");
         (py "Balochistan", py "low") ].
Proof. split; reflexivity. Qed.

(** ** Sorting in descending order *)

Section SortDesc.
Variable X : Type.
Variable ltb : X -> X -> bool.

Hypothesis ltb_asym : forall x y, ltb x y = true -> ltb y x = false.
Hypothesis not_below_trans : forall x y z,
  not_below ltb x y -> not_below ltb y z -> not_below ltb x z.

Lemma insert_desc_perm : forall x l, Permutation (x :: l) (insert_desc ltb x l).
Proof.
  intros x l. induction l as [|y l IH]; simpl; [reflexivity|].
  destruct (ltb x y); [|reflexivity].
  rewrite perm_swap. now constructor.
Qed.

Lemma sort_desc_perm : forall l, Permutation l (sort_desc ltb l).
Proof.
  induction l as [|x l IH]; simpl; [constructor|].
  rewrite <- insert_desc_perm. now constructor.
Qed.

Lemma insert_desc_hd : forall y x l,
  not_below ltb y x -> HdRel (not_below ltb) y l ->
  HdRel (not_below ltb) y (insert_desc ltb x l).
Proof.
  intros y x l Hyx Hl. destruct l as [|z l]; simpl.
  - now constructor.
  - destruct (ltb x z); constructor; [now inversion Hl|exact Hyx].
Qed.

Lemma insert_desc_sorted : forall x l,
  Sorted (not_below ltb) l -> Sorted (not_below ltb) (insert_desc ltb x l).
Proof.
  intros x l H. induction H as [|y l Hl IH Hy]; simpl.
  - repeat constructor.
  - destruct (ltb x y) eqn:E.
    + constructor; [exact IH|].
      apply insert_desc_hd; [now apply ltb_asym|exact Hy].
    + repeat constructor; assumption.
Qed.

Lemma sort_desc_sorted : forall l,
  StronglySorted (not_below ltb) (sort_desc ltb l).
Proof.
  intro l. apply Sorted_StronglySorted.
  - exact not_below_trans.
  - induction l as [|x l IH]; simpl; [constructor|].
    now apply insert_desc_sorted.
Qed.

End SortDesc.

Lemma firstn_In : forall (X : Type) n (l : list X) x,
  In x (firstn n l) -> In x l.
Proof.
  intros X n l x H. rewrite <- (firstn_skipn n l). apply in_or_app. now left.
Qed.

Lemma StronglySorted_firstn : forall (X : Type) (R : X -> X -> Prop) n l,
  StronglySorted R l -> StronglySorted R (firstn n l).
Proof.
  intros X R n l H. revert n.
  induction H as [|x l Hl IH Hx]; intros [|n]; simpl; try constructor.
  - apply IH.
  - rewrite Forall_forall in *. intros y Hy. apply Hx.
    eapply firstn_In; exact Hy.
Qed.

Lemma StronglySorted_slice_to : forall (X : Type) (R : X -> X -> Prop) n l,
  StronglySorted R l -> StronglySorted R (Str.slice_to l n).
Proof.
  intros X R n l H. unfold Str.slice_to.
  destruct (n <? 0)%Z; now apply StronglySorted_firstn.
Qed.

Lemma StronglySorted_impl : forall (X : Type) (R R' : X -> X -> Prop) l,
  (forall x y, R x y -> R' x y) -> StronglySorted R l -> StronglySorted R' l.
Proof.
  intros X R R' l HR H. induction H as [|x l Hl IH Hx]; constructor.
  - exact IH.
  - eapply Forall_impl; [|exact Hx]. intros y Hy. now apply HR.
Qed.

(** ** Keywords *)

Lemma Qltb_false : forall a b, Qltb a b = false <-> Qle b a.
Proof.
  intros a b. unfold Qltb. rewrite negb_false_iff. apply Qle_bool_iff.
Qed.

Lemma Qltb_true : forall a b, Qltb a b = true <-> Qlt a b.
Proof.
  intros a b. unfold Qltb. rewrite negb_true_iff. split.
  - intro H. apply Qnot_le_lt. intro Hle. apply Qle_bool_iff in Hle. congruence.
  - intro H. destruct (Qle_bool b a) eqn:E; [|reflexivity].
    apply Qle_bool_iff in E. exfalso. now apply (Qlt_not_le a b).
Qed.

Lemma weight_ltb_asym : forall a b,
  weight_ltb a b = true -> weight_ltb b a = false.
Proof.
  intros a b H. unfold weight_ltb in *. apply Qltb_true in H.
  apply Qltb_false. now apply Qlt_le_weak.
Qed.

Lemma weight_not_below_trans : forall a b c,
  not_below weight_ltb a b -> not_below weight_ltb b c -> not_below weight_ltb a c.
Proof.
  unfold not_below, weight_ltb. intros a b c Hab Hbc.
  apply Qltb_false in Hab. apply Qltb_false in Hbc. apply Qltb_false.
  eapply Qle_trans; eassumption.
Qed.

Lemma sorted_keywords_descending : forall keywords,
  descending_by_weight (sort_desc weight_ltb keywords).
Proof.
  intro keywords. unfold descending_by_weight.
  eapply StronglySorted_impl;
    [|apply (sort_desc_sorted _ weight_ltb weight_ltb_asym weight_not_below_trans)].
  intros a b H. now apply Qltb_false in H.
Qed.

Lemma fallback_keywords_descending : descending_by_weight fallback_keywords.
Proof.
  unfold descending_by_weight, fallback_keywords.
  repeat constructor; unfold Qle; simpl; lia.
Qed.

Lemma slice_to_length : forall (X : Type) (l : list X) n,
  (0 <= n)%Z -> (len (Str.slice_to l n) <= n)%Z.
Proof.
  intros X l n Hn. unfold Str.slice_to, len.
  destruct (Z.ltb_spec n 0); [lia|].
  rewrite length_firstn. lia.
Qed.

Lemma all_text_of_ok : forall articles : list Article,
  exists all_text, all_text_of (List.map record_of articles) = Ok all_text.
Proof.
  intro articles. unfold all_text_of.
  destruct (for_each_invariant _ _ (fun _ : str => True) has_shape
              (fun all_text article =>
                 article_title <- getitem "title" (title article) ;;
                 article_text <- getitem "text" (text article) ;;
                 Ok (all_text ++ (py " " ++ article_title ++ py " " ++ article_text)))
              ) with (xs := List.map record_of articles) (s := @nil char)
    as (all_text & H & _).
  - intros s x (t & b & Ht & Hb) _. rewrite Ht, Hb. cbn [getitem bind]. eauto.
  - apply records_have_shape.
  - exact I.
  - now exists all_text.
Qed.

(** C9.  On the empty list, and on any input whose combined text is shorter
    than 100 characters, [extract_trending_keywords] returns exactly the
    fallback list: twelve entries with the weights 100, 95, 80, 70, 60, 55,
    50, 45, 42, 40, 38, 35 in this order. *)
Theorem keywords_fallback_on_short_text :
  forall tfidf_document articles max_keywords,
    (articles = []
     \/ exists all_text,
          all_text_of articles = Ok all_text /\ (len all_text < 100)%Z) ->
    extract_trending_keywords tfidf_document articles max_keywords
      = Ok fallback_keywords
    /\ List.map Keyword.weight fallback_keywords
       = [100; 95; 80; 70; 60; 55; 50; 45; 42; 40; 38; 35]%Q
    /\ List.length fallback_keywords = 12%nat.
Proof.
  intros tfidf_document articles max_keywords H.
  split; [|split; reflexivity].
  assert (Hshort : exists all_text,
            all_text_of articles = Ok all_text /\ (len all_text < 100)%Z).
  { destruct H as [->|H]; [|exact H]. exists []. split; reflexivity. }
  destruct Hshort as (all_text & Hall & Hlen).
  unfold extract_trending_keywords. rewrite Hall. cbn [bind].
  assert (Hstrip : (len (Str.strip all_text) <? 100)%Z = true).
  { apply Z.ltb_lt. pose proof (strip_length all_text). unfold len in *. lia. }
  rewrite Hstrip. reflexivity.
Qed.

(** C9 at one short article: 38 characters of combined text. *)
Lemma keywords_fallback_on_short_text_witness :
  (List.map record_of [plain_article "Border talks" "India and Pakistan met."] = []
   \/ exists all_text,
        all_text_of (List.map record_of
                       [plain_article "Border talks" "India and Pakistan met."])
          = Ok all_text
        /\ (len all_text < 100)%Z)
  /\ extract_trending_keywords tfidf_document_sample
       (List.map record_of [plain_article "Border talks" "India and Pakistan met."])
       20
     = Ok fallback_keywords.
Proof.
  assert (H : List.map record_of
                [plain_article "Border talks" "India and Pakistan met."] = []
              \/ exists all_text,
                   all_text_of (List.map record_of
                                  [plain_article "Border talks"
                                                 "India and Pakistan met."])
                     = Ok all_text
                   /\ (len all_text < 100)%Z).
  { right. eexists. split; [reflexivity|]. vm_compute. reflexivity. }
  split; [exact H|].
  exact (proj1 (keywords_fallback_on_short_text tfidf_document_sample _ 20%Z H)).
Defined.

Lemma extract_trending_keywords_ok :
  forall tfidf_document (articles : list Article) max_keywords,
  exists keywords,
    extract_trending_keywords tfidf_document (List.map record_of articles)
                              max_keywords = Ok keywords.
Proof.
  intros tfidf_document articles max_keywords.
  unfold extract_trending_keywords.
  destruct (all_text_of_ok articles) as (all_text & ->). cbn [bind].
  destruct (len (Str.strip all_text) <? 100)%Z; [cbn [try_except]; eauto|].
  destruct (tfidf_document all_text) as [features|e]; cbn [bind try_except];
    [|eauto].
  match goal with
  | |- context [Str.slice_to ?sorted max_keywords] =>
      destruct (Str.slice_to sorted max_keywords); cbn [try_except]; eauto
  end.
Qed.

(** C4, as the code has it.  For every list of articles and every
    [max_keywords] the keywords returned are in descending order of weight;
    they are the twelve fallback keywords, or else there are at most
    [max_keywords] of them when [max_keywords] is not negative. *)
Theorem keywords_descending_and_bounded :
  forall tfidf_document (articles : list Article) max_keywords,
  exists keywords,
    extract_trending_keywords tfidf_document (List.map record_of articles)
                              max_keywords = Ok keywords
    /\ descending_by_weight keywords
    /\ (keywords = fallback_keywords
        \/ ((0 <= max_keywords)%Z -> (len keywords <= max_keywords)%Z)).
Proof.
  intros tfidf_document articles max_keywords.
  unfold extract_trending_keywords.
  destruct (all_text_of_ok articles) as (all_text & ->). cbn [bind].
  assert (Hfallback :
            exists keywords, Ok fallback_keywords = Ok keywords
              /\ descending_by_weight keywords
              /\ (keywords = fallback_keywords
                  \/ ((0 <= max_keywords)%Z -> (len keywords <= max_keywords)%Z))).
  { exists fallback_keywords. split; [reflexivity|].
    split; [exact fallback_keywords_descending|now left]. }
  destruct (len (Str.strip all_text) <? 100)%Z; [exact Hfallback|].
  destruct (tfidf_document all_text) as [features|e]; cbn [bind try_except];
    [|exact Hfallback].
  match goal with
  | |- context [Str.slice_to ?sorted max_keywords] =>
      pose proof (StronglySorted_slice_to _ _ max_keywords sorted
                    (sorted_keywords_descending _)) as Hsorted;
      pose proof (slice_to_length _ sorted max_keywords) as Hlen;
      destruct (Str.slice_to sorted max_keywords) as [|k ks]
  end.
  - exact Hfallback.
  - eexists. split; [reflexivity|]. split; [exact Hsorted|]. right. exact Hlen.
Qed.

(** C4, as stated, fails: with [max_keywords = 5] the empty list gives the
    twelve fallback keywords. *)
Lemma keywords_exceed_max_keywords :
  extract_trending_keywords tfidf_document_down [] 5 = Ok fallback_keywords
  /\ ~ (len fallback_keywords <= 5)%Z.
Proof. split; [reflexivity|]. vm_compute. intro H. now apply H. Qed.

(** ** Sentence selection *)

Lemma str_compare_antisym : forall a b : str,
  str_compare b a = CompOpp (str_compare a b).
Proof.
  induction a as [|x a IH]; destruct b as [|y b]; simpl; try reflexivity.
  rewrite (N.compare_antisym x y).
  destruct (x ?= y)%N; simpl; [apply IH|reflexivity|reflexivity].
Qed.

Lemma str_compare_le_trans : forall a b c : str,
  str_compare a b <> Gt -> str_compare b c <> Gt -> str_compare a c <> Gt.
Proof.
  induction a as [|x a IH]; intros [|y b] [|z c]; simpl; try congruence.
  destruct (N.compare_spec x y), (N.compare_spec y z), (N.compare_spec x z);
    subst; try lia; try congruence.
  apply IH.
Qed.

Lemma scored_le_trans : forall a b c,
  scored_le a b -> scored_le b c -> scored_le a c.
Proof.
  intros [sa ta] [sb tb] [sc tc]. unfold scored_le. simpl.
  intros [Hab|[Hab Tab]] [Hbc|[Hbc Tbc]].
  - left. eapply Qlt_trans; eassumption.
  - left. now rewrite <- Hbc.
  - left. now rewrite Hab.
  - right. split; [now rewrite Hab|].
    eapply str_compare_le_trans; eassumption.
Qed.

Lemma scored_ltb_true : forall a b, scored_ltb a b = true -> scored_le a b.
Proof.
  intros [sa ta] [sb tb]. unfold scored_ltb, scored_le. simpl.
  destruct (Qcompare sa sb) eqn:E; intro H.
  - right. split; [now apply Qeq_alt|].
    destruct (str_compare ta tb); congruence.
  - left. now apply Qlt_alt.
  - discriminate.
Qed.

Lemma scored_not_below : forall a b,
  not_below scored_ltb a b <-> scored_le b a.
Proof.
  intros [sa ta] [sb tb]. unfold not_below, scored_ltb, scored_le. simpl.
  destruct (Qcompare sa sb) eqn:E.
  - apply Qeq_alt in E. split.
    + intro H. right. split; [now symmetry|].
      rewrite (str_compare_antisym ta tb).
      destruct (str_compare ta tb); simpl; congruence.
    + intros [H|[_ H]].
      * rewrite E in H. now apply Qlt_irrefl in H.
      * rewrite (str_compare_antisym ta tb) in H.
        destruct (str_compare ta tb); simpl in *; congruence.
  - apply Qlt_alt in E. split; [discriminate|].
    intros [H|[H _]]; exfalso.
    + apply (Qlt_irrefl sa). eapply Qlt_trans; eassumption.
    + rewrite H in E. now apply Qlt_irrefl in E.
  - apply Qgt_alt in E. split; [|reflexivity]. intros _. now left.
Qed.

Lemma scored_ltb_asym : forall a b,
  scored_ltb a b = true -> scored_ltb b a = false.
Proof. intros a b H. apply scored_not_below. now apply scored_ltb_true. Qed.

Lemma scored_not_below_trans : forall a b c,
  not_below scored_ltb a b -> not_below scored_ltb b c -> not_below scored_ltb a c.
Proof.
  intros a b c Hab Hbc. apply scored_not_below.
  apply scored_not_below in Hab. apply scored_not_below in Hbc.
  eapply scored_le_trans; eassumption.
Qed.

Lemma StronglySorted_app_inv : forall (X : Type) (R : X -> X -> Prop) l1 l2,
  StronglySorted R (l1 ++ l2) ->
  forall x y, In x l1 -> In y l2 -> R x y.
Proof.
  intros X R l1 l2. induction l1 as [|a l1 IH]; simpl; intros H x y Hx Hy.
  - destruct Hx.
  - inversion H as [|? ? Hs Ha]; subst. destruct Hx as [<-|Hx].
    + rewrite Forall_forall in Ha. apply Ha. apply in_or_app. now right.
    + now apply IH.
Qed.

(** What [heapq.nlargest] returns: the length asked for, the largest
    entries, largest first. *)
Lemma nlargest_spec : forall n l,
  List.length (nlargest n l) = Nat.min (Z.to_nat n) (List.length l)
  /\ (exists rest,
        Permutation (nlargest n l ++ rest) l
        /\ forall x y, In x (nlargest n l) -> In y rest -> scored_le y x)
  /\ StronglySorted (fun x y => scored_le y x) (nlargest n l).
Proof.
  intros n l. unfold nlargest.
  pose proof (sort_desc_sorted _ scored_ltb scored_ltb_asym
                scored_not_below_trans l) as Hsorted.
  pose proof (sort_desc_perm _ scored_ltb l) as Hperm.
  split; [|split].
  - rewrite length_firstn. now rewrite <- (Permutation_length Hperm).
  - exists (skipn (Z.to_nat n) (sort_desc scored_ltb l)). split.
    + rewrite firstn_skipn. now symmetry.
    + intros x y Hx Hy. apply scored_not_below.
      rewrite <- (firstn_skipn (Z.to_nat n)) in Hsorted.
      eapply StronglySorted_app_inv; eassumption.
  - apply StronglySorted_firstn.
    eapply StronglySorted_impl; [|exact Hsorted].
    intros x y H. now apply scored_not_below.
Qed.

Lemma combine_seq_snd : forall (X : Type) (l : list X) start,
  List.map snd (combine (seq start (List.length l)) l) = l.
Proof.
  intros X. induction l as [|x l IH]; intro start; simpl; [reflexivity|].
  now rewrite IH.
Qed.

Lemma combine_scores_snd : forall tfidf_sentences sentences,
  List.map snd (combine_scores tfidf_sentences sentences) = sentences.
Proof.
  intros tfidf_sentences sentences. unfold combine_scores. cbv zeta.
  rewrite map_map.
  transitivity (List.map snd (combine (seq 0 (List.length sentences)) sentences)).
  - apply map_ext. intros [i s]. reflexivity.
  - apply combine_seq_snd.
Qed.

(** The entry of [combined_scores] at the index of a sentence. *)
Lemma combine_scores_nth : forall tfidf_sentences sentences i,
  (i < List.length sentences)%nat ->
  nth i (combine_scores tfidf_sentences sentences) (0%Q, [])
  = (weighted_sum
       (score_get (score_sentences_tfidf tfidf_sentences sentences) i)
       (score_get (score_sentences_keywords sentences) i)
       (score_get (score_sentences_position sentences) i)
       (score_get (score_sentences_length sentences) i),
     nth i sentences []).
Proof.
  intros tfidf_sentences sentences i Hi. unfold combine_scores. cbv zeta.
  match goal with
  | |- nth i (List.map ?f ?l) ?d = _ =>
      rewrite (nth_indep (List.map f l) d (f (0%nat, [])));
      [rewrite (map_nth f l (0%nat, []) i)|]
  end.
  - rewrite combine_nth by (now rewrite length_seq).
    rewrite seq_nth by exact Hi. reflexivity.
  - rewrite length_map, length_combine, length_seq. lia.
Qed.

(** C6.  With three candidate sentences or more, [combined_scores] pairs
    every candidate, in reading order, with the weighted sum of its four
    scores, computed in floating point; the sentences returned are those of
    the [target_count] entries of [combined_scores] that are largest for
    the comparison of the pairs (score, sentence text): nothing left out is
    above anything selected, the selection is in descending order of the
    pairs, and of two entries with the same score the one whose text is
    lexicographically larger is selected whenever the other is. *)
Theorem top_sentences_by_score_then_text :
  forall tfidf_sentences full_text text_sources target_count,
    let sentences := tokenize_sentences full_text in
    let combined_scores := combine_scores tfidf_sentences sentences in
    let top_sentences := nlargest target_count combined_scores in
    (3 <= len sentences)%Z ->
    List.map snd combined_scores = sentences
    /\ (forall i, (i < List.length sentences)%nat ->
          nth i combined_scores (0%Q, [])
          = (weighted_sum
               (score_get (score_sentences_tfidf tfidf_sentences sentences) i)
               (score_get (score_sentences_keywords sentences) i)
               (score_get (score_sentences_position sentences) i)
               (score_get (score_sentences_length sentences) i),
             nth i sentences []))
    /\ extract_key_sentences_multimethod tfidf_sentences full_text text_sources
                                         target_count
       = List.map snd top_sentences
    /\ List.length top_sentences
       = Nat.min (Z.to_nat target_count) (List.length sentences)
    /\ (exists rest,
          Permutation (top_sentences ++ rest) combined_scores
          /\ forall x y, In x top_sentences -> In y rest -> scored_le y x)
    /\ StronglySorted (fun x y => scored_le y x) top_sentences
    /\ (forall x y,
          In x top_sentences -> In y combined_scores ->
          Qeq (fst x) (fst y) -> str_compare (snd x) (snd y) = Lt ->
          In y top_sentences).
Proof.
  intros tfidf_sentences full_text text_sources target_count
         sentences combined_scores top_sentences Hthree.
  destruct (nlargest_spec target_count combined_scores)
    as (Hlen & (rest & Hperm & Hrest) & Hsorted).
  split; [apply combine_scores_snd|].
  split; [apply combine_scores_nth|].
  split; [|split; [|split; [|split; [exact Hsorted|]]]].
  - unfold extract_key_sentences_multimethod. fold sentences.
    destruct (Z.ltb_spec (len sentences) 3); [lia|reflexivity].
  - etransitivity; [exact Hlen|]. f_equal. unfold combined_scores.
    rewrite <- (length_map snd (combine_scores tfidf_sentences sentences)).
    now rewrite combine_scores_snd.
  - exists rest. now split.
  - intros x y Hx Hy Hscore Htext.
    apply (Permutation_in _ (Permutation_sym Hperm)) in Hy.
    apply in_app_or in Hy. destruct Hy as [Hy|Hy]; [exact Hy|].
    exfalso. destruct (Hrest x y Hx Hy) as [Hlt|[_ Hle]].
    + rewrite Hscore in Hlt. now apply Qlt_irrefl in Hlt.
    + rewrite (str_compare_antisym (snd x) (snd y)), Htext in Hle.
      now apply Hle.
Qed.

(** C6 at a text of three sentences, two of them asked for. *)
Lemma top_sentences_by_score_then_text_witness :
  (3 <= len (tokenize_sentences
               (py "India and Pakistan held talks in Delhi. The ceasefire is holding along the border. Both armies exchanged fire in Kashmir.")))%Z
  /\ extract_key_sentences_multimethod tfidf_sentences_sample
       (py "India and Pakistan held talks in Delhi. The ceasefire is holding along the border. Both armies exchanged fire in Kashmir.")
       [] 2
     = List.map snd
         (nlargest 2
            (combine_scores tfidf_sentences_sample
               (tokenize_sentences
                  (py "India and Pakistan held talks in Delhi. The ceasefire is holding along the border. Both armies exchanged fire in Kashmir.")))).
Proof.
  assert (H : (3 <= len (tokenize_sentences
                 (py "India and Pakistan held talks in Delhi. The ceasefire is holding along the border. Both armies exchanged fire in Kashmir.")))%Z).
  { vm_compute. discriminate. }
  split; [exact H|].
  exact (proj1 (proj2 (proj2
           (top_sentences_by_score_then_text tfidf_sentences_sample _ [] 2%Z H)))).
Defined.

(** ** Summary *)

(** C5 on the code.  The empty list gives the no-articles message.  One
    article whose body is a single sentence of 29 characters gives the
    opener followed by a space: the sentence is a key sentence, is dropped
    after cleaning (30 characters, not more), and the fallback joins the
    opener to nothing.  The result does not end in [.], [!] or [?]. *)
Theorem summary_of_short_sentence_ends_in_space :
  forall tfidf_sentences,
    generate_summary tfidf_sentences no_client []
      = Ok (py "No recent news articles found about the India-Pakistan conflict.")
    /\ generate_summary tfidf_sentences no_client
         [record_of (plain_article "Update" "India and Pakistan held talks")]
       = Ok (py "The India-Pakistan conflict continues to evolve with significant regional and international implications. ")
    /\ ends_properly
         (py "The India-Pakistan conflict continues to evolve with significant regional and international implications. ")
       = false.
Proof.
  intro tfidf_sentences. repeat split; vm_compute; reflexivity.
Qed.

(** ** Behaviour on records that lack a key *)

Lemma prompt_text_ok : forall articles : list Article,
  exists combined_text, prompt_text (List.map record_of articles) = Ok combined_text.
Proof.
  intro articles. unfold prompt_text.
  match goal with
  | |- context [for_each ?body ?xs ?init] =>
      assert (Hbody : forall parts a, has_shape a -> True ->
                exists parts', body parts a = Ok parts' /\ True);
      [|destruct (for_each_invariant _ _ (fun _ => True) has_shape body Hbody
                    xs (records_have_shape articles) init I) as (parts & -> & _)]
  end.
  - intros s x (t & b & Ht & Hb) _. rewrite Ht, Hb. cbn [getitem bind]. eauto.
  - cbn [bind]. eauto.
Qed.

Lemma generate_summary_ok : forall tfidf_sentences client (articles : list Article),
  exists summary,
    generate_summary tfidf_sentences client (List.map record_of articles)
      = Ok summary.
Proof.
  intros tfidf_sentences client articles. unfold generate_summary.
  destruct (prompt_text_ok articles) as (combined_text & ->).
  destruct (List.map record_of articles) as [|r rs]; [eauto|].
  cbn [bind].
  destruct (generate_free_summary tfidf_sentences (r :: rs) 6) as [summary|e];
    cbn [bind try_except]; [|eauto].
  destruct (generate_openai_summary client (r :: rs)) as [openai_summary|];
    [|cbn [try_except]; eauto].
  match goal with |- context [if ?b then _ else _] => destruct b end;
    cbn [try_except]; eauto.
Qed.

(** C2, as the code has it.  Each of the four functions returns its fallback
    on the empty list.  On every list of records of the documented shape the
    summary, the keywords and the hotspots are returned.  On every list of
    records, also with a title or a text missing (read as empty),
    [extract_conflict_statistics] reads all the articles without raising;
    it then returns its report, unless the average is out of the range of
    the floats and the division raises [OverflowError]. *)
Theorem fallbacks_on_empty_and_no_exception_on_articles :
  forall tfidf_sentences tfidf_document client,
    generate_summary tfidf_sentences client []
      = Ok (py "No recent news articles found about the India-Pakistan conflict.")
    /\ (exists report,
          extract_conflict_statistics [] = Ok report
          /\ counters report = initial_stats)
    /\ (forall max_keywords,
          extract_trending_keywords tfidf_document [] max_keywords
            = Ok fallback_keywords)
    /\ extract_geographic_hotspots [] = Ok default_hotspots
    /\ (forall articles : list Article,
          let records := List.map record_of articles in
          (exists summary,
             generate_summary tfidf_sentences client records = Ok summary)
          /\ (forall max_keywords, exists keywords,
                extract_trending_keywords tfidf_document records max_keywords
                  = Ok keywords)
          /\ (exists hotspots,
                extract_geographic_hotspots records = Ok hotspots))
    /\ (forall records : list record,
          exists st,
            read_articles records = Ok st
            /\ (average_overflows st = true ->
                  extract_conflict_statistics records = Raise OverflowError)
            /\ (average_overflows st = false ->
                  exists report,
                    extract_conflict_statistics records = Ok report
                    /\ counters report = st)).
Proof.
  intros tfidf_sentences tfidf_document client.
  split; [reflexivity|].
  split; [eexists; split; reflexivity|].
  split; [reflexivity|].
  split; [reflexivity|].
  split.
  - intros articles records. split; [apply generate_summary_ok|]. split.
    + intro max_keywords. apply extract_trending_keywords_ok.
    + destruct (hotspots_distinct_with_defaults articles) as (hotspots & H & _).
      eauto.
  - intro records.
    destruct (statistics_invariant records) as (st & Hst & [_ Hnonneg] & _).
    assert (H0 : (0 <= total_casualties st)%Z)
      by (unfold nonneg_counters in Hnonneg; tauto).
    destruct (statistics_outcome records st Hst H0) as [Hyes Hno].
    exists st. split; [exact Hst|]. split; [exact Hyes|].
    intro H. destruct (Hno H) as (report & Hreport & Hcounters & _). eauto.
Qed.

(** C2, as stated, fails: a record without the key [title] makes three of
    the four functions raise [KeyError]. *)
Lemma missing_title_raises :
  extract_geographic_hotspots [untitled_record "Shelling reported in Kashmir"]
    = Raise (KeyError "title")
  /\ extract_trending_keywords tfidf_document_down
       [untitled_record "Shelling reported in Kashmir"] 20
     = Raise (KeyError "title")
  /\ generate_summary tfidf_sentences_down no_client
       [untitled_record "Shelling reported in Kashmir"]
     = Raise (KeyError "title").
Proof. repeat split; reflexivity. Qed.

(** ** Number words and digits *)

Lemma word_forms_checked_true : word_forms_checked = true.
Proof. vm_compute. reflexivity. Qed.

Lemma result_is_true : forall r n, result_is r n = true -> r = Ok n.
Proof.
  intros [m|e] n H; simpl in H; [|discriminate].
  apply Z.eqb_eq in H. now subst.
Qed.

(** C3, as the code has it.  The family [<N> <keyword>] has a word form for
    both classes and [at least <N> <keyword>] has one for deaths: for every
    number word from zero to twenty with value [n], every death keyword but
    [deaths] and every injury keyword, an article with an empty title whose
    text is the word form reports the same number as one whose text is the
    digit form ([n], and [2 * n] under [at least], where the first family
    matches too). *)
Theorem word_and_digit_forms_agree :
  forall word n death_keyword injury_keyword,
    In (word, n) word_to_num ->
    In death_keyword death_keywords ->
    death_keyword <> py "deaths" ->
    In injury_keyword injury_keywords ->
    deaths_for (word ++ py " " ++ death_keyword) = Ok n
    /\ deaths_for (numeral n ++ py " " ++ death_keyword) = Ok n
    /\ deaths_for (py "at least " ++ word ++ py " " ++ death_keyword)
       = Ok (2 * n)%Z
    /\ deaths_for (py "at least " ++ numeral n ++ py " " ++ death_keyword)
       = Ok (2 * n)%Z
    /\ injuries_for (word ++ py " " ++ injury_keyword) = Ok n
    /\ injuries_for (numeral n ++ py " " ++ injury_keyword) = Ok n.
Proof.
  intros word n death_keyword injury_keyword Hword Hdeath Hnot Hinjury.
  pose proof word_forms_checked_true as H. unfold word_forms_checked in H.
  rewrite forallb_forall in H. specialize (H _ Hword). cbv beta iota in H.
  apply andb_true_iff in H. destruct H as [Hd Hi].
  rewrite forallb_forall in Hd, Hi.
  specialize (Hd _ Hdeath). specialize (Hi _ Hinjury).
  apply orb_true_iff in Hd. destruct Hd as [Hd|Hd].
  { apply str_eqb_eq in Hd. contradiction. }
  apply andb_true_iff in Hd. destruct Hd as [Hd1 Hd2].
  unfold forms_agree, at_least_forms_agree in *.
  apply andb_true_iff in Hd1, Hd2, Hi.
  destruct Hd1 as [A1 A2]. destruct Hd2 as [B1 B2]. destruct Hi as [C1 C2].
  repeat split; now apply result_is_true.
Qed.

(** C3 at ["six killed"] and ["6 killed"]. *)
Lemma word_and_digit_forms_agree_witness :
  (In (py "six", 6%Z) word_to_num
   /\ In (py "killed") death_keywords
   /\ py "killed" <> py "deaths"
   /\ In (py "injured") injury_keywords)
  /\ deaths_for (py "six" ++ py " " ++ py "killed") = Ok 6%Z
  /\ deaths_for (numeral 6 ++ py " " ++ py "killed") = Ok 6%Z.
Proof.
  assert (Hword : In (py "six", 6%Z) word_to_num).
  { vm_compute. do 6 right. left. reflexivity. }
  assert (Hdeath : In (py "killed") death_keywords).
  { vm_compute. left. reflexivity. }
  assert (Hnot : py "killed" <> py "deaths").
  { vm_compute. discriminate. }
  assert (Hinjury : In (py "injured") injury_keywords).
  { vm_compute. left. reflexivity. }
  split; [repeat split; assumption|].
  pose proof (word_and_digit_forms_agree (py "six") 6%Z (py "killed")
                (py "injured") Hword Hdeath Hnot Hinjury) as H.
  split; [exact (proj1 H)|exact (proj1 (proj2 H))].
Defined.

(** C3, as stated, fails: the family [<keyword> <N>] has no word form, so
    ["injured six"] reports no injury where ["injured 6"] reports six. *)
Lemma keyword_then_number_word_is_not_counted :
  injuries_for (py "injured six") = Ok 0%Z
  /\ injuries_for (py "injured 6") = Ok 6%Z.
Proof. split; vm_compute; reflexivity. Qed.

(** The title is scanned with the text: behind the title ["Dozens killed"]
    the digit form is counted twice, by the family [<keyword> <N>] across
    the boundary, and the word form once. *)
Lemma title_is_scanned_with_the_text :
  (exists report,
     extract_conflict_statistics
       [record_of (plain_article "Dozens killed" "6 killed")] = Ok report
     /\ deaths (counters report) = 12%Z)
  /\ (exists report,
        extract_conflict_statistics
          [record_of (plain_article "Dozens killed" "six killed")] = Ok report
        /\ deaths (counters report) = 6%Z).
Proof. split; eexists; (split; [vm_compute; reflexivity|reflexivity]). Qed.

(** * Further properties of the code *)

(** ** Statistics: what each article adds *)

Lemma stats_add_assoc : forall s d e,
  stats_add (stats_add s d) e = stats_add s (stats_add d e).
Proof.
  intros s d e. unfold stats_add. cbn [total_casualties deaths injuries
    military_incidents diplomatic_meetings border_violations economic_impact
    key_developments recent_period].
  f_equal; try lia. symmetry. apply app_assoc.
Qed.

Lemma append_figures_app : forall ms,
  exists figures, forall acc, append_figures ms acc = Ok (acc ++ figures).
Proof.
  unfold append_figures. induction ms as [|m ms (figures & IH)].
  - exists []. intro acc. cbn [for_each]. now rewrite app_nil_r.
  - destruct (float m) as [x|e] eqn:E.
    + exists (x :: figures). intro acc. cbn [for_each]. rewrite E.
      cbn [bind try_except]. rewrite IH. now rewrite <- app_assoc.
    + exists figures. intro acc. cbn [for_each]. rewrite E.
      cbn [bind try_except]. apply IH.
Qed.

Lemma analyze_article_delta : forall article,
  exists d,
    (forall st, analyze_article st article = Ok (stats_add st d))
    /\ bounded_delta 1 d.
Proof.
  intro article. unfold analyze_article.
  destruct (article_deaths_of_nonneg (combined_text_of article)) as (ad & -> & _).
  destruct (article_injuries_of_nonneg (combined_text_of article)) as (ai & -> & _).
  destruct (append_figures_app
              (Re.findall1 Patterns.economic_pattern (combined_text_of article)))
    as (figures & Hfigures).
  exists {| total_casualties := ad + ai;
            deaths := ad;
            injuries := ai;
            military_incidents :=
              if mentions military_keywords (combined_text_of article) then 1 else 0;
            diplomatic_meetings :=
              if mentions diplomatic_keywords (combined_text_of article) then 1 else 0;
            border_violations :=
              if mentions border_keywords (combined_text_of article) then 1 else 0;
            economic_impact := figures;
            key_developments := 1;
            recent_period := [] |}%Z.
  split.
  - intro st. cbn [bind]. rewrite Hfigures. cbn [bind].
    unfold stats_add. cbn [total_casualties deaths injuries military_incidents
      diplomatic_meetings border_violations economic_impact key_developments
      recent_period].
    do 2 f_equal;
      match goal with
      | |- context [mentions ?ks ?t] => destruct (mentions ks t); lia
      end.
  - unfold bounded_delta. cbn [military_incidents diplomatic_meetings
      border_violations key_developments].
    repeat split;
      try match goal with
      | |- context [mentions ?ks ?t] => destruct (mentions ks t)
      end; lia.
Qed.

Lemma articles_delta : forall articles : list record,
  exists d,
    (forall st, for_each analyze_article articles st = Ok (stats_add st d))
    /\ bounded_delta (len articles) d.
Proof.
  induction articles as [|article articles (d' & IH & Hd')].
  - exists {| total_casualties := 0; deaths := 0; injuries := 0;
              military_incidents := 0; diplomatic_meetings := 0;
              border_violations := 0; economic_impact := [];
              key_developments := 0; recent_period := [] |}%Z.
    split.
    + intros [t d i m dm b e k r]. cbn [for_each]. unfold stats_add.
      cbn [total_casualties deaths injuries military_incidents
        diplomatic_meetings border_violations economic_impact key_developments
        recent_period].
      rewrite !Z.add_0_r, app_nil_r. reflexivity.
    + unfold bounded_delta, len. simpl. lia.
  - destruct (analyze_article_delta article) as (d & Hd & Hone).
    exists (stats_add d d'). split.
    + intro st. cbn [for_each]. rewrite Hd. cbn [bind]. rewrite IH.
      now rewrite stats_add_assoc.
    + unfold bounded_delta, len in *. cbn [List.length].
      unfold stats_add. cbn [military_incidents diplomatic_meetings
        border_violations key_developments]. lia.
Qed.

Lemma for_each_app : forall (X S : Type) (body : S -> X -> result S) xs ys s,
  for_each body (xs ++ ys) s = bind (for_each body xs s) (for_each body ys).
Proof.
  intros X S body. induction xs as [|x xs IH]; intros ys s; simpl.
  - reflexivity.
  - destruct (body s x) as [s'|e]; simpl; [apply IH|reflexivity].
Qed.

(** The loop with its outcome: the counters read, their bounds, and the
    report or the exception that follows. *)
Lemma statistics_counters : forall articles : list record,
  exists st,
    read_articles articles = Ok st
    /\ casualties_add_up st
    /\ key_developments st = len articles
    /\ (0 <= military_incidents st <= len articles)%Z
    /\ (0 <= diplomatic_meetings st <= len articles)%Z
    /\ (0 <= border_violations st <= len articles)%Z
    /\ (average_overflows st = true ->
          extract_conflict_statistics articles = Raise OverflowError)
    /\ (average_overflows st = false ->
          exists report,
            extract_conflict_statistics articles = Ok report
            /\ counters report = st
            /\ diplomatic_activity_level report
               = activity_level (diplomatic_meetings st) 3 1
            /\ conflict_intensity report
               = activity_level (military_incidents st) 4 2).
Proof.
  intro articles.
  destruct (statistics_invariant articles) as (st & Hst & Hinv & _).
  assert (H0 : (0 <= total_casualties st)%Z)
    by (destruct Hinv as [_ Hnonneg]; unfold nonneg_counters in Hnonneg; tauto).
  destruct (statistics_outcome articles st Hst H0) as [Hyes Hno].
  exists st. split; [exact Hst|]. split; [exact Hinv|].
  destruct (articles_delta articles) as (d & Hd & Hk & Hm & Hdip & Hb).
  unfold read_articles in Hst. rewrite Hd in Hst. injection Hst as <-.
  unfold stats_add, initial_stats in *.
  cbn [military_incidents diplomatic_meetings border_violations
       key_developments] in *.
  repeat (split; [lia|]). split; [exact Hyes|exact Hno].
Qed.

(** X1.  The loop counts every article as one key development, and no
    category counter exceeds the number of articles.  The report is
    returned with these counters, unless the average is out of the range of
    the floats and the division raises [OverflowError]. *)
Theorem counters_bounded_by_article_count : forall articles : list record,
  exists st,
    read_articles articles = Ok st
    /\ key_developments st = len articles
    /\ (0 <= military_incidents st <= len articles)%Z
    /\ (0 <= diplomatic_meetings st <= len articles)%Z
    /\ (0 <= border_violations st <= len articles)%Z
    /\ (average_overflows st = true ->
          extract_conflict_statistics articles = Raise OverflowError)
    /\ (average_overflows st = false ->
          exists report,
            extract_conflict_statistics articles = Ok report
            /\ counters report = st).
Proof.
  intro articles.
  destruct (statistics_counters articles)
    as (st & Hst & _ & Hk & Hm & Hdip & Hb & Hyes & Hno).
  exists st. repeat (split; [assumption|]).
  intro H. destruct (Hno H) as (report & Hreport & Hcounters & _). eauto.
Qed.

(** X2.  The counters of a concatenation add up: the loop over
    [first ++ second] ends with the sum of the counters of the two loops,
    its economic figures being those of [first] followed by those of
    [second]; so do the counters of the three reports whenever they are
    returned (the concatenation can overflow where its parts do not). *)
Theorem statistics_of_concatenation : forall first second : list record,
  exists s1 s2,
    read_articles first = Ok s1
    /\ read_articles second = Ok s2
    /\ read_articles (first ++ second) = Ok (stats_add s1 s2)
    /\ forall r1 r2 r,
         extract_conflict_statistics first = Ok r1 ->
         extract_conflict_statistics second = Ok r2 ->
         extract_conflict_statistics (first ++ second) = Ok r ->
         counters r = stats_add (counters r1) (counters r2).
Proof.
  intros first second.
  destruct (articles_delta first) as (d1 & H1 & _).
  destruct (articles_delta second) as (d2 & H2 & _).
  assert (Hsum : read_articles (first ++ second)
                 = Ok (stats_add (stats_add initial_stats d1)
                                 (stats_add initial_stats d2))).
  { unfold read_articles. rewrite for_each_app, H1. cbn [bind]. rewrite H2.
    reflexivity. }
  exists (stats_add initial_stats d1), (stats_add initial_stats d2).
  split; [apply H1|]. split; [apply H2|]. split; [exact Hsum|].
  assert (Hcounters : forall articles st r,
            read_articles articles = Ok st ->
            extract_conflict_statistics articles = Ok r -> counters r = st).
  { intros articles st r Hst Hr. unfold extract_conflict_statistics in Hr.
    rewrite Hst in Hr. cbn [bind] in Hr. unfold report_of in Hr.
    destruct (true_divide _ _); cbn [bind] in Hr; [|discriminate].
    now injection Hr as <-. }
  intros r1 r2 r Hr1 Hr2 Hr.
  rewrite (Hcounters _ _ _ (H1 initial_stats) Hr1).
  rewrite (Hcounters _ _ _ (H2 initial_stats) Hr2).
  exact (Hcounters _ _ _ Hsum Hr).
Qed.

Lemma same_words_combined_text : forall a b,
  same_words a b -> combined_text_of a = combined_text_of b.
Proof.
  intros a b [Htitle Htext]. unfold combined_text_of. now rewrite Htitle, Htext.
Qed.

(** X3.  The statistics read the articles through their lowered title and
    text only, a missing field counting as empty: two lists that agree on
    these, article by article, get the same report. *)
Theorem statistics_ignore_case_and_missing_fields :
  forall first second : list record,
    Forall2 same_words first second ->
    extract_conflict_statistics first = extract_conflict_statistics second.
Proof.
  intros first second H. unfold extract_conflict_statistics, read_articles.
  assert (Hloop : forall st,
            for_each analyze_article first st = for_each analyze_article second st).
  { induction H as [|a b first second Hab _ IH]; intro st; cbn [for_each].
    - reflexivity.
    - unfold analyze_article at 1 3.
      rewrite (same_words_combined_text _ _ Hab).
      match goal with |- bind ?m _ = bind ?m _ => destruct m as [st'|e] end;
        cbn [bind]; [apply IH|reflexivity]. }
  now rewrite Hloop.
Qed.

(** X3 at a record in capitals without text against its lowered form. *)
Lemma statistics_ignore_case_and_missing_fields_witness :
  Forall2 same_words
    [{| title := Some (py "SIX KILLED IN KASHMIR"); text := None;
        url := None; image := None; publish_date := None |}]
    [record_of (plain_article "six killed in kashmir" "")]
  /\ extract_conflict_statistics
       [{| title := Some (py "SIX KILLED IN KASHMIR"); text := None;
           url := None; image := None; publish_date := None |}]
     = extract_conflict_statistics
         [record_of (plain_article "six killed in kashmir" "")].
Proof.
  assert (H : Forall2 same_words
                [{| title := Some (py "SIX KILLED IN KASHMIR"); text := None;
                    url := None; image := None; publish_date := None |}]
                [record_of (plain_article "six killed in kashmir" "")]).
  { repeat constructor. }
  split; [exact H|].
  exact (statistics_ignore_case_and_missing_fields _ _ H).
Defined.

(** X4.  Whenever the report is returned (that is, unless the average
    overflows and [OverflowError] is raised), its two activity levels are
    one of ["High"], ["Moderate"] and ["Low"], and a level needs that many
    articles: conflict intensity is ["High"] only from four articles on and
    above ["Low"] only from two; diplomatic activity is ["High"] only from
    three articles on and above ["Low"] only from one. *)
Theorem activity_levels_need_articles : forall articles : list record,
  exists st,
    read_articles articles = Ok st
    /\ (average_overflows st = true ->
          extract_conflict_statistics articles = Raise OverflowError)
    /\ (average_overflows st = false ->
          exists report,
            extract_conflict_statistics articles = Ok report
            /\ In (conflict_intensity report)
                  [py "High"; py "Moderate"; py "Low"]
            /\ In (diplomatic_activity_level report)
                  [py "High"; py "Moderate"; py "Low"]
            /\ (conflict_intensity report = py "High" ->
                  (4 <= len articles)%Z)
            /\ (conflict_intensity report <> py "Low" ->
                  (2 <= len articles)%Z)
            /\ (diplomatic_activity_level report = py "High" ->
                  (3 <= len articles)%Z)
            /\ (diplomatic_activity_level report <> py "Low" ->
                  (1 <= len articles)%Z)).
Proof.
  intro articles.
  destruct (statistics_counters articles)
    as (st & Hst & _ & Hk & Hm & Hdip & Hb & Hyes & Hno).
  exists st. split; [exact Hst|]. split; [exact Hyes|].
  intro H. destruct (Hno H) as (report & Hreport & _ & Hd & Hc).
  exists report. split; [exact Hreport|]. rewrite Hd, Hc.
  unfold activity_level.
  repeat match goal with
         | |- context [(?a <=? ?b)%Z] => destruct (Z.leb_spec a b)
         end;
    repeat split; intros;
    try lia;
    try (simpl; tauto);
    try (exfalso; match goal with
                  | H : py _ = py _ |- _ => vm_compute in H; discriminate H
                  | H : py _ <> py _ |- _ => now apply H
                  end).
Qed.

(** ** Statistics: the economic figures *)

Lemma nonspace_lstrip : forall c s, is_space c = false -> Str.lstrip (c :: s) = c :: s.
Proof. intros c s H. simpl. now rewrite H. Qed.

Lemma strip_between_nonspaces : forall c s d,
  is_space c = false -> is_space d = false ->
  Str.strip (c :: s ++ [d]) = c :: s ++ [d].
Proof.
  intros c s d Hc Hd. unfold Str.strip, Str.rstrip.
  rewrite (nonspace_lstrip _ _ Hc).
  replace (rev (c :: s ++ [d])) with (d :: rev (c :: s)).
  - rewrite (nonspace_lstrip _ _ Hd).
    change (d :: rev (c :: s)) with ([d] ++ rev (c :: s)).
    rewrite rev_app_distr, rev_involutive. reflexivity.
  - change (c :: s ++ [d]) with ((c :: s) ++ [d]).
    now rewrite rev_app_distr.
Qed.

Lemma strip_single_nonspace : forall c, is_space c = false -> Str.strip [c] = [c].
Proof. intros c H. unfold Str.strip, Str.rstrip. simpl. rewrite H. simpl. now rewrite H. Qed.

Lemma span_digits : forall ip rest,
  all_digits ip ->
  match rest with [] => True | c :: _ => is_digit c = false end ->
  span is_digit (ip ++ rest) = (ip, rest).
Proof.
  intros ip rest Hip Hrest. induction Hip as [|c ip Hc _ IH]; simpl.
  - destruct rest as [|c rest]; [reflexivity|]. simpl. now rewrite Hrest.
  - now rewrite Hc, IH.
Qed.

Lemma digits_nat_nonneg : forall s, (0 <= digits_nat s)%Z.
Proof.
  intro s. unfold digits_nat.
  assert (H : forall acc, (0 <= acc)%Z ->
            (0 <= fold_left (fun acc c => 10 * acc + digit_value c) s acc)%Z).
  { induction s as [|c s IH]; intros acc Hacc; cbn [fold_left]; [exact Hacc|].
    apply IH. pose proof (digit_value_nonneg c). lia. }
  apply H. lia.
Qed.

Lemma last_split : forall (X : Type) (l : list X),
  l <> [] -> exists l' x, l = l' ++ [x].
Proof.
  intros X l H. destruct (exists_last H) as (l' & x & ->). eauto.
Qed.

(** [float] reads every match of the money pattern, as a number that is not
    negative. *)
Lemma float_decimal_number : forall w,
  decimal_number w -> exists x, float w = Ok x /\ Qle 0 x.
Proof.
  intros w (ip & fp & Hne & Hip & Hfp & Hw).
  assert (Hstrip : Str.strip w = w).
  { destruct ip as [|c ip]; [contradiction|].
    inversion Hip as [|? ? Hc Hip']; subst.
    destruct Hw as [->|[Hfpne ->]].
    - destruct ip as [|c' ip']; [apply strip_single_nonspace, digit_not_space, Hc|].
      destruct (last_split _ (c' :: ip')) as (l & d & E); [discriminate|].
      rewrite E. apply strip_between_nonspaces; [now apply digit_not_space|].
      apply digit_not_space.
      rewrite E in Hip'. unfold all_digits in Hip'.
      rewrite Forall_app in Hip'. destruct Hip' as [_ Hd]. now inversion Hd.
    - destruct (last_split _ fp Hfpne) as (l & d & E).
      rewrite E. cbn [app].
      replace (ip ++ 46%N :: l ++ [d]) with ((ip ++ 46%N :: l) ++ [d])
        by (now rewrite <- app_assoc).
      apply strip_between_nonspaces; [now apply digit_not_space|].
      apply digit_not_space.
      rewrite E in Hfp. unfold all_digits in Hfp.
      rewrite Forall_app in Hfp. destruct Hfp as [_ Hd]. now inversion Hd. }
  unfold float. rewrite Hstrip.
  assert (Hsign : split_sign w = (false, w)).
  { destruct ip as [|c ip]; [contradiction|].
    inversion Hip as [|? ? Hc _]; subst.
    destruct (digit_not_sign _ Hc) as [Hplus Hminus].
    destruct Hw as [->|[_ ->]]; cbn [app]; unfold split_sign;
      now rewrite Hplus, Hminus. }
  rewrite Hsign.
  destruct Hw as [->|[Hfpne ->]].
  - pose proof (span_digits ip [] Hip I) as Hspan.
    rewrite app_nil_r in Hspan. rewrite Hspan.
    destruct ip as [|c ip]; [contradiction|].
    eexists. split; [reflexivity|].
    unfold Qle. simpl. pose proof (digits_nat_nonneg (c :: ip)). lia.
  - rewrite (span_digits ip (46%N :: fp) Hip eq_refl).
    destruct ip as [|c ip]; [contradiction|].
    assert (Hall : forallb is_digit fp = true).
    { apply forallb_forall. unfold all_digits in Hfp.
      rewrite Forall_forall in Hfp. exact Hfp. }
    cbv beta iota. rewrite Hall.
    eexists. split; [reflexivity|].
    unfold Qle. cbn [Qnum Qden inject_Z].
    pose proof (digits_nat_nonneg ((c :: ip) ++ fp)). lia.
Qed.

Lemma economic_pattern_groups :
  group_bodies economic_capture Patterns.economic_pattern.
Proof.
  unfold Patterns.economic_pattern.
  apply group_bodies_seqs.
  constructor; [|constructor; [exact I|constructor; [|constructor]]].
  - split; [|simpl; tauto].
    intros w (a & b & -> & [Hne Ha] & Hb). right. exists a.
    destruct Hb as [->|(c & d & -> & -> & Hdne & Hd)].
    + exists []. rewrite app_nil_r. repeat split; auto. constructor.
    + exists d. repeat split; auto.
  - apply group_bodies_alts.
Qed.

Lemma append_figures_nonneg : forall ms figures,
  Forall economic_capture ms ->
  Forall (Qle 0) figures ->
  exists figures', append_figures ms figures = Ok figures'
                   /\ Forall (Qle 0) figures'.
Proof.
  unfold append_figures. intros ms figures Hms. revert figures.
  induction Hms as [|m ms Hm _ IH]; intros figures Hfigures; cbn [for_each].
  - now exists figures.
  - destruct Hm as [->|Hm].
    + change (float []) with (@Raise Q ValueError). cbn [bind try_except].
      now apply IH.
    + destruct (float_decimal_number _ Hm) as (x & -> & Hx).
      cbn [bind try_except]. apply IH.
      apply Forall_app. split; [exact Hfigures|]. now repeat constructor.
Qed.

Lemma analyze_article_figures : forall st article,
  True -> Forall (Qle 0) (economic_impact st) ->
  exists st', analyze_article st article = Ok st'
              /\ Forall (Qle 0) (economic_impact st').
Proof.
  intros st article _ Hst. unfold analyze_article.
  destruct (article_deaths_of_nonneg (combined_text_of article)) as (ad & -> & _).
  destruct (article_injuries_of_nonneg (combined_text_of article)) as (ai & -> & _).
  cbn [bind].
  destruct (append_figures_nonneg
              (Re.findall1 Patterns.economic_pattern (combined_text_of article))
              (economic_impact st)) as (figures & -> & Hfigures).
  - apply findall1_captures; [now left|exact economic_pattern_groups].
  - exact Hst.
  - cbn [bind]. eexists. split; [reflexivity|]. exact Hfigures.
Qed.

(** X5.  Every economic figure collected by the loop is a number that is
    not negative: the money pattern captures digits with at most one dot,
    [float] reads every such capture, and nothing else is appended.  The
    report is returned with these figures, unless the average is out of the
    range of the floats and the division raises [OverflowError]. *)
Theorem economic_figures_not_negative : forall articles : list record,
  exists st,
    read_articles articles = Ok st
    /\ Forall (Qle 0) (economic_impact st)
    /\ (average_overflows st = true ->
          extract_conflict_statistics articles = Raise OverflowError)
    /\ (average_overflows st = false ->
          exists report,
            extract_conflict_statistics articles = Ok report
            /\ economic_impact (counters report) = economic_impact st).
Proof.
  intro articles.
  destruct (statistics_counters articles)
    as (st & Hst & _ & _ & _ & _ & _ & Hyes & Hno).
  exists st. split; [exact Hst|]. split.
  - destruct (for_each_invariant _ _
                (fun st => Forall (Qle 0) (economic_impact st)) (fun _ => True)
                analyze_article analyze_article_figures articles
                (Forall_trivial _ articles) initial_stats (Forall_nil _))
      as (st' & Hst' & Hfigures).
    unfold read_articles in Hst. rewrite Hst in Hst'.
    now injection Hst' as <-.
  - split; [exact Hyes|]. intro H.
    destruct (Hno H) as (report & Hreport & Hcounters & _).
    exists report. now rewrite Hcounters.
Qed.

(** ** Hotspots: every entry is well placed *)

Lemma incident_count_of_bounds : forall text,
  (0 <= incident_count_of text <= len conflict_keywords)%Z.
Proof.
  intro text. unfold incident_count_of.
  assert (H : forall keywords n, (0 <= n)%Z ->
            (0 <= fold_left
                    (fun incident_count keyword =>
                       if Str.contains keyword text
                       then incident_count + 1 else incident_count)
                    keywords n <= n + len keywords)%Z).
  { induction keywords as [|k ks IH]; intros n Hn; cbn [fold_left].
    - unfold len. simpl. lia.
    - unfold len in *. cbn [List.length].
      destruct (Str.contains k text).
      + specialize (IH (n + 1)%Z). lia.
      + specialize (IH n). lia. }
  specialize (H conflict_keywords 0%Z). lia.
Qed.

Lemma intensity_of_cases : forall n,
  In (intensity_of n) [py "low"; py "medium"; py "high"].
Proof.
  intro n. unfold intensity_of.
  destruct (3 <=? n)%Z; [simpl; tauto|].
  destruct (1 <=? n)%Z; simpl; tauto.
Qed.

Lemma update_hotspot_well_placed : forall text h,
  well_placed h ->
  well_placed (update_hotspot (intensity_of (incident_count_of text))
                              (incident_count_of text) h).
Proof.
  intros text h (Hplace & Hintensity & Hcount).
  unfold well_placed, update_hotspot.
  cbn [Hotspot.name Hotspot.lat Hotspot.lng Hotspot.type Hotspot.intensity
       Hotspot.incidents].
  split; [exact Hplace|]. split.
  - match goal with |- context [if ?b then _ else _] => destruct b end;
      [apply intensity_of_cases|exact Hintensity].
  - pose proof (incident_count_of_bounds text). lia.
Qed.

Lemma hotspot_of_well_placed : forall key data peak total,
  In (key, data) known_locations -> (0 <= total)%Z ->
  well_placed (hotspot_of data peak total).
Proof.
  intros key data peak total Hin Htotal. unfold well_placed, hotspot_of.
  cbn [Hotspot.name Hotspot.lat Hotspot.lng Hotspot.type Hotspot.intensity
       Hotspot.incidents].
  split; [exists key, data; repeat split; auto|].
  split; [apply intensity_of_cases|exact Htotal].
Qed.

Lemma update_existing_Forall : forall (P : Hotspot.t -> Prop) name f hotspots hotspots',
  (forall h, P h -> P (f h)) -> Forall P hotspots ->
  update_existing name f hotspots = Some hotspots' -> Forall P hotspots'.
Proof.
  intros P name f hotspots hotspots' Hf H. revert hotspots'.
  induction H as [|h rest Hh Hrest IH]; simpl; intros hotspots' E.
  - discriminate.
  - destruct (str_eqb (Hotspot.name h) name).
    + injection E as <-. constructor; auto.
    + destruct (update_existing name f rest) as [rest'|]; [|discriminate].
      injection E as <-. constructor; auto.
Qed.

Lemma visit_location_well_placed : forall text hotspots entry,
  In entry known_locations ->
  Forall well_placed hotspots ->
  Forall well_placed (visit_location text hotspots entry).
Proof.
  intros text hotspots [key data] Hin H. unfold visit_location.
  destruct (Str.contains key text); [|exact H].
  destruct (update_existing _ _ hotspots) as [hotspots'|] eqn:E.
  - eapply update_existing_Forall; [|exact H|exact E].
    intros h Hh. now apply update_hotspot_well_placed.
  - apply Forall_app. split; [exact H|]. constructor; [|constructor].
    apply (hotspot_of_well_placed key data (incident_count_of text)
                                  (incident_count_of text) Hin).
    apply incident_count_of_bounds.
Qed.

Lemma visit_article_well_placed : forall hotspots article,
  has_shape article -> Forall well_placed hotspots ->
  exists hotspots', visit_article hotspots article = Ok hotspots'
                    /\ Forall well_placed hotspots'.
Proof.
  intros hotspots article (t & x & Ht & Hx) H. unfold visit_article.
  rewrite Ht, Hx. cbn [getitem bind]. eexists. split; [reflexivity|].
  generalize (Str.lower (t ++ py " " ++ x)). intro text.
  assert (Hall : forall entries, incl entries known_locations ->
            forall hotspots, Forall well_placed hotspots ->
            Forall well_placed (fold_left (visit_location text) entries hotspots)).
  { induction entries as [|entry entries IH]; intros Hincl hs Hhs; simpl.
    - exact Hhs.
    - apply IH.
      + intros e He. apply Hincl. now right.
      + apply visit_location_well_placed; [|exact Hhs]. apply Hincl. now left. }
  apply Hall; [apply incl_refl|exact H].
Qed.

Lemma default_hotspots_well_placed : Forall well_placed default_hotspots.
Proof.
  unfold default_hotspots.
  constructor; [|constructor; [|constructor; [|constructor]]];
    (split; [|split; [simpl; intuition|simpl; lia]]).
  - exists (py "kashmir"). eexists. split; [left; reflexivity|].
    repeat split; reflexivity.
  - exists (py "loc"). eexists. split; [right; left; reflexivity|].
    repeat split; reflexivity.
  - exists (py "balochistan"). eexists.
    split; [do 7 right; left; reflexivity|].
    repeat split; reflexivity.
Qed.

Lemma backfill_app : forall existing defaults hotspots,
  exists added,
    fold_left
      (fun hotspots default_hotspot =>
         if name_in (Hotspot.name default_hotspot) existing
         then hotspots
         else hotspots ++ [default_hotspot])
      defaults hotspots = hotspots ++ added
    /\ incl added defaults
    /\ Forall (fun d => ~ In (Hotspot.name d) existing) added.
Proof.
  intros existing. induction defaults as [|d defaults IH]; intro hotspots; simpl.
  - exists []. rewrite app_nil_r. repeat split; [apply incl_refl|constructor].
  - destruct (name_in (Hotspot.name d) existing) eqn:E.
    + destruct (IH hotspots) as (added & -> & Hincl & Hfresh).
      exists added. repeat split; auto. now apply incl_tl.
    + destruct (IH (hotspots ++ [d])) as (added & -> & Hincl & Hfresh).
      exists (d :: added). rewrite <- app_assoc. repeat split; auto.
      * apply incl_cons; [now left|now apply incl_tl].
      * constructor; [|exact Hfresh].
        intro Hin. apply name_in_spec in Hin. congruence.
Qed.

Lemma hotspots_all_well_placed : forall articles : list Article,
  exists hotspots,
    extract_geographic_hotspots (List.map record_of articles) = Ok hotspots
    /\ Forall well_placed hotspots.
Proof.
  intro articles. unfold extract_geographic_hotspots.
  destruct (for_each_invariant _ _ (Forall well_placed) has_shape visit_article
              visit_article_well_placed _ (records_have_shape articles) []
              (Forall_nil _)) as (found & -> & Hfound).
  cbn [bind]. destruct found as [|h rest].
  - eexists. split; [reflexivity|exact default_hotspots_well_placed].
  - eexists. split; [reflexivity|].
    destruct (backfill_app (List.map Hotspot.name (h :: rest)) default_hotspots
                (h :: rest)) as (added & -> & Hincl & _).
    apply Forall_app. split; [exact Hfound|].
    apply Forall_forall. intros d Hd.
    pose proof default_hotspots_well_placed as Hdefaults.
    rewrite Forall_forall in Hdefaults. apply Hdefaults. now apply Hincl.
Qed.

(** X6.  Every hotspot returned carries the coordinates and the type the
    gazetteer gives for its name, an intensity among ["low"], ["medium"] and
    ["high"], and an incident count that is not negative. *)
Theorem hotspots_are_well_placed : forall articles : list Article,
  exists hotspots,
    extract_geographic_hotspots (List.map record_of articles) = Ok hotspots
    /\ Forall well_placed hotspots.
Proof. exact hotspots_all_well_placed. Qed.

Lemma known_locations_names_distinct :
  NoDup (List.map (fun entry => Location.name (snd entry)) known_locations).
Proof.
  vm_compute. repeat constructor; simpl; intuition discriminate.
Qed.

(** X7.  The result holds at least three hotspots and at most ten, the size
    of the gazetteer. *)
Theorem hotspots_between_three_and_ten : forall articles : list Article,
  exists hotspots,
    extract_geographic_hotspots (List.map record_of articles) = Ok hotspots
    /\ (3 <= len hotspots <= 10)%Z.
Proof.
  intro articles.
  destruct (hotspots_distinct_with_defaults articles)
    as (hotspots & H & Hdistinct & Hdefaults).
  destruct (hotspots_all_well_placed articles) as (hotspots' & H' & Hplaced).
  rewrite H in H'. injection H' as <-.
  exists hotspots. split; [exact H|].
  unfold len. rewrite <- (length_map Hotspot.name).
  split.
  - assert (Hincl : incl (List.map Hotspot.name default_hotspots)
                         (List.map Hotspot.name hotspots)).
    { intros n Hn. now apply Hdefaults. }
    apply (NoDup_incl_length default_hotspots_distinct) in Hincl.
    simpl in Hincl. lia.
  - assert (Hincl : incl (List.map Hotspot.name hotspots)
                         (List.map (fun entry => Location.name (snd entry))
                                   known_locations)).
    { intros n Hn. apply in_map_iff in Hn. destruct Hn as (h & <- & Hh).
      rewrite Forall_forall in Hplaced.
      destruct (Hplaced h Hh) as ((key & data & Hin & -> & _) & _).
      apply in_map_iff. exists (key, data). split; [reflexivity|exact Hin]. }
    apply (NoDup_incl_length Hdistinct) in Hincl.
    assert (Hten : List.length
                     (List.map (fun entry => Location.name (snd entry))
                               known_locations) = 10%nat) by reflexivity.
    rewrite Hten in Hincl. lia.
Qed.

(** ** Hotspots: what is reported for each location *)

Lemma find_hotspot_In : forall name hotspots h,
  find_hotspot name hotspots = Some h -> In h hotspots /\ Hotspot.name h = name.
Proof.
  intros name. induction hotspots as [|x rest IH]; simpl; intros h H.
  - discriminate.
  - destruct (str_eqb (Hotspot.name x) name) eqn:E.
    + injection H as <-. apply str_eqb_eq in E. split; [now left|exact E].
    + destruct (IH _ H) as [Hin Hname]. split; [now right|exact Hname].
Qed.

Lemma find_hotspot_None : forall name hotspots,
  find_hotspot name hotspots = None <-> ~ In name (List.map Hotspot.name hotspots).
Proof.
  intros name. induction hotspots as [|x rest IH]; simpl.
  - split; [intros _ []|reflexivity].
  - destruct (str_eqb (Hotspot.name x) name) eqn:E.
    + apply str_eqb_eq in E. split; [discriminate|]. intro H. exfalso. apply H. now left.
    + apply str_eqb_neq in E. rewrite IH. split.
      * intros H [Hx|Hin]; [contradiction|now apply H].
      * intros H Hin. apply H. now right.
Qed.

Lemma find_hotspot_app : forall name hotspots more,
  find_hotspot name (hotspots ++ more)
  = match find_hotspot name hotspots with
    | Some h => Some h
    | None => find_hotspot name more
    end.
Proof.
  intros name hotspots more. induction hotspots as [|x rest IH]; simpl.
  - reflexivity.
  - destruct (str_eqb (Hotspot.name x) name); [reflexivity|exact IH].
Qed.

Lemma update_existing_find : forall name f hotspots,
  (forall h, Hotspot.name (f h) = Hotspot.name h) ->
  match find_hotspot name hotspots with
  | Some h =>
      exists hotspots',
        update_existing name f hotspots = Some hotspots'
        /\ find_hotspot name hotspots' = Some (f h)
        /\ forall other, other <> name ->
             find_hotspot other hotspots' = find_hotspot other hotspots
  | None => update_existing name f hotspots = None
  end.
Proof.
  intros name f hotspots Hf. induction hotspots as [|x rest IH]; simpl.
  - reflexivity.
  - destruct (str_eqb (Hotspot.name x) name) eqn:E.
    + eexists. split; [reflexivity|]. simpl. rewrite Hf, E. split; [reflexivity|].
      intros other Hother.
      apply str_eqb_eq in E. rewrite E.
      destruct (str_eqb name other) eqn:E'; [|reflexivity].
      apply str_eqb_eq in E'. congruence.
    + destruct (find_hotspot name rest) as [h|].
      * destruct IH as (rest' & -> & Hfind & Hother).
        eexists. split; [reflexivity|]. simpl. rewrite E. split; [exact Hfind|].
        intros other Hne. rewrite (Hother _ Hne). reflexivity.
      * now rewrite IH.
Qed.

Lemma visit_location_find : forall text hotspots key data,
  find_hotspot (Location.name data) (visit_location text hotspots (key, data))
  = location_step key data text (find_hotspot (Location.name data) hotspots)
  /\ forall other, other <> Location.name data ->
       find_hotspot other (visit_location text hotspots (key, data))
       = find_hotspot other hotspots.
Proof.
  intros text hotspots key data. unfold visit_location, location_step.
  destruct (Str.contains key text); [|split; reflexivity].
  pose proof (update_existing_find (Location.name data)
                (update_hotspot (intensity_of (incident_count_of text))
                                (incident_count_of text))
                hotspots (fun h => eq_refl)) as H.
  destruct (find_hotspot (Location.name data) hotspots) as [h|] eqn:E.
  - destruct H as (hotspots' & -> & Hfind & Hother). split; [exact Hfind|exact Hother].
  - rewrite H. split.
    + rewrite find_hotspot_app, E. simpl. now rewrite str_eqb_refl.
    + intros other Hother. rewrite find_hotspot_app. simpl.
      destruct (str_eqb (Location.name data) other) eqn:E'.
      * apply str_eqb_eq in E'. congruence.
      * now destruct (find_hotspot other hotspots).
Qed.

Lemma visit_locations_find : forall text entries data,
  NoDup (List.map (fun entry => Location.name (snd entry)) entries) ->
  forall hotspots,
    find_hotspot (Location.name data)
                 (fold_left (visit_location text) entries hotspots)
    = match find (fun entry => str_eqb (Location.name (snd entry))
                                       (Location.name data)) entries with
      | Some (key', data') =>
          location_step key' data' text
            (find_hotspot (Location.name data) hotspots)
      | None => find_hotspot (Location.name data) hotspots
      end.
Proof.
  intros text entries data. induction entries as [|[k d] entries IH];
    intros Hnodup hotspots; cbn [fold_left find snd].
  - reflexivity.
  - cbn [List.map snd] in Hnodup.
    apply NoDup_cons_iff in Hnodup. destruct Hnodup as [Hfresh Hrest].
    rewrite (IH Hrest).
    destruct (visit_location_find text hotspots k d) as [Hsame Hother].
    destruct (str_eqb (Location.name d) (Location.name data)) eqn:E.
    + apply str_eqb_eq in E.
      assert (Hnone : find (fun entry => str_eqb (Location.name (snd entry))
                                                 (Location.name data)) entries
                      = None).
      { destruct (find _ entries) as [e|] eqn:Ex; [|reflexivity].
        apply find_some in Ex. destruct Ex as [He Hname].
        apply str_eqb_eq in Hname. exfalso. apply Hfresh.
        apply in_map_iff. exists e. split; [congruence|exact He]. }
      rewrite Hnone. rewrite <- E. exact Hsame.
    + apply str_eqb_neq in E.
      rewrite (Hother (Location.name data)) by congruence.
      reflexivity.
Qed.

Lemma known_location_found : forall key data,
  In (key, data) known_locations ->
  find (fun entry => str_eqb (Location.name (snd entry)) (Location.name data))
       known_locations = Some (key, data).
Proof.
  intros key data Hin. unfold known_locations in Hin. simpl in Hin.
  repeat (destruct Hin as [Hin|Hin];
          [injection Hin as <- <-; reflexivity|]).
  destruct Hin.
Qed.

Lemma visit_article_find : forall key data hotspots (a : Article),
  In (key, data) known_locations ->
  exists hotspots',
    visit_article hotspots (record_of a) = Ok hotspots'
    /\ find_hotspot (Location.name data) hotspots'
       = location_step key data (article_text_of a)
           (find_hotspot (Location.name data) hotspots).
Proof.
  intros key data hotspots a Hin. unfold visit_article, record_of.
  cbn [title text getitem bind].
  eexists. split; [reflexivity|].
  fold (article_text_of a).
  rewrite (visit_locations_find _ _ data known_locations_names_distinct).
  rewrite (known_location_found key data Hin).
  reflexivity.
Qed.

Lemma visit_articles_find : forall key data (articles : list Article) hotspots,
  In (key, data) known_locations ->
  exists hotspots',
    for_each visit_article (List.map record_of articles) hotspots = Ok hotspots'
    /\ find_hotspot (Location.name data) hotspots'
       = fold_left (fun state a => location_step key data (article_text_of a) state)
                   articles (find_hotspot (Location.name data) hotspots).
Proof.
  intros key data articles hotspots Hin. revert hotspots.
  induction articles as [|a articles IH]; intro hotspots; cbn [List.map for_each fold_left].
  - now exists hotspots.
  - destruct (visit_article_find key data hotspots a Hin) as (h1 & -> & H1).
    cbn [bind]. destruct (IH h1) as (h2 & -> & H2).
    exists h2. split; [reflexivity|]. now rewrite H2, H1.
Qed.

Lemma intensity_upgrade : forall peak count existing,
  (0 <= peak)%Z -> (0 <= count)%Z ->
  Hotspot.intensity existing = intensity_of peak ->
  Hotspot.intensity (update_hotspot (intensity_of count) count existing)
  = intensity_of (Z.max peak count).
Proof.
  intros peak count existing Hpeak Hcount Hexisting.
  unfold update_hotspot. cbn [Hotspot.intensity]. rewrite Hexisting.
  unfold intensity_of.
  repeat match goal with
         | |- context [(?a <=? ?b)%Z] => destruct (Z.leb_spec a b)
         end; try lia; reflexivity.
Qed.

Lemma location_steps_seen : forall key data (articles : list Article) peak total,
  (0 <= peak)%Z ->
  fold_left (fun state a => location_step key data (article_text_of a) state)
            articles (Some (hotspot_of data peak total))
  = Some (hotspot_of data
            (fold_left (fun n text => Z.max n (incident_count_of text))
                       (mentioning key articles) peak)
            (fold_left (fun n text => (n + incident_count_of text)%Z)
                       (mentioning key articles) total)).
Proof.
  intros key data. unfold mentioning.
  induction articles as [|a articles IH]; intros peak total Hpeak;
    cbn [fold_left List.map List.filter].
  - reflexivity.
  - unfold location_step at 2.
    destruct (Str.contains key (article_text_of a)); [|now apply IH].
    cbn [fold_left].
    pose proof (incident_count_of_bounds (article_text_of a)) as Hcount.
    rewrite <- IH by lia. f_equal. f_equal.
    unfold hotspot_of at 2.
    pose proof (intensity_upgrade peak (incident_count_of (article_text_of a))
                  (hotspot_of data peak total) Hpeak (proj1 Hcount) eq_refl) as Hup.
    unfold update_hotspot in *. cbn [Hotspot.intensity] in Hup.
    cbn [hotspot_of Hotspot.name Hotspot.lat Hotspot.lng Hotspot.type
         Hotspot.intensity Hotspot.incidents Hotspot.description].
    unfold hotspot_of. cbn [Hotspot.name Hotspot.lat Hotspot.lng Hotspot.type
         Hotspot.intensity Hotspot.incidents Hotspot.description].
    f_equal. exact Hup.
Qed.

Lemma location_steps_unseen : forall key data (articles : list Article),
  fold_left (fun state a => location_step key data (article_text_of a) state)
            articles None
  = match mentioning key articles with
    | [] => None
    | texts => Some (detected_hotspot data texts)
    end.
Proof.
  intros key data. unfold mentioning.
  induction articles as [|a articles IH]; cbn [fold_left List.map List.filter].
  - reflexivity.
  - unfold location_step at 2.
    destruct (Str.contains key (article_text_of a)) eqn:E; [|exact IH].
    pose proof (incident_count_of_bounds (article_text_of a)) as Hcount.
    rewrite location_steps_seen by lia.
    unfold detected_hotspot, peak_incidents, total_incidents, mentioning.
    cbn [fold_left].
    rewrite Z.max_r by lia. reflexivity.
Qed.

Lemma detected_in_result : forall (articles : list Article) key data,
  In (key, data) known_locations ->
  exists hotspots,
    extract_geographic_hotspots (List.map record_of articles) = Ok hotspots
    /\ match mentioning key articles with
       | [] => forall h, In h hotspots ->
                 Hotspot.name h = Location.name data -> In h default_hotspots
       | texts => In (detected_hotspot data texts) hotspots
       end.
Proof.
  intros articles key data Hin. unfold extract_geographic_hotspots.
  destruct (visit_articles_find key data articles [] Hin) as (found & -> & Hfind).
  cbn [bind]. simpl find_hotspot in Hfind.
  rewrite location_steps_unseen in Hfind.
  destruct found as [|h rest].
  - eexists. split; [reflexivity|].
    destruct (mentioning key articles); [auto|discriminate].
  - eexists. split; [reflexivity|].
    destruct (backfill_app (List.map Hotspot.name (h :: rest)) default_hotspots
                (h :: rest)) as (added & -> & Hincl & Hfresh).
    destruct (mentioning key articles) as [|t ts].
    + intros x Hx Hname. apply in_app_or in Hx. destruct Hx as [Hx|Hx].
      * exfalso. apply find_hotspot_None in Hfind. apply Hfind.
        rewrite <- Hname. now apply in_map.
      * now apply Hincl.
    + apply in_or_app. left. now apply find_hotspot_In in Hfind.
Qed.

(** X8.  For a location of the gazetteer whose key occurs in the lowered
    title and text of at least one article, the result holds the hotspot of
    that location with the sum of the incident counts of the articles that
    mention it, the intensity of the largest of these counts, and the
    generated description; no other hotspot has its name. *)
Theorem mentioned_location_accumulates :
  forall (articles : list Article) key data,
    In (key, data) known_locations ->
    mentioning key articles <> [] ->
    exists hotspots,
      extract_geographic_hotspots (List.map record_of articles) = Ok hotspots
      /\ In (detected_hotspot data (mentioning key articles)) hotspots
      /\ forall h, In h hotspots -> Hotspot.name h = Location.name data ->
           h = detected_hotspot data (mentioning key articles).
Proof.
  intros articles key data Hin Hmentioned.
  destruct (detected_in_result articles key data Hin) as (hotspots & H & Hdetected).
  destruct (hotspots_distinct_with_defaults articles) as (hotspots' & H' & Hdistinct & _).
  rewrite H in H'. injection H' as <-.
  exists hotspots. split; [exact H|].
  destruct (mentioning key articles) as [|t ts] eqn:E; [contradiction|].
  split; [exact Hdetected|].
  intros h Hh Hname.
  assert (Huniq : forall l : list Hotspot.t,
            NoDup (List.map Hotspot.name l) ->
            forall x y, In x l -> In y l -> Hotspot.name x = Hotspot.name y -> x = y).
  { induction l as [|z l IHl]; intros Hnd x y Hx Hy Hxy; [destruct Hx|].
    simpl in Hnd. apply NoDup_cons_iff in Hnd. destruct Hnd as [Hz Hnd].
    destruct Hx as [<-|Hx], Hy as [<-|Hy].
    - reflexivity.
    - exfalso. apply Hz. rewrite Hxy. now apply in_map.
    - exfalso. apply Hz. rewrite <- Hxy. now apply in_map.
    - now apply IHl. }
  apply (Huniq hotspots Hdistinct); auto.
Qed.

(** X8 at two articles that mention Lahore. *)
Lemma mentioned_location_accumulates_witness :
  In (py "lahore",
      {| Location.lat := 31.5497%Q; Location.lng := 74.3436%Q;
         Location.name := py "Lahore"; Location.type := py "city" |})
     known_locations
  /\ mentioning (py "lahore")
       [plain_article "Blast in Lahore" "A bomb blast killed two";
        plain_article "Talks" "Officials met in Lahore after the attack"] <> []
  /\ exists hotspots,
       extract_geographic_hotspots
         (List.map record_of
            [plain_article "Blast in Lahore" "A bomb blast killed two";
             plain_article "Talks" "Officials met in Lahore after the attack"])
         = Ok hotspots
       /\ In (detected_hotspot
                {| Location.lat := 31.5497%Q; Location.lng := 74.3436%Q;
                   Location.name := py "Lahore"; Location.type := py "city" |}
                (mentioning (py "lahore")
                   [plain_article "Blast in Lahore" "A bomb blast killed two";
                    plain_article "Talks" "Officials met in Lahore after the attack"]))
             hotspots.
Proof.
  assert (Hin : In (py "lahore",
                    {| Location.lat := 31.5497%Q; Location.lng := 74.3436%Q;
                       Location.name := py "Lahore"; Location.type := py "city" |})
                   known_locations).
  { do 4 right. left. reflexivity. }
  assert (Hne : mentioning (py "lahore")
                  [plain_article "Blast in Lahore" "A bomb blast killed two";
                   plain_article "Talks" "Officials met in Lahore after the attack"]
                <> []).
  { vm_compute. discriminate. }
  split; [exact Hin|]. split; [exact Hne|].
  destruct (mentioned_location_accumulates _ _ _ Hin Hne) as (hotspots & H & Hd & _).
  exists hotspots. split; [exact H|exact Hd].
Defined.

(** X9.  For a location of the gazetteer whose key occurs in no article, a
    hotspot of its name is in the result only as one of the three default
    hotspots, unchanged. *)
Theorem unmentioned_location_is_default_or_absent :
  forall (articles : list Article) key data,
    In (key, data) known_locations ->
    mentioning key articles = [] ->
    exists hotspots,
      extract_geographic_hotspots (List.map record_of articles) = Ok hotspots
      /\ forall h, In h hotspots -> Hotspot.name h = Location.name data ->
           In h default_hotspots.
Proof.
  intros articles key data Hin Hnone.
  destruct (detected_in_result articles key data Hin) as (hotspots & H & Hdetected).
  rewrite Hnone in Hdetected. exists hotspots. split; [exact H|exact Hdetected].
Qed.

(** X9 at an article that mentions Lahore only, for Karachi. *)
Lemma unmentioned_location_is_default_or_absent_witness :
  In (py "karachi",
      {| Location.lat := 24.8607%Q; Location.lng := 67.0011%Q;
         Location.name := py "Karachi"; Location.type := py "city" |})
     known_locations
  /\ mentioning (py "karachi")
       [plain_article "Blast in Lahore" "A bomb blast killed two"] = []
  /\ exists hotspots,
       extract_geographic_hotspots
         (List.map record_of
            [plain_article "Blast in Lahore" "A bomb blast killed two"])
         = Ok hotspots
       /\ forall h, In h hotspots -> Hotspot.name h = py "Karachi" ->
            In h default_hotspots.
Proof.
  assert (Hin : In (py "karachi",
                    {| Location.lat := 24.8607%Q; Location.lng := 67.0011%Q;
                       Location.name := py "Karachi"; Location.type := py "city" |})
                   known_locations).
  { do 2 right. left. reflexivity. }
  assert (Hnone : mentioning (py "karachi")
                    [plain_article "Blast in Lahore" "A bomb blast killed two"] = []).
  { vm_compute. reflexivity. }
  split; [exact Hin|]. split; [exact Hnone|].
  exact (unmentioned_location_is_default_or_absent _ _ _ Hin Hnone).
Defined.

(** ** Keywords: weights, frequencies and where the entries come from *)

Lemma count_from_nonneg : forall sub s skip, (0 <= Str.count_from sub s skip)%Z.
Proof.
  intros sub. induction s as [|c s IH]; intro skip; cbn [Str.count_from]; [lia|].
  destruct skip; [|apply IH].
  destruct (Str.startswith (c :: s) sub); [|apply IH].
  specialize (IH (List.length sub - 1)%nat). lia.
Qed.

Lemma count_nonneg : forall s sub, (0 <= Str.count s sub)%Z.
Proof.
  intros s [|c sub]; unfold Str.count; [lia|apply count_from_nonneg].
Qed.

Lemma min_100_le : forall x, Qle (min_100 x) 100.
Proof.
  intro x. unfold min_100. destruct (Qltb 100 x) eqn:E.
  - apply Qle_refl.
  - now apply Qltb_false in E.
Qed.

Lemma min_100_nonneg : forall x, Qle 0 x -> Qle 0 (min_100 x).
Proof.
  intros x Hx. unfold min_100. destruct (Qltb 100 x); [|exact Hx].
  unfold Qle. simpl. lia.
Qed.

Lemma boosts_positive : forall keyword boost,
  dict_get important_keywords_boost keyword = Some boost -> Qle 0 boost.
Proof.
  intros keyword boost.
  assert (H : Forall (fun entry : str * Q => Qle 0 (snd entry))
                     important_keywords_boost).
  { unfold important_keywords_boost. apply Forall_map.
    repeat constructor; unfold Qle; simpl; lia. }
  induction H as [|[k v] d Hv _ IH]; simpl; intro E.
  - discriminate.
  - destruct (str_eqb keyword k); [now injection E as <-|now apply IH].
Qed.

Lemma keyword_entry_spec : forall all_text keyword score k,
  keyword_entry all_text (keyword, score) = Some k ->
  entry_of_feature all_text keyword k
  /\ Qle (Keyword.weight k) 100
  /\ (0 <= Keyword.frequency k)%Z
  /\ (Qle 0 score -> Qle 0 (Keyword.weight k)).
Proof.
  intros all_text keyword score k. unfold keyword_entry.
  destruct (name_in (Str.lower keyword) custom_stop_words) eqn:Hstop; [discriminate|].
  destruct (Z.ltb_spec (len keyword) 3); [discriminate|].
  destruct (Str.isdigit keyword) eqn:Hdigit; [discriminate|].
  assert (Hboost : Qle 0 score ->
            Qle 0 (match dict_get important_keywords_boost (Str.lower keyword) with
                   | Some boost => score * boost
                   | None => score
                   end)%Q).
  { intro Hscore.
    destruct (dict_get important_keywords_boost (Str.lower keyword)) as [boost|] eqn:B;
      [|exact Hscore].
    apply Qmult_le_0_compat; [exact Hscore|]. eapply boosts_positive; exact B. }
  set (boosted := (match dict_get important_keywords_boost (Str.lower keyword) with
                   | Some boost => score * boost
                   | None => score
                   end)%Q) in *.
  clearbody boosted.
  pose proof (count_nonneg (Str.lower all_text) (Str.lower keyword)) as Hcount.
  set (frequency := Str.count (Str.lower all_text) (Str.lower keyword)) in *.
  intro E. injection E as <-.
  cbn [Keyword.text Keyword.weight Keyword.frequency].
  split; [|split; [apply min_100_le|split; [exact Hcount|]]].
  - unfold entry_of_feature, kept_feature.
    cbn [Keyword.text Keyword.frequency]. repeat split; auto.
  - intro Hscore. apply min_100_nonneg.
    apply Qmult_le_0_compat; [|unfold Qle; simpl; lia].
    apply Qmult_le_0_compat; [now apply Hboost|].
    clearbody frequency.
    assert (Hx : Qle 0 (inject_Z frequency * 0.1)).
    { apply Qmult_le_0_compat; [|unfold Qle; simpl; lia].
      unfold Qle, inject_Z. cbn [Qnum Qden]. lia. }
    apply Qle_trans with (0 + 0)%Q; [unfold Qle; simpl; lia|].
    apply Qplus_le_compat; [unfold Qle; simpl; lia|exact Hx].
Qed.

Lemma sort_desc_In : forall (X : Type) (ltb : X -> X -> bool) l x,
  In x (sort_desc ltb l) -> In x l.
Proof.
  intros X ltb l x H.
  eapply Permutation_in; [|exact H]. symmetry. apply sort_desc_perm.
Qed.

Lemma slice_to_In : forall (X : Type) (l : list X) n x,
  In x (Str.slice_to l n) -> In x l.
Proof.
  intros X l n x. unfold Str.slice_to.
  destruct (n <? 0)%Z; apply firstn_In.
Qed.

Lemma fallback_keywords_bounds :
  Forall (fun k => Qle 0 (Keyword.weight k) /\ Qle (Keyword.weight k) 100
                   /\ (0 <= Keyword.frequency k)%Z) fallback_keywords.
Proof.
  unfold fallback_keywords.
  repeat constructor; unfold Qle; simpl; lia.
Qed.

(** The keywords as the loop, the sort and the slice leave them. *)
Lemma trending_keywords_from_features :
  forall all_text features max_keywords k,
    In k (Str.slice_to
            (sort_desc weight_ltb
               (flat_map
                  (fun feature =>
                     match keyword_entry all_text feature with
                     | Some entry => [entry]
                     | None => []
                     end)
                  features))
            max_keywords) ->
    exists keyword score,
      In (keyword, score) features
      /\ keyword_entry all_text (keyword, score) = Some k.
Proof.
  intros all_text features max_keywords k H.
  apply slice_to_In, sort_desc_In, in_flat_map in H.
  destruct H as ([keyword score] & Hin & Hk).
  exists keyword, score. split; [exact Hin|].
  destruct (keyword_entry all_text (keyword, score)) as [entry|]; [|destruct Hk].
  destruct Hk as [<-|[]]. reflexivity.
Qed.

(** X10.  The keyword list is never empty, no weight exceeds 100 and no
    frequency is negative; when the vectorizer gives no negative score, no
    weight is negative either. *)
Theorem keywords_never_empty_and_bounded :
  forall tfidf_document (articles : list Article) max_keywords,
  exists keywords,
    extract_trending_keywords tfidf_document (List.map record_of articles)
                              max_keywords = Ok keywords
    /\ keywords <> []
    /\ Forall (fun k => Qle (Keyword.weight k) 100
                        /\ (0 <= Keyword.frequency k)%Z) keywords
    /\ (scores_not_negative tfidf_document ->
        Forall (fun k => Qle 0 (Keyword.weight k)) keywords).
Proof.
  intros tfidf_document articles max_keywords.
  unfold extract_trending_keywords.
  destruct (all_text_of_ok articles) as (all_text & ->). cbn [bind].
  assert (Hfallback :
            exists keywords, Ok fallback_keywords = Ok keywords
              /\ keywords <> []
              /\ Forall (fun k => Qle (Keyword.weight k) 100
                                  /\ (0 <= Keyword.frequency k)%Z) keywords
              /\ (scores_not_negative tfidf_document ->
                  Forall (fun k => Qle 0 (Keyword.weight k)) keywords)).
  { exists fallback_keywords. split; [reflexivity|].
    split; [discriminate|].
    split; [|intros _]; eapply Forall_impl; try exact fallback_keywords_bounds;
      cbv beta; intros k Hk; tauto. }
  destruct (len (Str.strip all_text) <? 100)%Z; [exact Hfallback|].
  destruct (tfidf_document all_text) as [features|e] eqn:Hfeatures;
    cbn [bind try_except]; [|exact Hfallback].
  match goal with
  | |- context [Str.slice_to ?sorted max_keywords] =>
      pose proof (trending_keywords_from_features all_text features max_keywords)
        as Hfrom;
      destruct (Str.slice_to sorted max_keywords) as [|k ks] eqn:Hslice
  end.
  - exact Hfallback.
  - eexists. split; [reflexivity|]. split; [discriminate|].
    split; [|intro Hscores; specialize (Hscores _ _ Hfeatures);
             rewrite Forall_forall in Hscores];
      apply Forall_forall; intros x Hx;
      destruct (Hfrom x Hx) as (keyword & score & Hin & Hentry);
      destruct (keyword_entry_spec _ _ _ _ Hentry) as (_ & Hle & Hfreq & Hpos).
    + now split.
    + apply Hpos. exact (Hscores _ Hin).
Qed.

(** X11.  The keywords are the fallback list, or the vectorizer has
    returned features for a text of 100 characters or more and every keyword
    stands for one of them that is not a custom stop word, has three
    characters or more and is not a number; its text is the title-cased
    feature and its frequency the number of occurrences of the lowered
    feature in the lowered text. *)
Theorem keywords_come_from_kept_features :
  forall tfidf_document (articles : list Article) max_keywords,
  exists keywords,
    extract_trending_keywords tfidf_document (List.map record_of articles)
                              max_keywords = Ok keywords
    /\ (keywords = fallback_keywords
        \/ exists all_text features,
             all_text_of (List.map record_of articles) = Ok all_text
             /\ (100 <= len (Str.strip all_text))%Z
             /\ tfidf_document all_text = Ok features
             /\ Forall (fun k => exists keyword score,
                                   In (keyword, score) features
                                   /\ entry_of_feature all_text keyword k)
                       keywords).
Proof.
  intros tfidf_document articles max_keywords.
  unfold extract_trending_keywords.
  destruct (all_text_of_ok articles) as (all_text & Hall). rewrite Hall.
  cbn [bind].
  destruct (Z.ltb_spec (len (Str.strip all_text)) 100) as [Hshort|Hlong].
  { eexists. split; [reflexivity|now left]. }
  destruct (tfidf_document all_text) as [features|e] eqn:Hfeatures;
    cbn [bind try_except].
  2: { eexists. split; [reflexivity|now left]. }
  match goal with
  | |- context [Str.slice_to ?sorted max_keywords] =>
      pose proof (trending_keywords_from_features all_text features max_keywords)
        as Hfrom;
      destruct (Str.slice_to sorted max_keywords) as [|k ks] eqn:Hslice
  end.
  - eexists. split; [reflexivity|now left].
  - eexists. split; [reflexivity|]. right.
    exists all_text, features. repeat split; auto.
    apply Forall_forall. intros x Hx.
    destruct (Hfrom x Hx) as (keyword & score & Hin & Hentry).
    exists keyword, score. split; [exact Hin|].
    now destruct (keyword_entry_spec _ _ _ _ Hentry) as (H & _).
Qed.

(** ** Summary: cleaned sentences *)

Lemma startswith_nil : forall s, Str.startswith s [] = true.
Proof. intros [|c s]; reflexivity. Qed.

Lemma ends_properly_snoc : forall l x,
  ends_properly (l ++ [x]) = is_terminal x.
Proof.
  intros l x. unfold ends_properly, Str.endswith, is_terminal.
  rewrite rev_app_distr.
  change (rev [x]) with [x]. change (rev (py ".")) with [46%N].
  change (rev (py "!")) with [33%N]. change (rev (py "?")) with [63%N].
  cbn [app Str.startswith]. unfold char_eqb.
  rewrite startswith_nil, !andb_true_r.
  rewrite (N.eqb_sym 46 x), (N.eqb_sym 33 x), (N.eqb_sym 63 x). reflexivity.
Qed.

Lemma ends_properly_inv : forall s,
  ends_properly s = true -> exists l x, s = l ++ [x] /\ is_terminal x = true.
Proof.
  intros s H. destruct s as [|c s]; [discriminate|].
  destruct (last_split _ (c :: s)) as (l & x & E); [discriminate|].
  exists l, x. split; [exact E|]. rewrite E in H. now rewrite ends_properly_snoc in H.
Qed.

Lemma ends_properly_app : forall a b,
  ends_properly b = true -> ends_properly (a ++ b) = true.
Proof.
  intros a b H. destruct (ends_properly_inv _ H) as (l & x & -> & Hx).
  rewrite app_assoc. now rewrite ends_properly_snoc.
Qed.

Lemma terminal_cases : forall c : N,
  is_terminal c = true -> (c = 46 \/ c = 33 \/ c = 63)%N.
Proof.
  intros c H. unfold is_terminal in H.
  apply orb_true_iff in H. destruct H as [H|H].
  - apply orb_true_iff in H. destruct H as [H|H]; apply N.eqb_eq in H; auto.
  - apply N.eqb_eq in H. auto.
Qed.

Lemma terminal_case_free : forall c,
  is_terminal c = true -> upper_char c = c /\ lower_char c = c.
Proof.
  intros c H. apply terminal_cases in H.
  destruct H as [->|[->| ->]]; split; reflexivity.
Qed.

Lemma ends_properly_lower : forall s,
  ends_properly s = true -> ends_properly (Str.lower s) = true.
Proof.
  intros s H. destruct (ends_properly_inv _ H) as (l & x & -> & Hx).
  unfold Str.lower. rewrite map_app. cbn [List.map].
  rewrite ends_properly_snoc.
  now rewrite (proj2 (terminal_case_free _ Hx)).
Qed.

Lemma ends_properly_capital : forall c rest,
  ends_properly (c :: rest) = true ->
  ends_properly (upper_char c :: rest) = true.
Proof.
  intros c rest H. destruct (ends_properly_inv _ H) as (l & x & E & Hx).
  destruct l as [|c' l].
  - injection E as -> ->. change [upper_char x] with ([] ++ [upper_char x]).
    rewrite ends_properly_snoc. now rewrite (proj1 (terminal_case_free _ Hx)).
  - injection E as -> ->.
    change (upper_char c' :: l ++ [x]) with ((upper_char c' :: l) ++ [x]).
    now rewrite ends_properly_snoc.
Qed.

(** X12.  [clean_sentence_for_summary] returns the empty string exactly for
    a sentence of fewer than 20 characters once stripped; every other
    sentence comes back non-empty and ending in [.], [!] or [?]. *)
Theorem cleaned_sentence_empty_or_ends_properly : forall sentence,
  ((len (Str.strip sentence) < 20)%Z ->
     clean_sentence_for_summary sentence = [])
  /\ ((20 <= len (Str.strip sentence))%Z ->
        clean_sentence_for_summary sentence <> []
        /\ ends_properly (clean_sentence_for_summary sentence) = true).
Proof.
  intro sentence. unfold clean_sentence_for_summary.
  destruct (Z.ltb_spec (len (Str.strip sentence)) 20) as [Hshort|Hlong].
  - split; [reflexivity|lia].
  - split; [lia|]. intros _.
    match goal with
    | |- context [if ends_properly ?s then _ else _] =>
        assert (Hends : ends_properly (if ends_properly s then s else s ++ py ".")
                        = true);
        [destruct (ends_properly s) eqn:E;
           [exact E|apply ends_properly_app; reflexivity]|];
        destruct (if ends_properly s then s else s ++ py ".") as [|c rest]
    end.
    + discriminate.
    + split; [discriminate|now apply ends_properly_capital].
Qed.

(** ** Summary: the composed text *)

Lemma clean_sentence_ends : forall sentence,
  clean_sentence_for_summary sentence = []
  \/ ends_properly (clean_sentence_for_summary sentence) = true.
Proof.
  intro sentence. unfold clean_sentence_for_summary.
  destruct (len (Str.strip sentence) <? 20)%Z; [now left|]. right.
  match goal with
  | |- context [if ends_properly ?s then _ else _] =>
      assert (Hends : ends_properly (if ends_properly s then s else s ++ py ".")
                      = true);
      [destruct (ends_properly s) eqn:E;
         [exact E|apply ends_properly_app; reflexivity]|];
      destruct (if ends_properly s then s else s ++ py ".") as [|c rest]
  end.
  - discriminate.
  - now apply ends_properly_capital.
Qed.

Lemma context_intro_ends : forall titles,
  generate_context_intro titles <> []
  /\ ends_properly (generate_context_intro titles) = true.
Proof.
  intro titles. unfold generate_context_intro.
  repeat match goal with
         | |- context [if ?b then _ else _] => destruct b
         end; split; try discriminate; reflexivity.
Qed.

Lemma collect_text_titles : forall (articles : list Article) all_text titles,
  exists all_text',
    for_each collect_text (List.map record_of articles) (all_text, titles)
    = Ok (all_text', titles ++ List.map article_title articles).
Proof.
  induction articles as [|a articles IH]; intros all_text titles;
    cbn [List.map for_each].
  - exists all_text. now rewrite app_nil_r.
  - unfold collect_text at 1.
    change (title (record_of a)) with (Some (article_title a)).
    change (text (record_of a)) with (Some (article_text a)).
    cbn [getitem bind].
    match goal with
    | |- context [for_each collect_text _ (?t, _)] =>
        destruct (IH t (titles ++ [article_title a])) as (all_text' & ->)
    end.
    exists all_text'. now rewrite <- app_assoc.
Qed.

(** What the composer makes of the key sentences. *)
Lemma composed_summary_ends : forall context_intro key_sentences,
  context_intro <> [] ->
  ends_properly context_intro = true ->
  let cleaned_sentences :=
    List.filter
      (fun clean_sent =>
         (negb (str_eqb clean_sent []) && (30 <? len clean_sent)%Z)%bool)
      (List.map clean_sentence_for_summary (Str.slice_to key_sentences 4)) in
  Forall (fun c => ends_properly c = true) cleaned_sentences.
Proof.
  intros context_intro key_sentences _ _ cleaned_sentences.
  apply Forall_forall. intros c Hc. apply filter_In in Hc.
  destruct Hc as [Hin Hkeep]. apply in_map_iff in Hin.
  destruct Hin as (s & <- & _).
  destruct (clean_sentence_ends s) as [E|E]; [|exact E].
  rewrite E in Hkeep. discriminate.
Qed.

Lemma free_summary_shape : forall tfidf_sentences (articles : list Article),
  articles <> [] ->
  exists summary,
    generate_free_summary tfidf_sentences (List.map record_of articles) 6
      = Ok summary
    /\ summary <> []
    /\ (ends_properly summary = true
        \/ summary
           = generate_context_intro (List.map article_title articles) ++ py " ").
Proof.
  intros tfidf_sentences articles Hne. unfold generate_free_summary.
  destruct articles as [|a articles]; [contradiction|].
  set (records := List.map record_of (a :: articles)).
  assert (Hrecords : exists r rs, records = r :: rs).
  { unfold records. simpl. eauto. }
  destruct Hrecords as (r & rs & Hrs). rewrite Hrs. rewrite <- Hrs.
  unfold records.
  destruct (collect_text_titles (a :: articles) [] []) as (all_text & ->).
  cbn [bind app]. set (titles := List.map article_title (a :: articles)).
  destruct (context_intro_ends titles) as [Hintro_ne Hintro].
  destruct all_text as [|t ts].
  { eexists. split; [reflexivity|]. split; [discriminate|]. left. reflexivity. }
  match goal with
  | |- context [extract_key_sentences_multimethod ?f ?x ?y ?z] =>
      generalize (extract_key_sentences_multimethod f x y z)
  end.
  intros [|k ks].
  { eexists. split; [reflexivity|]. split.
    - destruct (generate_context_intro titles); [contradiction|discriminate].
    - left. apply ends_properly_app. reflexivity. }
  pose proof (composed_summary_ends (generate_context_intro titles) (k :: ks)
                Hintro_ne Hintro) as Hcleaned.
  cbv zeta in Hcleaned.
  destruct (List.filter _ (List.map clean_sentence_for_summary
                             (Str.slice_to (k :: ks) 4)))
    as [|first [|second others]].
  - eexists. split; [reflexivity|]. split.
    + destruct (generate_context_intro titles); [contradiction|discriminate].
    + right. cbn [Str.join]. now rewrite app_nil_r.
  - eexists. split; [reflexivity|]. split.
    + destruct (generate_context_intro titles); [contradiction|discriminate].
    + left. cbn [Str.join]. do 2 apply ends_properly_app.
      now inversion Hcleaned.
  - inversion Hcleaned as [|? ? Hfirst Hrest]; subst.
    inversion Hrest as [|? ? Hsecond Hothers]; subst.
    eexists. split; [reflexivity|]. split.
    + destruct others as [|third [|fourth others']]; cbn [app Str.join];
        destruct (generate_context_intro titles); try contradiction; discriminate.
    + left.
      destruct others as [|third [|fourth others']]; cbn [app Str.join].
      * do 5 apply ends_properly_app. now apply ends_properly_lower.
      * inversion Hothers as [|? ? Hthird _]; subst.
        do 7 apply ends_properly_app. now apply ends_properly_lower.
      * inversion Hothers as [|? ? Hthird Hmore]; subst.
        inversion Hmore as [|? ? Hfourth _]; subst.
        do 10 apply ends_properly_app. now apply ends_properly_lower.
Qed.

(** X13.  Whatever the collaborators do, [generate_summary] returns a string
    that is not empty for every list of articles. *)
Theorem summary_never_empty :
  forall tfidf_sentences client (articles : list Article),
  exists summary,
    generate_summary tfidf_sentences client (List.map record_of articles)
      = Ok summary
    /\ summary <> [].
Proof.
  intros tfidf_sentences client articles. unfold generate_summary.
  destruct articles as [|a articles].
  { eexists. split; [reflexivity|discriminate]. }
  destruct (prompt_text_ok (a :: articles)) as (combined_text & ->).
  destruct (free_summary_shape tfidf_sentences (a :: articles))
    as (summary & Hfree & Hne & _); [discriminate|].
  cbn [List.map] in *. cbn [bind]. rewrite Hfree. cbn [bind].
  destruct (generate_openai_summary client _) as [openai_summary|];
    [|cbn [try_except]; eauto].
  destruct (str_eqb openai_summary []) eqn:E; cbn [negb andb try_except];
    [eauto|].
  apply str_eqb_neq in E.
  match goal with |- context [if ?b then _ else _] => destruct b end;
    cbn [try_except]; eauto.
Qed.

(** X14.  Without a chat client, the summary of a non-empty list of articles
    ends in [.], [!] or [?], or else it is the opener of the titles followed
    by one space. *)
Theorem summary_ends_properly_or_is_bare_opener :
  forall tfidf_sentences (articles : list Article),
    articles <> [] ->
    exists summary,
      generate_summary tfidf_sentences no_client (List.map record_of articles)
        = Ok summary
      /\ (ends_properly summary = true
          \/ summary
             = generate_context_intro (List.map article_title articles)
               ++ py " ").
Proof.
  intros tfidf_sentences articles Hne. unfold generate_summary.
  destruct (prompt_text_ok articles) as (combined_text & ->).
  destruct (free_summary_shape tfidf_sentences articles Hne)
    as (summary & Hfree & _ & Hshape).
  destruct articles as [|a articles]; [contradiction|].
  cbn [List.map] in *. cbn [bind]. rewrite Hfree.
  cbn [bind generate_openai_summary no_client try_except].
  exists summary. split; [reflexivity|exact Hshape].
Qed.

(** X14 at one article with one long sentence. *)
Lemma summary_ends_properly_or_is_bare_opener_witness :
  [plain_article "Update" "India and Pakistan held some new talks today in the capital"]
    <> []
  /\ exists summary,
       generate_summary tfidf_sentences_down no_client
         (List.map record_of
            [plain_article "Update"
               "India and Pakistan held some new talks today in the capital"])
         = Ok summary
       /\ (ends_properly summary = true
           \/ summary
              = generate_context_intro
                  (List.map article_title
                     [plain_article "Update"
                        "India and Pakistan held some new talks today in the capital"])
                ++ py " ").
Proof.
  assert (H : [plain_article "Update"
                 "India and Pakistan held some new talks today in the capital"]
              <> []) by discriminate.
  split; [exact H|].
  exact (summary_ends_properly_or_is_bare_opener tfidf_sentences_down _ H).
Defined.

(** X15.  The chat client changes the summary only by an answer that is not
    empty and does not contain ["Error generating summary"]: the result is
    then this answer, and in every other case (no client, an exception, no
    content, an empty or an error answer) it is what the function returns
    without a client. *)
Theorem client_answer_or_free_summary :
  forall tfidf_sentences client (articles : list record),
    generate_summary tfidf_sentences client articles
      = generate_summary tfidf_sentences no_client articles
    \/ exists create combined_text content,
         client = Some create
         /\ prompt_text articles = Ok combined_text
         /\ create (prompt_of combined_text) = Ok (Some content)
         /\ content <> []
         /\ Str.contains (py "Error generating summary") content = false
         /\ generate_summary tfidf_sentences client articles = Ok content.
Proof.
  intros tfidf_sentences client articles. unfold generate_summary.
  destruct articles as [|r rs]; [now left|].
  destruct (prompt_text (r :: rs)) as [combined_text|e] eqn:Hprompt;
    cbn [bind]; [|now left].
  destruct (generate_free_summary tfidf_sentences (r :: rs) 6) as [summary|e];
    cbn [bind]; [|now left].
  change (generate_openai_summary no_client (r :: rs)) with (@None str).
  unfold generate_openai_summary.
  destruct client as [create|]; [|now left].
  rewrite Hprompt. cbn [bind].
  destruct (create (prompt_of combined_text)) as [[content|]|e] eqn:Hcreate;
    [|now left|now left].
  destruct (str_eqb content []) eqn:Hempty; cbn [negb andb]; [now left|].
  destruct (Str.contains (py "Error generating summary") content) eqn:Herror;
    cbn [negb]; [now left|].
  right. exists create, combined_text, content.
  apply str_eqb_neq in Hempty. repeat split; auto; reflexivity.
Qed.

(** ** Sentences: what the tokenizer and the ranker return *)

Lemma star_some : forall (X : Type) p s (k : str -> option X),
  (forall s', exists x, k s' = Some x) -> exists x, Re.star p s k = Some x.
Proof.
  intros X p s k Hk. induction s as [|c s IH]; simpl; [apply Hk|].
  destruct (p c); [|apply Hk].
  destruct IH as (x & ->). eauto.
Qed.

Lemma match_here_class_none : forall p c s,
  Re.match_here (Re.PlusC p) (c :: s) = None -> p c = false.
Proof.
  intros p c s H. unfold Re.match_here in H. cbn [Re.rmatch Re.plus] in H.
  destruct (p c); [|reflexivity].
  match type of H with
  | Re.star _ _ ?k = None =>
      destruct (star_some _ p s k) as (x & Hx); [intro s'; eauto|];
      rewrite Hx in H; discriminate H
  end.
Qed.

Lemma match_here_class_consumes : forall p s rest caps,
  Re.match_here (Re.PlusC p) s = Some (rest, caps) ->
  (List.length rest < List.length s)%nat.
Proof.
  intros p s rest caps H. unfold Re.match_here in H. cbn [Re.rmatch] in H.
  destruct (plus_sound _ _ _ _ _ H) as (w & s' & -> & Hne & _ & Hk).
  injection Hk as <- _. rewrite length_app.
  destruct w; [contradiction|]. simpl. lia.
Qed.

Lemma split_class_pieces : forall p s skip cur,
  Forall (fun c => p c = false) cur ->
  Forall (Forall (fun c => p c = false)) (Re.split_from (Re.PlusC p) s skip cur).
Proof.
  intros p. induction s as [|c s IH]; intros skip cur Hcur; cbn [Re.split_from].
  - constructor; [now apply Forall_rev|constructor].
  - destruct skip; [|now apply IH].
    destruct (Re.match_here (Re.PlusC p) (c :: s)) as [[rest caps]|] eqn:E.
    + pose proof (match_here_class_consumes _ _ _ _ E) as Hlen.
      destruct (List.length (c :: s) - List.length rest)%nat eqn:En; [lia|].
      constructor; [now apply Forall_rev|]. apply IH. constructor.
    + apply IH. constructor; [|exact Hcur].
      eapply match_here_class_none; exact E.
Qed.

Lemma lstrip_In : forall s c, In c (Str.lstrip s) -> In c s.
Proof.
  induction s as [|x s IH]; simpl; intros c H; [exact H|].
  destruct (is_space x); [right; now apply IH|exact H].
Qed.

Lemma strip_In : forall s c, In c (Str.strip s) -> In c s.
Proof.
  intros s c H. unfold Str.strip, Str.rstrip in H.
  apply in_rev in H. apply lstrip_In in H. apply in_rev in H.
  now apply lstrip_In.
Qed.

Lemma tokenized_sentences : forall full_text,
  Forall (fun s => (20 < len s)%Z /\ Forall (fun c => is_terminal c = false) s)
         (tokenize_sentences full_text).
Proof.
  intro full_text. unfold tokenize_sentences.
  apply Forall_map. apply Forall_forall. intros s Hs.
  apply filter_In in Hs. destruct Hs as [Hs Hlong].
  split; [now apply Z.ltb_lt|].
  pose proof (split_class_pieces is_terminal full_text 0 [] (Forall_nil _)) as H.
  rewrite Forall_forall in H. specialize (H s Hs).
  rewrite Forall_forall in *. intros c Hc. apply H. now apply strip_In.
Qed.

Lemma combine_scores_sentences : forall tfidf_sentences sentences x,
  In x (combine_scores tfidf_sentences sentences) -> In (snd x) sentences.
Proof.
  intros tfidf_sentences sentences x H. unfold combine_scores in H.
  apply in_map_iff in H. destruct H as ([i s] & <- & Hin).
  simpl. eapply in_combine_r; exact Hin.
Qed.

(** X16.  Every key sentence has more than 20 characters and contains none
    of [.], [!] and [?]; there are at most [target_count] of them, or at
    most two when that is more. *)
Theorem key_sentences_are_long_and_unpunctuated :
  forall tfidf_sentences full_text text_sources target_count,
    let key_sentences :=
      extract_key_sentences_multimethod tfidf_sentences full_text text_sources
                                        target_count in
    Forall (fun s => (20 < len s)%Z
                     /\ Forall (fun c => is_terminal c = false) s)
           key_sentences
    /\ (len key_sentences <= Z.max 2 target_count)%Z.
Proof.
  intros tfidf_sentences full_text text_sources target_count.
  unfold extract_key_sentences_multimethod. cbv zeta.
  pose proof (tokenized_sentences full_text) as Htok.
  destruct (Z.ltb_spec (len (tokenize_sentences full_text)) 3) as [Hfew|Hmany].
  - split; [exact Htok|lia].
  - split.
    + apply Forall_forall. intros s Hs. apply in_map_iff in Hs.
      destruct Hs as (x & <- & Hx). unfold nlargest in Hx.
      apply firstn_In, sort_desc_In, combine_scores_sentences in Hx.
      rewrite Forall_forall in Htok. now apply Htok.
    + unfold len, nlargest. rewrite length_map, length_firstn. lia.
Qed.

(** ** Sentences: the three scores computed in the repository *)

Lemma filter_length : forall (X : Type) (f : X -> bool) l,
  (List.length (List.filter f l) <= List.length l)%nat.
Proof.
  intros X f. induction l as [|x l IH]; simpl; [lia|].
  destruct (f x); simpl; lia.
Qed.

(** X17.  The keyword, position and length scorers give one score per
    sentence, each between 0 and 1. *)
Theorem sentence_scores_in_unit_interval : forall sentences,
  List.length (score_sentences_keywords sentences) = List.length sentences
  /\ List.length (score_sentences_position sentences) = List.length sentences
  /\ List.length (score_sentences_length sentences) = List.length sentences
  /\ Forall unit_score (score_sentences_keywords sentences)
  /\ Forall unit_score (score_sentences_position sentences)
  /\ Forall unit_score (score_sentences_length sentences).
Proof.
  intro sentences.
  unfold score_sentences_keywords, score_sentences_position,
    score_sentences_length.
  rewrite !length_map, length_seq.
  split; [reflexivity|]. split; [reflexivity|]. split; [reflexivity|].
  assert (Hconstants :
            unit_score 1.0 /\ unit_score 0.5 /\ unit_score (Float.round 0.8)
            /\ unit_score (Float.round 0.6) /\ unit_score (Float.round 0.3)).
  { unfold unit_score. repeat split; vm_compute; intro H; discriminate H. }
  destruct Hconstants as (H10 & H05 & H08 & H06 & H03).
  split; [|split]; apply Forall_map, Forall_forall; intros x _; cbv zeta.
  - pose proof (filter_length _
        (fun keyword => Str.contains keyword (Str.lower x)) important_keywords)
      as Hle.
    change (List.length important_keywords) with 18%nat in Hle.
    change (len important_keywords) with 18%Z.
    unfold len.
    set (n := List.length (List.filter _ important_keywords)) in *.
    clearbody n.
    assert (Hchecked : keyword_scores_checked = true)
      by (vm_compute; reflexivity).
    unfold keyword_scores_checked in Hchecked.
    rewrite forallb_forall in Hchecked.
    specialize (Hchecked n). cbv zeta in Hchecked.
    assert (Hin : In n (seq 0 19)) by (apply in_seq; lia).
    apply Hchecked in Hin. apply andb_true_iff in Hin.
    destruct Hin as [Hlo Hhi]. split; now apply Qle_bool_iff.
  - repeat match goal with
           | |- context [if ?b then _ else _] => destruct b
           end; assumption.
  - repeat match goal with
           | |- context [if ?b then _ else _] => destruct b
           end; assumption.
Qed.

(** ** Impact sentences *)

Lemma firstn_two_app : forall (X : Type) (l : list X) x,
  (2 <= List.length l)%nat -> firstn 2 (l ++ [x]) = firstn 2 l.
Proof.
  intros X [|a [|b l]] x H; simpl in *; try lia. reflexivity.
Qed.

Lemma firstn_two_length : forall (X : Type) (l l' : list X),
  firstn 2 l = firstn 2 l' -> (2 <= List.length l)%nat ->
  (2 <= List.length l')%nat.
Proof.
  intros X l l' H Hl. apply (f_equal (@List.length X)) in H.
  rewrite !length_firstn in H. lia.
Qed.

(** What the loops keep: the first two collected sentences are the first
    two impact sentences read, and nothing is skipped before the third. *)
Lemma collect_impact_invariant : forall sentences collected seen,
  firstn 2 collected = firstn 2 seen ->
  ((List.length collected <= 2)%nat -> collected = seen) ->
  let collected' := collect_impact sentences collected in
  let seen' := seen ++ List.filter is_impact_sentence (List.map Str.strip sentences) in
  firstn 2 collected' = firstn 2 seen'
  /\ ((List.length collected' <= 2)%nat -> collected' = seen').
Proof.
  induction sentences as [|s sentences IH]; intros collected seen Hfirst Hsame;
    cbn [collect_impact List.map List.filter].
  - cbv zeta. rewrite app_nil_r. now split.
  - cbv zeta. destruct (is_impact_sentence (Str.strip s)) eqn:E.
    + assert (Hfirst' : firstn 2 (collected ++ [Str.strip s])
                        = firstn 2 (seen ++ [Str.strip s])).
      { destruct (Nat.le_gt_cases (List.length collected) 1) as [Hle|Hgt].
        - rewrite Hsame by lia. reflexivity.
        - rewrite !firstn_two_app; [exact Hfirst| |lia].
          eapply firstn_two_length; [exact Hfirst|lia]. }
      assert (Hsame' : (List.length (collected ++ [Str.strip s]) <= 2)%nat ->
                       collected ++ [Str.strip s] = seen ++ [Str.strip s]).
      { rewrite length_app. simpl. intro H. rewrite Hsame by lia. reflexivity. }
      replace (seen ++ Str.strip s :: List.filter is_impact_sentence
                                        (List.map Str.strip sentences))
        with ((seen ++ [Str.strip s])
                ++ List.filter is_impact_sentence (List.map Str.strip sentences))
        by (now rewrite <- app_assoc).
      destruct (Z.leb_spec 3 (len (collected ++ [Str.strip s]))) as [Hfull|Hroom].
      * unfold len in Hfull. split; [|lia].
        rewrite Hfirst'.
        assert (Htwo : (2 <= List.length (seen ++ [Str.strip s]))%nat).
        { eapply firstn_two_length; [exact Hfirst'|lia]. }
        generalize (List.filter is_impact_sentence (List.map Str.strip sentences)).
        intro more. destruct (seen ++ [Str.strip s]) as [|a [|b l]];
          simpl in *; try lia. reflexivity.
      * apply (IH _ _ Hfirst' Hsame').
    + apply (IH _ _ Hfirst Hsame).
Qed.

(** X18.  [extract_impact_analysis] returns the first two impact sentences
    of the texts in reading order (all of them if there are fewer): the
    stripped sentences of more than 30 characters that contain an impact
    keyword.  The early exit of the inner loop drops none of them. *)
Theorem impact_analysis_is_first_two : forall text_sources,
  extract_impact_analysis text_sources
  = firstn 2 (List.filter is_impact_sentence (stripped_sentences text_sources)).
Proof.
  intro text_sources. unfold extract_impact_analysis, stripped_sentences.
  change (Str.slice_to ?l 2) with (firstn 2 l).
  assert (H : forall texts collected seen,
            firstn 2 collected = firstn 2 seen ->
            ((List.length collected <= 2)%nat -> collected = seen) ->
            firstn 2 (fold_left
                        (fun impact_sentences text =>
                           collect_impact (Re.split Patterns.sentence_end text)
                                          impact_sentences)
                        texts collected)
            = firstn 2 (seen ++ List.filter is_impact_sentence
                                  (List.map Str.strip
                                     (flat_map (Re.split Patterns.sentence_end)
                                               texts)))).
  { induction texts as [|t texts IH]; intros collected seen Hfirst Hsame;
      cbn [fold_left flat_map].
    - cbn [List.map List.filter]. now rewrite app_nil_r.
    - destruct (collect_impact_invariant (Re.split Patterns.sentence_end t)
                  collected seen Hfirst Hsame) as [H1 H2].
      rewrite (IH _ _ H1 H2).
      now rewrite map_app, filter_app, app_assoc. }
  apply (H text_sources [] []); reflexivity.
Qed.

(** ** The route [/api/news] *)

Lemma has_shape_cases : forall r : record,
  has_shape r \/ (~ has_shape r /\ (title r = None \/ text r = None)).
Proof.
  intro r. unfold has_shape.
  destruct (title r) as [t|] eqn:Et; destruct (text r) as [b|] eqn:Eb.
  - left. eauto.
  - right. split; [intros (? & ? & _ & ?); discriminate|now right].
  - right. split; [intros (? & ? & ? & _); discriminate|now left].
  - right. split; [intros (? & ? & ? & _); discriminate|now left].
Qed.

(** The comprehension over [a['title']] and [a['text']] succeeds when every
    record has both keys and raises [KeyError] otherwise. *)
Lemma prompt_text_cases : forall articles : list record,
  (Forall has_shape articles
   /\ exists combined_text, prompt_text articles = Ok combined_text)
  \/ (~ Forall has_shape articles
      /\ exists key, prompt_text articles = Raise (KeyError key)).
Proof.
  intro articles. unfold prompt_text.
  match goal with
  | |- context [for_each ?body articles ?init] =>
      assert (H : forall parts,
                (Forall has_shape articles
                 /\ exists parts', for_each body articles parts = Ok parts')
                \/ (~ Forall has_shape articles
                    /\ exists key,
                         for_each body articles parts = Raise (KeyError key)))
  end.
  { induction articles as [|r rs IH]; intro parts.
    - left. split; [constructor|]. simpl. eauto.
    - cbn [for_each].
      destruct (has_shape_cases r) as [Hr|[Hr Hmiss]].
      + destruct Hr as (t & b & Ht & Hb). rewrite Ht, Hb. cbn [getitem bind].
        match goal with
        | |- context [for_each _ rs ?parts'] => destruct (IH parts') as [[Hrs Hok]|[Hrs Hko]]
        end.
        * left. split; [|exact Hok]. constructor; [|exact Hrs].
          exists t, b. now split.
        * right. split; [|exact Hko]. intro Hall. apply Hrs.
          now inversion Hall.
      + right. split; [intro Hall; apply Hr; now inversion Hall|].
        destruct Hmiss as [Hmiss|Hmiss].
        * rewrite Hmiss. cbn [getitem bind]. eauto.
        * rewrite Hmiss. destruct (title r); cbn [getitem bind]; eauto. }
  destruct (H []) as [[Hall (parts & ->)]|[Hall (key & ->)]].
  - left. split; [exact Hall|]. cbn [bind]. eauto.
  - right. split; [exact Hall|]. cbn [bind]. eauto.
Qed.

Lemma generate_summary_shaped : forall tfidf_sentences client articles,
  Forall has_shape articles ->
  exists summary, generate_summary tfidf_sentences client articles = Ok summary.
Proof.
  intros tfidf_sentences client articles Hall. unfold generate_summary.
  destruct (prompt_text_cases articles) as [[_ (combined_text & ->)]|[Hno _]];
    [|contradiction].
  destruct articles as [|r rs]; [eauto|].
  cbn [bind].
  destruct (generate_free_summary tfidf_sentences (r :: rs) 6) as [summary|e];
    cbn [bind try_except]; [|eauto].
  destruct (generate_openai_summary client (r :: rs)) as [openai_summary|];
    [|cbn [try_except]; eauto].
  match goal with |- context [if ?b then _ else _] => destruct b end;
    cbn [try_except]; eauto.
Qed.

Lemma generate_summary_unshaped : forall tfidf_sentences client articles,
  ~ Forall has_shape articles ->
  exists key,
    generate_summary tfidf_sentences client articles = Raise (KeyError key).
Proof.
  intros tfidf_sentences client articles Hno. unfold generate_summary.
  destruct (prompt_text_cases articles) as [[Hall _]|[_ (key & ->)]];
    [contradiction|].
  destruct articles as [|r rs]; [exfalso; apply Hno; constructor|].
  cbn [bind]. eauto.
Qed.

Lemma all_text_of_shaped : forall articles : list record,
  Forall has_shape articles ->
  exists all_text, all_text_of articles = Ok all_text.
Proof.
  intros articles Hall. unfold all_text_of.
  destruct (for_each_invariant _ _ (fun _ : str => True) has_shape
              (fun all_text article =>
                 article_title <- getitem "title" (title article) ;;
                 article_text <- getitem "text" (text article) ;;
                 Ok (all_text ++ (py " " ++ article_title ++ py " " ++ article_text)))
              ) with (xs := articles) (s := @nil char)
    as (all_text & H & _).
  - intros s x (t & b & Ht & Hb) _. rewrite Ht, Hb. cbn [getitem bind]. eauto.
  - exact Hall.
  - exact I.
  - now exists all_text.
Qed.

Lemma extract_trending_keywords_shaped :
  forall tfidf_document (articles : list record) max_keywords,
  Forall has_shape articles ->
  exists keywords,
    extract_trending_keywords tfidf_document articles max_keywords = Ok keywords.
Proof.
  intros tfidf_document articles max_keywords Hall.
  unfold extract_trending_keywords.
  destruct (all_text_of_shaped articles Hall) as (all_text & ->). cbn [bind].
  destruct (len (Str.strip all_text) <? 100)%Z; [cbn [try_except]; eauto|].
  destruct (tfidf_document all_text) as [features|e]; cbn [bind try_except];
    [|eauto].
  match goal with
  | |- context [Str.slice_to ?sorted max_keywords] =>
      destruct (Str.slice_to sorted max_keywords); cbn [try_except]; eauto
  end.
Qed.

Lemma extract_geographic_hotspots_shaped : forall articles : list record,
  Forall has_shape articles ->
  exists hotspots, extract_geographic_hotspots articles = Ok hotspots.
Proof.
  intros articles Hall. unfold extract_geographic_hotspots.
  destruct (for_each_invariant _ _ distinct_names has_shape visit_article
              visit_article_distinct _ Hall [] (NoDup_nil _))
    as (found & -> & _).
  cbn [bind]. destruct found; eauto.
Qed.

Lemma images_of_spec : forall articles picture,
  In picture (images_of articles) ->
  picture <> [] /\ exists article, In article articles
                                   /\ image article = Some picture.
Proof.
  intros articles picture H. unfold images_of in H.
  apply in_map_iff in H. destruct H as (a & <- & Ha).
  apply filter_In in Ha. destruct Ha as [Ha Himg].
  unfold has_image in Himg.
  destruct (image a) as [[|c i]|] eqn:E; try discriminate.
  split; [discriminate|]. exists a. now split.
Qed.

Lemma statistics_returned_or_overflow : forall articles : list record,
  (exists report, extract_conflict_statistics articles = Ok report)
  \/ extract_conflict_statistics articles = Raise OverflowError.
Proof.
  intro articles.
  destruct (statistics_counters articles)
    as (st & _ & _ & _ & _ & _ & _ & Hyes & Hno).
  destruct (average_overflows st).
  - right. now apply Hyes.
  - left. destruct (Hno eq_refl) as (report & H & _). eauto.
Qed.

(** The answer to a non-empty list of well-formed records. *)
Lemma get_news_shaped :
  forall (video : Type) fetch_youtube_videos tfidf_sentences tfidf_document
         client (articles : list record) (videos : list video),
    articles <> [] -> Forall has_shape articles ->
    fetch_youtube_videos = Ok videos ->
    exists summary,
      generate_summary tfidf_sentences client articles = Ok summary
      /\ (extract_conflict_statistics articles = Raise OverflowError ->
            get_news (Ok articles) fetch_youtube_videos tfidf_sentences
                     tfidf_document client
            = (500%Z, Response.Error OverflowError))
      /\ (forall statistics,
            extract_conflict_statistics articles = Ok statistics ->
            exists trending_keywords geographic_hotspots,
              extract_trending_keywords tfidf_document articles 20
              = Ok trending_keywords
              /\ extract_geographic_hotspots articles = Ok geographic_hotspots
              /\ get_news (Ok articles) fetch_youtube_videos tfidf_sentences
                          tfidf_document client
                 = (200%Z,
                    Response.Data
                      {| Response.summary := summary;
                         Response.articles := firstn 5 articles;
                         Response.images := firstn 5 (images_of articles);
                         Response.youtube_videos := videos;
                         Response.statistics := statistics;
                         Response.trending_keywords := trending_keywords;
                         Response.geographic_hotspots := geographic_hotspots |})).
Proof.
  intros video fetch_youtube_videos tfidf_sentences tfidf_document client
         articles videos Hne Hall ->.
  destruct (generate_summary_shaped tfidf_sentences client articles Hall)
    as (summary & Hs).
  destruct (extract_trending_keywords_shaped tfidf_document articles 20 Hall)
    as (keywords & Hk).
  destruct (extract_geographic_hotspots_shaped articles Hall) as (hotspots & Hh).
  exists summary. split; [exact Hs|].
  destruct articles as [|r rs]; [contradiction|].
  split.
  - intro Hst. unfold get_news. cbn [bind]. rewrite Hs. cbn [bind].
    rewrite Hst. reflexivity.
  - intros statistics Hst. exists keywords, hotspots.
    split; [exact Hk|]. split; [exact Hh|].
    unfold get_news. cbn [bind]. rewrite Hs, Hst, Hk, Hh. reflexivity.
Qed.

(** X19.  When the fetch gives a non-empty list of records that all have a
    title and a text, the video fetch succeeds and the casualty average of
    the statistics is within the range of the floats, [get_news] answers
    200: the payload carries the first five articles, at most five
    pictures, each the non-empty [image] of a fetched article, the fetched
    videos, and the results of the four analyses of the whole list. *)
Theorem get_news_answers_well_formed_articles :
  forall (video : Type) fetch_youtube_videos tfidf_sentences tfidf_document
         client (articles : list record) (videos : list video),
    articles <> [] -> Forall has_shape articles ->
    fetch_youtube_videos = Ok videos ->
    extract_conflict_statistics articles <> Raise OverflowError ->
    exists payload,
      get_news (Ok articles) fetch_youtube_videos tfidf_sentences
               tfidf_document client
        = (200%Z, Response.Data payload)
      /\ Response.articles payload = firstn 5 articles
      /\ (len (Response.images payload) <= 5)%Z
      /\ (forall picture, In picture (Response.images payload) ->
            picture <> []
            /\ exists article, In article articles
                               /\ image article = Some picture)
      /\ Response.youtube_videos payload = videos
      /\ generate_summary tfidf_sentences client articles
         = Ok (Response.summary payload)
      /\ extract_conflict_statistics articles
         = Ok (Response.statistics payload)
      /\ extract_trending_keywords tfidf_document articles 20
         = Ok (Response.trending_keywords payload)
      /\ extract_geographic_hotspots articles
         = Ok (Response.geographic_hotspots payload).
Proof.
  intros video fetch_youtube_videos tfidf_sentences tfidf_document client
         articles videos Hne Hall Hv Hfits.
  destruct (get_news_shaped video fetch_youtube_videos tfidf_sentences
              tfidf_document client articles videos Hne Hall Hv)
    as (summary & Hs & _ & Hok).
  destruct (statistics_returned_or_overflow articles)
    as [(statistics & Hst)|Hover]; [|contradiction].
  destruct (Hok statistics Hst) as (keywords & hotspots & Hk & Hh & Hget).
  eexists. split; [exact Hget|].
  cbn [Response.articles Response.images Response.youtube_videos
       Response.summary Response.statistics Response.trending_keywords
       Response.geographic_hotspots].
  split; [reflexivity|].
  split; [unfold len; rewrite length_firstn; lia|].
  split; [|auto].
  intros picture Hin. apply firstn_In in Hin. now apply images_of_spec.
Qed.

Lemma get_news_answers_well_formed_articles_witness :
  ([record_of (illustrated_article "Talks" "Delegations met in Lahore" "a.png")]
     <> []
   /\ Forall has_shape
        [record_of (illustrated_article "Talks" "Delegations met in Lahore" "a.png")]
   /\ @Ok (list unit) [tt] = Ok [tt]
   /\ extract_conflict_statistics
        [record_of (illustrated_article "Talks" "Delegations met in Lahore" "a.png")]
      <> Raise OverflowError)
  /\ exists payload,
       get_news (Ok [record_of (illustrated_article "Talks"
                                  "Delegations met in Lahore" "a.png")])
                (Ok [tt]) tfidf_sentences_down tfidf_document_down no_client
         = (200%Z, Response.Data payload)
       /\ Response.articles payload
          = firstn 5 [record_of (illustrated_article "Talks"
                                   "Delegations met in Lahore" "a.png")]
       /\ (len (Response.images payload) <= 5)%Z
       /\ (forall picture, In picture (Response.images payload) ->
             picture <> []
             /\ exists article,
                  In article [record_of (illustrated_article "Talks"
                                           "Delegations met in Lahore" "a.png")]
                  /\ image article = Some picture)
       /\ Response.youtube_videos payload = [tt]
       /\ generate_summary tfidf_sentences_down no_client
            [record_of (illustrated_article "Talks"
                          "Delegations met in Lahore" "a.png")]
          = Ok (Response.summary payload)
       /\ extract_conflict_statistics
            [record_of (illustrated_article "Talks"
                          "Delegations met in Lahore" "a.png")]
          = Ok (Response.statistics payload)
       /\ extract_trending_keywords tfidf_document_down
            [record_of (illustrated_article "Talks"
                          "Delegations met in Lahore" "a.png")] 20
          = Ok (Response.trending_keywords payload)
       /\ extract_geographic_hotspots
            [record_of (illustrated_article "Talks"
                          "Delegations met in Lahore" "a.png")]
          = Ok (Response.geographic_hotspots payload).
Proof.
  assert (Hne : [record_of (illustrated_article "Talks"
                              "Delegations met in Lahore" "a.png")] <> [])
    by discriminate.
  assert (Hall : Forall has_shape
                   [record_of (illustrated_article "Talks"
                                 "Delegations met in Lahore" "a.png")])
    by (constructor; [unfold has_shape; simpl; eauto|constructor]).
  assert (Hfits : extract_conflict_statistics
                    [record_of (illustrated_article "Talks"
                                  "Delegations met in Lahore" "a.png")]
                  <> Raise OverflowError)
    by (vm_compute; discriminate).
  split; [split; [exact Hne|split; [exact Hall|split; [reflexivity|exact Hfits]]]|].
  exact (get_news_answers_well_formed_articles unit (Ok [tt])
           tfidf_sentences_down tfidf_document_down no_client _ [tt]
           Hne Hall eq_refl Hfits).
Defined.

(** X20.  The status of [get_news] is decided by the fetched data alone: it
    is 404 exactly when the fetch returns an empty list; 200 exactly when
    the fetch returns a non-empty list in which every record has a title
    and a text, the video fetch succeeds and the casualty average of the
    statistics is within the range of the floats; and 500 in every other
    case.  No failure of the summarizer's client or of the vectorizers
    changes it. *)
Theorem get_news_status :
  forall (video : Type) fetch_news_articles
         (fetch_youtube_videos : result (list video))
         tfidf_sentences tfidf_document client,
    let status :=
      status_of (get_news fetch_news_articles fetch_youtube_videos
                          tfidf_sentences tfidf_document client) in
    (status = 404%Z <-> fetch_news_articles = Ok [])
    /\ (status = 200%Z <->
        exists articles videos,
          fetch_news_articles = Ok articles /\ articles <> []
          /\ Forall has_shape articles /\ fetch_youtube_videos = Ok videos
          /\ extract_conflict_statistics articles <> Raise OverflowError)
    /\ (status = 200%Z \/ status = 404%Z \/ status = 500%Z).
Proof.
  intros video fetch_news_articles fetch_youtube_videos tfidf_sentences
         tfidf_document client. cbv zeta.
  destruct fetch_news_articles as [articles|e].
  - destruct articles as [|r rs].
    + cbn. split; [tauto|]. split; [|tauto].
      split; [discriminate|]. intros (a & v & Ha & Hne & _).
      injection Ha as <-. contradiction.
    + destruct (prompt_text_cases (r :: rs)) as [[Hall _]|[Hno _]].
      * destruct fetch_youtube_videos as [videos|e].
        -- destruct (get_news_shaped video (Ok videos) tfidf_sentences
                       tfidf_document client (r :: rs) videos
                       ltac:(discriminate) Hall eq_refl)
             as (summary & _ & Hover & Hok).
           destruct (statistics_returned_or_overflow (r :: rs))
             as [(statistics & Hst)|Hst].
           ++ destruct (Hok statistics Hst) as (? & ? & _ & _ & ->).
              cbn [status_of fst].
              split; [split; discriminate|]. split; [|tauto].
              split; [|reflexivity]. intros _. exists (r :: rs), videos.
              repeat split; [discriminate|exact Hall|].
              rewrite Hst. discriminate.
           ++ rewrite (Hover Hst). cbn [status_of fst].
              split; [split; discriminate|]. split; [|tauto].
              split; [discriminate|]. intros (a & v & Ha & _ & _ & _ & Hfits).
              injection Ha as <-. contradiction.
        -- destruct (generate_summary_shaped tfidf_sentences client (r :: rs) Hall)
             as (summary & Hs).
           unfold get_news. cbn [bind]. rewrite Hs. cbn [bind status_of fst].
           split; [split; discriminate|]. split; [|tauto].
           split; [discriminate|]. intros (a & v & _ & _ & _ & Hv & _).
           discriminate.
      * destruct (generate_summary_unshaped tfidf_sentences client (r :: rs) Hno)
          as (key & Hs).
        unfold get_news. cbn [bind]. rewrite Hs. cbn [bind status_of fst].
        split; [split; discriminate|]. split; [|tauto].
        split; [discriminate|]. intros (a & v & Ha & _ & Hall & _).
        injection Ha as <-. contradiction.
  - cbn. split; [split; discriminate|]. split; [|tauto].
    split; [discriminate|]. intros (a & v & Ha & _). discriminate.
Qed.

(** ** Sentences: nothing is invented or repeated by the ranking *)

(** X21.  The key sentences are a selection of the candidate sentences:
    the first [target_count] of some rearrangement of the candidates (all
    of them, in reading order, when there are fewer than three).  A
    candidate is returned at most as often as it occurs in the text. *)
Theorem key_sentences_are_a_selection :
  forall tfidf_sentences full_text text_sources target_count,
  exists ranked,
    Permutation ranked (tokenize_sentences full_text)
    /\ (extract_key_sentences_multimethod tfidf_sentences full_text
                                          text_sources target_count
        = if (len (tokenize_sentences full_text) <? 3)%Z
          then tokenize_sentences full_text
          else firstn (Z.to_nat target_count) ranked).
Proof.
  intros tfidf_sentences full_text text_sources target_count.
  unfold extract_key_sentences_multimethod. cbv zeta.
  set (sentences := tokenize_sentences full_text).
  exists (List.map snd (sort_desc scored_ltb
                          (combine_scores tfidf_sentences sentences))).
  split.
  - rewrite <- (combine_scores_snd tfidf_sentences sentences) at 2.
    apply Permutation_map. symmetry. apply sort_desc_perm.
  - destruct (len sentences <? 3)%Z; [reflexivity|].
    unfold nlargest. now rewrite firstn_map.
Qed.
